(** * The pharmacy back end: storage layer and catalog seeding

    A shallow embedding of [storage.ts] (class [DatabaseStorage]), of the
    table declarations of [shared/schema.ts] and of [seedAuthenticCatalog],
    with the properties of the data-access layer proved over it.

    The relational engine is modelled by tables that are lists of rows in
    physical order, together with the constraints the schema declares:
    primary keys, [unique()] columns and [references()] foreign keys.
    Column types are the carriers ([varchar], [uuid], [decimal] and [jsonb]
    as text kept as written, [integer] as [Z], [timestamp] as [Z]); every
    value is taken to fit its column, so length, range and syntax errors of
    the engine are outside the model.  Statements are atomic one by one;
    the code opens no transaction, so nothing groups them.

    Two behaviours of the query builder matter and are modelled: [set]
    leaves out of the UPDATE every property whose value is [undefined], and
    [values] throws on an empty array.  Console output is not modelled. *)

From Stdlib Require Import List String Ascii ZArith Bool Arith Lia.
From Stdlib Require Import Permutation Sorted QArith Qround DecimalString.
Import ListNotations.
Open Scope string_scope.
Open Scope list_scope.
Open Scope Z_scope.

(** ** Values *)

(** A JavaScript property of a nullable column: missing, [null] or set. *)
Inductive field (A : Type) : Type :=
| Undefined
| Null
| Value (a : A).
Arguments Undefined {A}.
Arguments Null {A}.
Arguments Value {A} a.

(** [INSERT]: a missing property takes the column default, [null] is stored
    as NULL. *)
Definition insert_col {A} (dflt : option A) (f : field A) : option A :=
  match f with
  | Undefined => dflt
  | Null => None
  | Value v => Some v
  end.

(** [UPDATE ... SET]: drizzle's [set] drops the properties whose value is
    [undefined], so those columns are not part of the statement; [null]
    stores NULL. *)
Definition set_col {A} (f : field A) (old : option A) : option A :=
  match f with
  | Undefined => old
  | Null => None
  | Value v => Some v
  end.

(** The same for a column declared [notNull()], whose property is a value
    or missing. *)
Definition set_req {A} (f : option A) (old : A) : A :=
  match f with
  | None => old
  | Some v => v
  end.

(** An optional parameter [x?: T] copied into a property: [undefined] stays
    [undefined]. *)
Definition of_optional {A} (x : option A) : field A :=
  match x with
  | None => Undefined
  | Some v => Value v
  end.

(** Truthiness of an optional string, as tested by [if (s)]. *)
Definition truthy (s : option string) : bool :=
  match s with
  | None => false
  | Some s => negb (s =? EmptyString)%string
  end.

Definition timestamp := Z.

(** SQL equality against a nullable column: NULL matches nothing. *)
Definition eq_nullable (col : option string) (v : string) : bool :=
  match col with
  | None => false
  | Some c => (c =? v)%string
  end.

Definition eq_nullable_bool (col : option bool) (v : bool) : bool :=
  match col with
  | None => false
  | Some c => Bool.eqb c v
  end.

(** ** Rows of [shared/schema.ts] *)

Module User.
Record t := mk {
  id : string;
  username : option string;
  password : option string;
  email : option string;
  firstName : option string;
  lastName : option string;
  profileImageUrl : option string;
  stripeCustomerId : option string;
  stripeSubscriptionId : option string;
  isAdmin : option bool;
  adminRole : option string;
  createdAt : option timestamp;
  updatedAt : option timestamp
}.
End User.

Module AdminPermission.
Record t := mk {
  id : string;
  userId : option string;
  permission : string;
  createdAt : option timestamp
}.
End AdminPermission.

Module Category.
Record t := mk {
  id : string;
  name : string;
  slug : string;
  description : option string;
  createdAt : option timestamp
}.
End Category.

Module Brand.
Record t := mk {
  id : string;
  name : string;
  description : option string;
  createdAt : option timestamp
}.
End Brand.

Module Product.
Record t := mk {
  id : string;
  name : string;
  slug : string;
  description : option string;
  shortDescription : option string;
  price : string;
  originalPrice : option string;
  dosage : option string;
  categoryId : option string;
  brandId : option string;
  imageUrl : option string;
  stockQuantity : option Z;
  requiresPrescription : option bool;
  isActive : option bool;
  rating : option string;
  reviewCount : option Z;
  createdAt : option timestamp;
  updatedAt : option timestamp
}.
End Product.

Module CartItem.
Record t := mk {
  id : string;
  userId : string;
  productId : string;
  quantity : Z;
  createdAt : option timestamp;
  updatedAt : option timestamp
}.
End CartItem.

Module Order.
Record t := mk {
  id : string;
  userId : string;
  orderNumber : string;
  status : string;
  totalAmount : string;
  shippingAddress : option string;
  billingAddress : option string;
  paymentStatus : option string;
  stripePaymentIntentId : option string;
  createdAt : option timestamp;
  updatedAt : option timestamp
}.
End Order.

Module OrderItem.
Record t := mk {
  id : string;
  orderId : string;
  productId : string;
  quantity : Z;
  price : string;
  createdAt : option timestamp
}.
End OrderItem.

(** ** Insert types ([createInsertSchema(...).omit(...)]) *)

Module InsertCategory.
Record t := mk {
  name : string;
  slug : string;
  description : field string
}.
End InsertCategory.

Module InsertBrand.
Record t := mk {
  name : string;
  description : field string
}.
End InsertBrand.

Module InsertProduct.
Record t := mk {
  name : string;
  slug : string;
  description : field string;
  shortDescription : field string;
  price : string;
  originalPrice : field string;
  dosage : field string;
  categoryId : field string;
  brandId : field string;
  imageUrl : field string;
  stockQuantity : field Z;
  requiresPrescription : field bool;
  isActive : field bool;
  rating : field string;
  reviewCount : field Z
}.
End InsertProduct.

Module InsertOrder.
Record t := mk {
  userId : string;
  orderNumber : string;
  status : option string;
  totalAmount : string;
  shippingAddress : field string;
  billingAddress : field string;
  paymentStatus : field string;
  stripePaymentIntentId : field string
}.
End InsertOrder.

Module InsertOrderItem.
Record t := mk {
  orderId : string;
  productId : string;
  quantity : Z;
  price : string
}.
End InsertOrderItem.

(** ** Extended types with relations *)

Module ProductWithRelations.
Record t := mk {
  product : Product.t;
  category : option Category.t;
  brand : option Brand.t
}.
End ProductWithRelations.

Module OrderItemWithProduct.
Record t := mk {
  orderItem : OrderItem.t;
  product : option Product.t
}.
End OrderItemWithProduct.

Module OrderWithItems.
Record t := mk {
  order : Order.t;
  orderItems : list OrderItemWithProduct.t
}.
End OrderWithItems.

Module InsertCartItem.
Record t := mk {
  userId : string;
  productId : string;
  quantity : option Z
}.
End InsertCartItem.

Module InsertAdminPermission.
Record t := mk {
  userId : field string;
  permission : string
}.
End InsertAdminPermission.

(** ** The objects handed to [set] *)

Module UserSet.
Record t := mk {
  isAdmin : field bool;
  adminRole : field string;
  updatedAt : field timestamp
}.
End UserSet.

Module CartItemSet.
Record t := mk {
  quantity : option Z;
  updatedAt : field timestamp
}.
End CartItemSet.

Module OrderSet.
Record t := mk {
  status : option string;
  paymentStatus : field string;
  updatedAt : field timestamp
}.
End OrderSet.

(** [Partial<InsertProduct>] spread together with [updatedAt]. *)
Module ProductSet.
Record t := mk {
  name : option string;
  slug : option string;
  description : field string;
  shortDescription : field string;
  price : option string;
  originalPrice : field string;
  dosage : field string;
  categoryId : field string;
  brandId : field string;
  imageUrl : field string;
  stockQuantity : field Z;
  requiresPrescription : field bool;
  isActive : field bool;
  rating : field string;
  reviewCount : field Z;
  updatedAt : field timestamp
}.
End ProductSet.

(** ** The database, its environment and the effect of a statement *)

Record Db := mkDb {
  users : list User.t;
  adminPermissions : list AdminPermission.t;
  categories : list Category.t;
  brands : list Brand.t;
  products : list Product.t;
  cartItems : list CartItem.t;
  orders : list Order.t;
  orderItems : list OrderItem.t
}.

Definition empty_db : Db := mkDb [] [] [] [] [] [] [] [].

Definition with_users (d : Db) (l : list User.t) : Db :=
  mkDb l (adminPermissions d) (categories d) (brands d) (products d)
       (cartItems d) (orders d) (orderItems d).
Definition with_adminPermissions (d : Db) (l : list AdminPermission.t) : Db :=
  mkDb (users d) l (categories d) (brands d) (products d)
       (cartItems d) (orders d) (orderItems d).
Definition with_categories (d : Db) (l : list Category.t) : Db :=
  mkDb (users d) (adminPermissions d) l (brands d) (products d)
       (cartItems d) (orders d) (orderItems d).
Definition with_brands (d : Db) (l : list Brand.t) : Db :=
  mkDb (users d) (adminPermissions d) (categories d) l (products d)
       (cartItems d) (orders d) (orderItems d).
Definition with_products (d : Db) (l : list Product.t) : Db :=
  mkDb (users d) (adminPermissions d) (categories d) (brands d) l
       (cartItems d) (orders d) (orderItems d).
Definition with_cartItems (d : Db) (l : list CartItem.t) : Db :=
  mkDb (users d) (adminPermissions d) (categories d) (brands d) (products d)
       l (orders d) (orderItems d).
Definition with_orders (d : Db) (l : list Order.t) : Db :=
  mkDb (users d) (adminPermissions d) (categories d) (brands d) (products d)
       (cartItems d) l (orderItems d).
Definition with_orderItems (d : Db) (l : list OrderItem.t) : Db :=
  mkDb (users d) (adminPermissions d) (categories d) (brands d) (products d)
       (cartItems d) (orders d) l.

(** What the program does not decide: the clock read while statement [n]
    runs, the value [gen_random_uuid()] gives to row [i] of statement [n],
    and the [i]-th [Math.random()] drawn while statement [n] is prepared
    (a double is a rational; the arithmetic on it is taken exact). *)
Record Env := mkEnv {
  time_at : nat -> timestamp;
  uuid_at : nat -> nat -> string;
  random_at : nat -> nat -> Q
}.

(** [tick] counts the statements sent so far. *)
Record World := mkWorld {
  db : Db;
  tick : nat
}.

Inductive Error : Type :=
| UniqueViolation (constraint : string)
| ForeignKeyViolation (constraint : string)
| EmptyValues
| TypeError (message : string).

Inductive Result (A : Type) : Type :=
| Ok (a : A)
| Err (e : Error).
Arguments Ok {A} a.
Arguments Err {A} e.

(** An [async] computation over the connection.  A rejected promise keeps
    the world as the statements before it left it. *)
Definition M (A : Type) : Type := Env -> World -> World * Result A.

Definition ret {A} (a : A) : M A := fun _ w => (w, Ok a).

Definition throw {A} (e : Error) : M A := fun _ w => (w, Err e).

Definition bind {A B} (m : M A) (k : A -> M B) : M B :=
  fun env w =>
    match m env w with
    | (w', Ok a) => k a env w'
    | (w', Err e) => (w', Err e)
    end.

Notation "x <- c1 ;; c2" := (bind c1 (fun x => c2))
  (at level 61, c1 at next level, right associativity).

(** One statement: it either fails and changes nothing, or commits. *)
Definition statement {A}
  (run : timestamp -> (nat -> string) -> Db -> Error + Db * A) : M A :=
  fun env w =>
    match run (time_at env (tick w)) (uuid_at env (tick w)) (db w) with
    | inl e => (mkWorld (db w) (S (tick w)), Err e)
    | inr (d, a) => (mkWorld d (S (tick w)), Ok a)
    end.

(** [new Date()] *)
Definition Date_now : M timestamp :=
  fun env w => (w, Ok (time_at env (tick w))).

(** ** Query building blocks *)

Definition mem (x : string) (l : list string) : bool :=
  existsb (String.eqb x) l.

Definition mem_opt (x : option string) (l : list string) : bool :=
  match x with
  | None => true
  | Some v => mem v l
  end.

Fixpoint distinct (l : list string) : bool :=
  match l with
  | [] => true
  | x :: r => negb (mem x r) && distinct r
  end.

Definition left_join {A B} (on : A -> B -> bool) (l : list A) (r : list B)
  : list (A * option B) :=
  flat_map (fun a =>
              match filter (on a) r with
              | [] => [(a, None)]
              | ms => map (fun b => (a, Some b)) ms
              end) l.

(** [desc(col)] on a nullable timestamp: NULLs sort first, then the later
    instants. *)
Definition desc (a b : option timestamp) : bool :=
  match a, b with
  | None, _ => true
  | Some _, None => false
  | Some x, Some y => y <=? x
  end.

Fixpoint place {A} (key : A -> option timestamp) (x : A) (l : list A) : list A :=
  match l with
  | [] => [x]
  | y :: r => if desc (key x) (key y) then x :: y :: r else y :: place key x r
  end.

Definition orderBy_desc {A} (key : A -> option timestamp) (l : list A) : list A :=
  fold_right (place key) [] l.

(** The order a [desc] listing is in. *)
Definition newer_first {A} (key : A -> option timestamp) (a b : A) : Prop :=
  desc (key a) (key b) = true.

Definition select_from {R} (table : Db -> list R) (where_ : R -> bool) : M (list R) :=
  statement (fun _ _ d => inr (d, filter where_ (table d))).

Definition select_rows {A} (query : Db -> list A) : M (list A) :=
  statement (fun _ _ d => inr (d, query d)).

Definition count_where {R} (p : R -> bool) (l : list R) : nat :=
  List.length (filter p l).

(** *** [INSERT ... RETURNING] with the checks of each table *)

Definition insert_categories (v : InsertCategory.t) : M (list Category.t) :=
  statement (fun now uuid d =>
    let row := Category.mk (uuid 0%nat) (InsertCategory.name v)
                 (InsertCategory.slug v)
                 (insert_col None (InsertCategory.description v)) (Some now) in
    if mem (Category.id row) (map Category.id (categories d))
    then inl (UniqueViolation "categories_pkey")
    else if mem (Category.slug row) (map Category.slug (categories d))
    then inl (UniqueViolation "categories_slug_unique")
    else inr (with_categories d (categories d ++ [row]), [row])).

Definition insert_brands (v : InsertBrand.t) : M (list Brand.t) :=
  statement (fun now uuid d =>
    let row := Brand.mk (uuid 0%nat) (InsertBrand.name v)
                 (insert_col None (InsertBrand.description v)) (Some now) in
    if mem (Brand.id row) (map Brand.id (brands d))
    then inl (UniqueViolation "brands_pkey")
    else inr (with_brands d (brands d ++ [row]), [row])).

Definition insert_products (v : InsertProduct.t) : M (list Product.t) :=
  statement (fun now uuid d =>
    let row := Product.mk (uuid 0%nat) (InsertProduct.name v)
                 (InsertProduct.slug v)
                 (insert_col None (InsertProduct.description v))
                 (insert_col None (InsertProduct.shortDescription v))
                 (InsertProduct.price v)
                 (insert_col None (InsertProduct.originalPrice v))
                 (insert_col None (InsertProduct.dosage v))
                 (insert_col None (InsertProduct.categoryId v))
                 (insert_col None (InsertProduct.brandId v))
                 (insert_col None (InsertProduct.imageUrl v))
                 (insert_col (Some 0) (InsertProduct.stockQuantity v))
                 (insert_col (Some false) (InsertProduct.requiresPrescription v))
                 (insert_col (Some true) (InsertProduct.isActive v))
                 (insert_col (Some "0") (InsertProduct.rating v))
                 (insert_col (Some 0) (InsertProduct.reviewCount v))
                 (Some now) (Some now) in
    if mem (Product.id row) (map Product.id (products d))
    then inl (UniqueViolation "products_pkey")
    else if mem (Product.slug row) (map Product.slug (products d))
    then inl (UniqueViolation "products_slug_unique")
    else if negb (mem_opt (Product.categoryId row) (map Category.id (categories d)))
    then inl (ForeignKeyViolation "products_category_id_categories_id_fk")
    else if negb (mem_opt (Product.brandId row) (map Brand.id (brands d)))
    then inl (ForeignKeyViolation "products_brand_id_brands_id_fk")
    else inr (with_products d (products d ++ [row]), [row])).

Definition insert_cartItems (v : InsertCartItem.t) : M (list CartItem.t) :=
  statement (fun now uuid d =>
    let row := CartItem.mk (uuid 0%nat) (InsertCartItem.userId v)
                 (InsertCartItem.productId v)
                 (match InsertCartItem.quantity v with
                  | None => 1
                  | Some q => q
                  end)
                 (Some now) (Some now) in
    if mem (CartItem.id row) (map CartItem.id (cartItems d))
    then inl (UniqueViolation "cart_items_pkey")
    else if negb (mem (CartItem.userId row) (map User.id (users d)))
    then inl (ForeignKeyViolation "cart_items_user_id_users_id_fk")
    else if negb (mem (CartItem.productId row) (map Product.id (products d)))
    then inl (ForeignKeyViolation "cart_items_product_id_products_id_fk")
    else inr (with_cartItems d (cartItems d ++ [row]), [row])).




Definition insert_adminPermissions (v : InsertAdminPermission.t)
  : M (list AdminPermission.t) :=
  statement (fun now uuid d =>
    let row := AdminPermission.mk (uuid 0%nat)
                 (insert_col None (InsertAdminPermission.userId v))
                 (InsertAdminPermission.permission v) (Some now) in
    if mem (AdminPermission.id row) (map AdminPermission.id (adminPermissions d))
    then inl (UniqueViolation "admin_permissions_pkey")
    else if negb (mem_opt (AdminPermission.userId row) (map User.id (users d)))
    then inl (ForeignKeyViolation "admin_permissions_user_id_users_id_fk")
    else inr (with_adminPermissions d (adminPermissions d ++ [row]), [row])).

(** *** [UPDATE ... SET ... WHERE ... RETURNING] *)

Definition apply_UserSet (s : UserSet.t) (u : User.t) : User.t :=
  User.mk (User.id u) (User.username u) (User.password u) (User.email u)
    (User.firstName u) (User.lastName u) (User.profileImageUrl u)
    (User.stripeCustomerId u) (User.stripeSubscriptionId u)
    (set_col (UserSet.isAdmin s) (User.isAdmin u))
    (set_col (UserSet.adminRole s) (User.adminRole u))
    (User.createdAt u)
    (set_col (UserSet.updatedAt s) (User.updatedAt u)).

Definition apply_CartItemSet (s : CartItemSet.t) (c : CartItem.t) : CartItem.t :=
  CartItem.mk (CartItem.id c) (CartItem.userId c) (CartItem.productId c)
    (set_req (CartItemSet.quantity s) (CartItem.quantity c))
    (CartItem.createdAt c)
    (set_col (CartItemSet.updatedAt s) (CartItem.updatedAt c)).

Definition apply_OrderSet (s : OrderSet.t) (o : Order.t) : Order.t :=
  Order.mk (Order.id o) (Order.userId o) (Order.orderNumber o)
    (set_req (OrderSet.status s) (Order.status o))
    (Order.totalAmount o) (Order.shippingAddress o) (Order.billingAddress o)
    (set_col (OrderSet.paymentStatus s) (Order.paymentStatus o))
    (Order.stripePaymentIntentId o) (Order.createdAt o)
    (set_col (OrderSet.updatedAt s) (Order.updatedAt o)).


(** The rows after the statement, and the rows it returns. *)
Definition updated {R} (f : R -> R) (where_ : R -> bool) (l : list R) : list R :=
  map (fun r => if where_ r then f r else r) l.

Definition returning {R} (f : R -> R) (where_ : R -> bool) (l : list R) : list R :=
  map f (filter where_ l).

Definition update_users (s : UserSet.t) (where_ : User.t -> bool) : M (list User.t) :=
  statement (fun _ _ d =>
    inr (with_users d (updated (apply_UserSet s) where_ (users d)),
         returning (apply_UserSet s) where_ (users d))).

Definition update_cartItems (s : CartItemSet.t) (where_ : CartItem.t -> bool)
  : M (list CartItem.t) :=
  statement (fun _ _ d =>
    inr (with_cartItems d (updated (apply_CartItemSet s) where_ (cartItems d)),
         returning (apply_CartItemSet s) where_ (cartItems d))).

Definition update_orders (s : OrderSet.t) (where_ : Order.t -> bool)
  : M (list Order.t) :=
  statement (fun _ _ d =>
    inr (with_orders d (updated (apply_OrderSet s) where_ (orders d)),
         returning (apply_OrderSet s) where_ (orders d))).



(** *** [DELETE ... WHERE]; no table references [admin_permissions]. *)

Definition delete_adminPermissions (where_ : AdminPermission.t -> bool) : M unit :=
  statement (fun _ _ d =>
    inr (with_adminPermissions d
           (filter (fun r => negb (where_ r)) (adminPermissions d)), tt)).

(** ** [DatabaseStorage] *)

(** The [filters] parameter of [getProducts]; its numbers are carried as
    integers, and [getProducts] reads none of its fields. *)
Module Filters.
Record t := mk {
  categoryId : option string;
  brandId : option string;
  search : option string;
  minPrice : option Z;
  maxPrice : option Z;
  inStock : option bool;
  limit : option Z;
  offset : option Z
}.
End Filters.

Definition createCategory (category : InsertCategory.t) : M (option Category.t) :=
  rows <- insert_categories category ;;
  ret (hd_error rows).

Definition createBrand (brand : InsertBrand.t) : M (option Brand.t) :=
  rows <- insert_brands brand ;;
  ret (hd_error rows).

Definition products_join (d : Db)
  : list (Product.t * option Category.t * option Brand.t) :=
  left_join (fun pc b => eq_nullable (Product.brandId (fst pc)) (Brand.id b))
    (left_join (fun p c => eq_nullable (Product.categoryId p) (Category.id c))
       (products d) (categories d))
    (brands d).

Definition with_relations (row : Product.t * option Category.t * option Brand.t)
  : ProductWithRelations.t :=
  ProductWithRelations.mk (fst (fst row)) (snd (fst row)) (snd row).

Definition active (p : Product.t) : bool :=
  eq_nullable_bool (Product.isActive p) true.

Definition getProducts (filters : option Filters.t)
  : M (list ProductWithRelations.t) :=
  results <- select_rows (fun d =>
    orderBy_desc (fun row => Product.createdAt (fst (fst row)))
      (filter (fun row => active (fst (fst row))) (products_join d))) ;;
  ret (map with_relations results).

Definition createProduct (product : InsertProduct.t) : M (option Product.t) :=
  rows <- insert_products product ;;
  ret (hd_error rows).


Definition same_cart (userId productId : string) (c : CartItem.t) : bool :=
  (CartItem.userId c =? userId)%string && (CartItem.productId c =? productId)%string.

Definition addToCart (userId productId : string) (quantity : Z)
  : M (option CartItem.t) :=
  existing <- select_from cartItems (same_cart userId productId) ;;
  match existing with
  | existingItem :: _ =>
      now <- Date_now ;;
      rows <- update_cartItems
                (CartItemSet.mk (Some (CartItem.quantity existingItem + quantity))
                   (Value now))
                (fun c => (CartItem.id c =? CartItem.id existingItem)%string) ;;
      ret (hd_error rows)
  | [] =>
      rows <- insert_cartItems (InsertCartItem.mk userId productId (Some quantity)) ;;
      ret (hd_error rows)
  end.

Definition updateCartItem (userId productId : string) (quantity : Z)
  : M (option CartItem.t) :=
  now <- Date_now ;;
  rows <- update_cartItems (CartItemSet.mk (Some quantity) (Value now))
            (same_cart userId productId) ;;
  ret (hd_error rows).

(** A row of [select({ order, orderItem, product })]. *)
Module OrderRow.
Record t := mk {
  order : Order.t;
  orderItem : option OrderItem.t;
  product : option Product.t
}.
End OrderRow.

Definition orders_join (d : Db) : list OrderRow.t :=
  map (fun r => OrderRow.mk (fst (fst r)) (snd (fst r)) (snd r))
    (left_join
       (fun oi p =>
          match snd oi with
          | Some i => (OrderItem.productId i =? Product.id p)%string
          | None => false
          end)
       (left_join (fun o i => (Order.id o =? OrderItem.orderId i)%string)
          (orders d) (orderItems d))
       (products d)).

(** [groupedOrders]: a plain object keyed by the order's uuid text, so its
    own keys keep insertion order and [Object.values] lists them so. *)
Definition has_key (k : string) (g : list (string * OrderWithItems.t)) : bool :=
  existsb (fun e => (fst e =? k)%string) g.

(** The own property [k] of [groupedOrders], when present. *)
Definition entry_of (k : string) (g : list (string * OrderWithItems.t))
  : option (string * OrderWithItems.t) :=
  find (fun e => (fst e =? k)%string) g.

(** Every entry of [groupedOrders] sits under the id of its order. *)
Definition keyed (g : list (string * OrderWithItems.t)) : Prop :=
  forall e, In e g -> fst e = Order.id (OrderWithItems.order (snd e)).

Definition push_item (k : string) (x : OrderItemWithProduct.t)
  (g : list (string * OrderWithItems.t)) : list (string * OrderWithItems.t) :=
  map (fun e =>
         if (fst e =? k)%string
         then (fst e,
               OrderWithItems.mk (OrderWithItems.order (snd e))
                 (OrderWithItems.orderItems (snd e) ++ [x]))
         else e) g.

Definition group_row (g : list (string * OrderWithItems.t)) (row : OrderRow.t)
  : list (string * OrderWithItems.t) :=
  let orderId := Order.id (OrderRow.order row) in
  let g1 := if negb (has_key orderId g)
            then g ++ [(orderId, OrderWithItems.mk (OrderRow.order row) [])]
            else g in
  match OrderRow.orderItem row, OrderRow.product row with
  | Some i, Some p => push_item orderId (OrderItemWithProduct.mk i (Some p)) g1
  | _, _ => g1
  end.

Definition getOrders (userId : string) : M (list OrderWithItems.t) :=
  ordersWithItems <- select_rows (fun d =>
    orderBy_desc (fun row => Order.createdAt (OrderRow.order row))
      (filter (fun row => (Order.userId (OrderRow.order row) =? userId)%string)
         (orders_join d))) ;;
  let groupedOrders := fold_left group_row ordersWithItems [] in
  ret (map snd groupedOrders).

(** [filter(row => row.orderItem && row.product)] followed by the [map]
    that reads both. *)
Definition paired (row : OrderRow.t) : list OrderItemWithProduct.t :=
  match OrderRow.orderItem row, OrderRow.product row with
  | Some i, Some p => [OrderItemWithProduct.mk i (Some p)]
  | _, _ => []
  end.

Definition getOrder (id : string) : M (option OrderWithItems.t) :=
  orderWithItems <- select_rows (fun d =>
    filter (fun row => (Order.id (OrderRow.order row) =? id)%string)
      (orders_join d)) ;;
  match orderWithItems with
  | [] => ret None
  | first :: _ =>
      let order := OrderRow.order first in
      let items := flat_map paired orderWithItems in
      ret (Some (OrderWithItems.mk order items))
  end.



Definition updateOrderStatus (id status : string) (paymentStatus : option string)
  : M (option Order.t) :=
  now <- Date_now ;;
  let updateData :=
    OrderSet.mk (Some status)
      (if truthy paymentStatus then of_optional paymentStatus else Undefined)
      (Value now) in
  rows <- update_orders updateData (fun o => (Order.id o =? id)%string) ;;
  ret (hd_error rows).

(** [adminRole: role] with [role] omitted is an [undefined] property. *)
Definition setUserAdmin (id : string) (isAdmin : bool) (role : option string)
  : M (option User.t) :=
  now <- Date_now ;;
  rows <- update_users
            (UserSet.mk (Value isAdmin) (of_optional role) (Value now))
            (fun u => (User.id u =? id)%string) ;;
  ret (hd_error rows).

Definition same_permission (userId permission : string) (r : AdminPermission.t)
  : bool :=
  eq_nullable (AdminPermission.userId r) userId
  && (AdminPermission.permission r =? permission)%string.

Definition addAdminPermission (userId permission : string)
  : M (option AdminPermission.t) :=
  rows <- insert_adminPermissions
            (InsertAdminPermission.mk (Value userId) permission) ;;
  ret (hd_error rows).

Definition removeAdminPermission (userId permission : string) : M unit :=
  delete_adminPermissions (same_permission userId permission).

(** [findFirst] keeps the first row of the selection. *)
Definition hasAdminPermission (userId permission : string) : M bool :=
  rows <- select_from adminPermissions (same_permission userId permission) ;;
  let permission_record := hd_error rows in
  ret (match permission_record with
       | Some _ => true
       | None => false
       end).

Module PartialInsertProduct.
Record t := mk {
  name : option string;
  slug : option string;
  description : field string;
  shortDescription : field string;
  price : option string;
  originalPrice : field string;
  dosage : field string;
  categoryId : field string;
  brandId : field string;
  imageUrl : field string;
  stockQuantity : field Z;
  requiresPrescription : field bool;
  isActive : field bool;
  rating : field string;
  reviewCount : field Z
}.
End PartialInsertProduct.



(** The part of [IStorage] that the modelled code calls through the
    interface. *)
Class IStorage := {
  storage_createCategory : InsertCategory.t -> M (option Category.t);
  storage_createBrand : InsertBrand.t -> M (option Brand.t);
  storage_createProduct : InsertProduct.t -> M (option Product.t)
}.

#[export] Instance DatabaseStorage : IStorage := {
  storage_createCategory := createCategory;
  storage_createBrand := createBrand;
  storage_createProduct := createProduct
}.

(** ** [seedAuthenticCatalog] *)

(** Text is a sequence of byte-sized characters; [toLowerCase] acts on the
    letters A to Z. *)
Definition is_upper (c : ascii) : bool :=
  let n := nat_of_ascii c in (65 <=? n)%nat && (n <=? 90)%nat.

Definition is_lower (c : ascii) : bool :=
  let n := nat_of_ascii c in (97 <=? n)%nat && (n <=? 122)%nat.

Definition is_digit (c : ascii) : bool :=
  let n := nat_of_ascii c in (48 <=? n)%nat && (n <=? 57)%nat.

(** [\s] on this alphabet: tab, line feed, vertical tab, form feed,
    carriage return and space. *)
Definition is_space (c : ascii) : bool :=
  let n := nat_of_ascii c in ((9 <=? n)%nat && (n <=? 13)%nat) || (n =? 32)%nat.

Definition lower_char (c : ascii) : ascii :=
  if is_upper c then ascii_of_nat (nat_of_ascii c + 32) else c.

Fixpoint toLowerCase (s : string) : string :=
  match s with
  | EmptyString => EmptyString
  | String c r => String (lower_char c) (toLowerCase r)
  end.

Definition hyphen : ascii := "-"%char.

(** [replace(/[^a-z0-9]/g, '-')] *)
Fixpoint replace_non_alnum (s : string) : string :=
  match s with
  | EmptyString => EmptyString
  | String c r =>
      String (if is_lower c || is_digit c then c else hyphen) (replace_non_alnum r)
  end.

(** [replace(/-+/g, '-')] *)
Fixpoint collapse_hyphens (s : string) : string :=
  match s with
  | EmptyString => EmptyString
  | String c r =>
      match r with
      | String c' _ =>
          if Ascii.eqb c hyphen && Ascii.eqb c' hyphen
          then collapse_hyphens r
          else String c (collapse_hyphens r)
      | EmptyString => String c EmptyString
      end
  end.

Definition slugify (s : string) : string :=
  collapse_hyphens (replace_non_alnum (toLowerCase s)).

(** [s.includes(sub)] *)
Fixpoint includes (sub s : string) : bool :=
  prefix sub s ||
  match s with
  | EmptyString => false
  | String _ r => includes sub r
  end.

Definition isPrescriptionRequired (productName category : string) : bool :=
  let prescriptionKeywords := ["prescription"; "rx"; "antibiotic"; "steroid"] in
  let productLower := toLowerCase productName in
  existsb (fun keyword => includes keyword productLower) prescriptionKeywords.

(** The pattern [(\d+\s*(mg|mcg|g|ml|tablets?|capsules?|count|ct))] with the
    [i] flag.  The two greedy runs never have to give characters back,
    since no unit starts with a digit or with white space. *)
Fixpoint span (p : ascii -> bool) (s : string) : string * string :=
  match s with
  | EmptyString => (EmptyString, EmptyString)
  | String c r =>
      if p c
      then let '(a, b) := span p r in (String c a, b)
      else (EmptyString, s)
  end.

(** The characters of [s] that [word] matches at its start, letter case
    apart. *)
Definition match_word (word s : string) : option string :=
  let head := substring 0 (String.length word) s in
  if (toLowerCase head =? word)%string then Some head else None.

Definition match_plural (word s : string) : option string :=
  match match_word (word ++ "s") s with
  | Some m => Some m
  | None => match_word word s
  end.

Definition match_unit (s : string) : option string :=
  match match_word "mg" s with
  | Some m => Some m
  | None =>
  match match_word "mcg" s with
  | Some m => Some m
  | None =>
  match match_word "g" s with
  | Some m => Some m
  | None =>
  match match_word "ml" s with
  | Some m => Some m
  | None =>
  match match_plural "tablet" s with
  | Some m => Some m
  | None =>
  match match_plural "capsule" s with
  | Some m => Some m
  | None =>
  match match_word "count" s with
  | Some m => Some m
  | None => match_word "ct" s
  end end end end end end end.

Definition match_dosage_here (s : string) : option string :=
  let '(digits, rest) := span is_digit s in
  match digits with
  | EmptyString => None
  | _ =>
      let '(spaces, rest') := span is_space rest in
      match match_unit rest' with
      | Some u => Some (digits ++ spaces ++ u)%string
      | None => None
      end
  end.

Fixpoint match_dosage (s : string) : option string :=
  match match_dosage_here s with
  | Some m => Some m
  | None =>
      match s with
      | EmptyString => None
      | String _ r => match_dosage r
      end
  end.

Definition extractDosage (productName : string) : string :=
  match match_dosage productName with
  | Some dosageMatch => dosageMatch
  | None => "As directed"
  end.

(** [Math.random()], the [i]-th draw since the last statement. *)
Definition Math_random (i : nat) : M Q :=
  fun env w => (w, Ok (random_at env (tick w) i)).

Definition Number_toString (n : Z) : string :=
  NilZero.string_of_int (Z.to_int n).

(** [x.toFixed(1)] for [x >= 0]: the nearest tenth, the larger one on a tie. *)
Definition toFixed1 (x : Q) : string :=
  let n := Qfloor (Qplus (Qmult x (inject_Z 10)) (1 # 2)) in
  (Number_toString (n / 10) ++ "." ++ Number_toString (n mod 10))%string.

(** A plain object with string keys that are not array indices: assignment
    to a present key replaces its value in place, a new key goes last. *)
Definition obj (A : Type) : Type := list (string * A).

Fixpoint obj_set {A} (k : string) (v : A) (o : obj A) : obj A :=
  match o with
  | [] => [(k, v)]
  | e :: r => if (fst e =? k)%string then (k, v) :: r else e :: obj_set k v r
  end.

Definition obj_get {A} (k : string) (o : obj A) : option A :=
  option_map snd (find (fun e => (fst e =? k)%string) o).

(** [x || d] on a text property of a JSON record. *)
Definition or_else (x : option string) (d : string) : string :=
  match x with
  | Some s => if (s =? EmptyString)%string then d else s
  | None => d
  end.

(** [[...new Set(l)]]: the first occurrence of each value, in order. *)
Fixpoint Set_values (l seen : list string) : list string :=
  match l with
  | [] => []
  | x :: r => if mem x seen then Set_values r seen else x :: Set_values r (x :: seen)
  end.

(** A record of [catalog_data.json]; [Price] is the value of ['Price(Ghc)']
    as JavaScript prints it. *)
Module CatalogItem.
Record t := mk {
  ProductName : option string;
  Brand : option string;
  Category : option string;
  Price : option string;
  Direct_Link : option string
}.
End CatalogItem.

Module SeedSummary.
Record t := mk {
  categories : nat;
  brands : nat;
  products : nat
}.
End SeedSummary.

Definition categoryData (name slug description : string) : InsertCategory.t :=
  InsertCategory.mk name slug (Value description).

Definition categoriesData : list InsertCategory.t :=
  [ categoryData "Vitamins & Multivitamins" "vitamins-multivitamins"
      "Essential vitamins and multivitamin supplements for daily health";
    categoryData "Probiotics & Digestive Health" "probiotics-digestive-health"
      "Probiotic supplements and digestive health products";
    categoryData "Dietary Supplements" "dietary-supplements"
      "General dietary and nutritional supplements";
    categoryData "Joint, Bone & Muscle Support" "joint-bone-muscle-support"
      "Supplements for joint, bone and muscle health";
    categoryData "Hair, Skin & Nails" "hair-skin-nails"
      "Beauty supplements for hair, skin and nail health";
    categoryData "Pain Relief" "pain-relief"
      "Over-the-counter pain relief medications";
    categoryData "Cold, Cough & Allergy" "cold-cough-allergy"
      "Cold, cough and allergy relief medications";
    categoryData "Urinary Health & Cranberry" "urinary-health-cranberry"
      "Urinary tract health and cranberry supplements";
    categoryData "Skin Care & Acne" "skin-care-acne"
      "Topical skin care and acne treatment products";
    categoryData "Women's Health & Feminine Care" "womens-health-feminine-care"
      "Women's health and feminine care products";
    categoryData "First Aid & Wound Care" "first-aid-wound-care"
      "First aid supplies and wound care products";
    categoryData "Digestive & Antacid" "digestive-antacid"
      "Digestive aids and antacid medications";
    categoryData "Heart Health & CoQ10" "heart-health-coq10"
      "Heart health supplements including CoQ10";
    categoryData "Oral Care" "oral-care"
      "Oral and dental care products";
    categoryData "Minerals & Trace Elements" "minerals-trace-elements"
      "Important minerals and trace elements for optimal body function";
    categoryData "Herbal & Natural Supplements" "herbal-natural-supplements"
      "Natural herbal supplements and botanical extracts";
    categoryData "General Health" "general-health"
      "General health and wellness products" ].

Section Seeding.
Context {storage : IStorage}.

Fixpoint seed_categories (data : list InsertCategory.t)
  (categories : obj (option Category.t)) : M (obj (option Category.t)) :=
  match data with
  | [] => ret categories
  | categoryData :: rest =>
      created <- storage_createCategory categoryData ;;
      seed_categories rest
        (obj_set (InsertCategory.slug categoryData) created categories)
  end.

Fixpoint seed_brands (uniqueBrands : list string) (brands : obj (option Brand.t))
  : M (obj (option Brand.t)) :=
  match uniqueBrands with
  | [] => ret brands
  | brandName :: rest =>
      let brandSlug := slugify brandName in
      created <- storage_createBrand
                   (InsertBrand.mk brandName
                      (Value ("Quality " ++ brandName ++ " pharmaceutical products")%string)) ;;
      seed_brands rest (obj_set brandSlug created brands)
  end.

(** The loop over [Object.entries(categories)] that stops at the first
    category of the wanted name. *)
Fixpoint find_category (entries : obj (option Category.t)) (category : string)
  : M (option Category.t) :=
  match entries with
  | [] => ret None
  | (_, cat) :: rest =>
      match cat with
      | None => throw (TypeError "cat is undefined")
      | Some c =>
          if (Category.name c =? category)%string
          then ret (Some c)
          else find_category rest category
      end
  end.

Definition or_obj {A} (x y : option (option A)) : option A :=
  match x with
  | Some (Some a) => Some a
  | _ => match y with
         | Some (Some a) => Some a
         | _ => None
         end
  end.

Fixpoint seed_products (categories : obj (option Category.t))
  (brands : obj (option Brand.t)) (items : list CatalogItem.t)
  (products : list (option Product.t)) (processedProducts : list string)
  : M (list (option Product.t)) :=
  match items with
  | [] => ret products
  | item :: rest =>
      let productName := or_else (CatalogItem.ProductName item) "Unknown Product" in
      let brand := or_else (CatalogItem.Brand item) "Generic" in
      let category := or_else (CatalogItem.Category item) "General Health" in
      let price := or_else (CatalogItem.Price item) "0" in
      let imageUrl := or_else (CatalogItem.Direct_Link item) EmptyString in
      let productKey := (productName ++ "-" ++ brand ++ "-" ++ price)%string in
      if mem productKey processedProducts
      then seed_products categories brands rest products processedProducts
      else
        found <- find_category categories category ;;
        let categoryObj :=
          or_obj (Some found) (obj_get "general-health" categories) in
        let brandSlug := slugify brand in
        let brandObj := or_obj (obj_get brandSlug brands) (obj_get "generic" brands) in
        let productSlug := substring 0 100 (slugify productName) in
        match categoryObj, brandObj with
        | Some categoryObj, Some brandObj =>
            r1 <- Math_random 0 ;;
            r2 <- Math_random 1 ;;
            r3 <- Math_random 2 ;;
            created <- storage_createProduct
              (InsertProduct.mk productName
                 (productSlug ++ "-"
                  ++ Number_toString (Z.of_nat (List.length products)))%string
                 (Value (productName ++ " - Premium " ++ brand
                         ++ " product for your health needs.")%string)
                 (Value (if (50 <? String.length productName)%nat
                         then (substring 0 50 productName ++ "...")%string
                         else productName))
                 price
                 Undefined
                 (Value (extractDosage productName))
                 (Value (Category.id categoryObj))
                 (Value (Brand.id brandObj))
                 (Value imageUrl)
                 (Value (Qfloor (Qmult r1 (inject_Z 150)) + 50))
                 (Value (isPrescriptionRequired productName category))
                 Undefined
                 (Value (toFixed1 (Qplus (Qmult r2 (inject_Z 2)) (inject_Z 3))))
                 (Value (Qfloor (Qmult r3 (inject_Z 500)) + 50))) ;;
            seed_products categories brands rest (products ++ [created])
              (productKey :: processedProducts)
        | _, _ => throw (TypeError "cannot read properties of undefined (reading 'id')")
        end
  end.

Definition seedAuthenticCatalog (catalogData : list CatalogItem.t)
  : M SeedSummary.t :=
  categories <- seed_categories categoriesData [] ;;
  let uniqueBrands :=
    Set_values (map (fun item => or_else (CatalogItem.Brand item) "Generic")
                  catalogData) [] in
  brands <- seed_brands uniqueBrands [] ;;
  products <- seed_products categories brands catalogData [] [] ;;
  ret (SeedSummary.mk (List.length categories) (List.length brands)
         (List.length products)).

End Seeding.

(** ** A small database for the examples *)

Definition sample_uuid (n i : nat) : string :=
  ("uuid-" ++ Number_toString (Z.of_nat n) ++ "-" ++ Number_toString (Z.of_nat i))%string.

Definition sample_env : Env :=
  mkEnv (fun n => 1700000000000 + Z.of_nat n) sample_uuid (fun _ _ => (1 # 3)%Q).

Definition alice : User.t :=
  User.mk "alice" (Some "alice") (Some "$2b$10$hash") (Some "a@x.com")
    None None None None None (Some true) (Some "product_manager")
    (Some 100) (Some 100).

Definition pain_relief : Category.t :=
  Category.mk "c-1" "Pain Relief" "pain-relief" None (Some 10).

Definition bayer : Brand.t :=
  Brand.mk "b-1" "Bayer" None (Some 11).

Definition aspirin : Product.t :=
  Product.mk "p-1" "Aspirin 500mg" "aspirin-500mg" None None "9.99" None
    (Some "500mg") (Some "c-1") (Some "b-1") None (Some 40) (Some false)
    (Some true) (Some "4.5") (Some 12) (Some 20) (Some 20).

Definition vitamin_d3 : Product.t :=
  Product.mk "p-2" "Vitamin D3" "vitamin-d3" None None "14.50" None
    None None None None (Some 5) (Some false)
    (Some true) (Some "0") (Some 0) (Some 30) (Some 30).

Definition retired : Product.t :=
  Product.mk "p-3" "Old syrup" "old-syrup" None None "3.00" None
    None (Some "c-1") None None (Some 0) (Some false)
    (Some false) (Some "0") (Some 0) (Some 40) (Some 40).

Definition empty_order : Order.t :=
  Order.mk "o-1" "alice" "ORD-0001" "pending" "0.00" None None
    (Some "pending") None (Some 50) (Some 50).

Definition paid_order : Order.t :=
  Order.mk "o-2" "alice" "ORD-0002" "shipped" "19.98" None None
    (Some "paid") (Some "pi_123") (Some 60) (Some 60).

Definition paid_item : OrderItem.t :=
  OrderItem.mk "i-1" "o-2" "p-1" 2 "9.99" (Some 60).

Definition sample_db : Db :=
  mkDb [alice] [] [pain_relief] [bayer] [aspirin; vitamin_d3; retired] []
    [empty_order; paid_order] [paid_item].

Definition sample_world : World := mkWorld sample_db 0.

Definition inactive_syrup : InsertProduct.t :=
  InsertProduct.mk "Cough syrup" "cough-syrup" Undefined Undefined "4.20"
    Undefined Undefined (Value "c-1") Null Undefined Undefined Undefined
    (Value false) Undefined Undefined.




Definition sample_catalog : list CatalogItem.t :=
  [ CatalogItem.mk (Some "Vitamin C 500mg Tablets") (Some "Nature's Way")
      (Some "Vitamins & Multivitamins") (Some "12.5") None;
    CatalogItem.mk (Some "Rx Steroid cream 20 G") None (Some "Unlisted") None
      (Some "https://drive.example/file") ].

(** ** The rest of [DatabaseStorage] *)

(** *** [DELETE] on the tables that others reference

    The foreign keys are declared without [onDelete], so a row that another
    row still references cannot be deleted. *)

Definition delete_cartItems (where_ : CartItem.t -> bool) : M unit :=
  statement (fun _ _ d =>
    inr (with_cartItems d (filter (fun r => negb (where_ r)) (cartItems d)), tt)).

Definition delete_orderItems (where_ : OrderItem.t -> bool) : M unit :=
  statement (fun _ _ d =>
    inr (with_orderItems d (filter (fun r => negb (where_ r)) (orderItems d)), tt)).

Definition delete_orders (where_ : Order.t -> bool) : M unit :=
  statement (fun _ _ d =>
    let gone := map Order.id (filter where_ (orders d)) in
    if existsb (fun i => mem (OrderItem.orderId i) gone) (orderItems d)
    then inl (ForeignKeyViolation "order_items_order_id_orders_id_fk")
    else inr (with_orders d (filter (fun r => negb (where_ r)) (orders d)), tt)).

Definition delete_products (where_ : Product.t -> bool) : M unit :=
  statement (fun _ _ d =>
    let gone := map Product.id (filter where_ (products d)) in
    if existsb (fun c => mem (CartItem.productId c) gone) (cartItems d)
    then inl (ForeignKeyViolation "cart_items_product_id_products_id_fk")
    else if existsb (fun i => mem (OrderItem.productId i) gone) (orderItems d)
    then inl (ForeignKeyViolation "order_items_product_id_products_id_fk")
    else inr (with_products d (filter (fun r => negb (where_ r)) (products d)), tt)).

Definition references (col : option string) (gone : list string) : bool :=
  match col with
  | Some v => mem v gone
  | None => false
  end.

Definition delete_categories (where_ : Category.t -> bool) : M unit :=
  statement (fun _ _ d =>
    let gone := map Category.id (filter where_ (categories d)) in
    if existsb (fun p => references (Product.categoryId p) gone) (products d)
    then inl (ForeignKeyViolation "products_category_id_categories_id_fk")
    else inr (with_categories d (filter (fun r => negb (where_ r)) (categories d)), tt)).

Definition delete_brands (where_ : Brand.t -> bool) : M unit :=
  statement (fun _ _ d =>
    let gone := map Brand.id (filter where_ (brands d)) in
    if existsb (fun p => references (Product.brandId p) gone) (products d)
    then inl (ForeignKeyViolation "products_brand_id_brands_id_fk")
    else inr (with_brands d (filter (fun r => negb (where_ r)) (brands d)), tt)).

Definition every {R} (_ : R) : bool := true.

Definition deleteAllCategories : M unit := delete_categories every.

Definition deleteAllBrands : M unit := delete_brands every.

Definition deleteAllProducts : M unit := delete_products every.

Definition clearAllData : M unit :=
  _ <- delete_orderItems every ;;
  _ <- delete_orders every ;;
  _ <- delete_cartItems every ;;
  _ <- delete_products every ;;
  _ <- delete_categories every ;;
  delete_brands every.


Definition removeFromCart (userId productId : string) : M unit :=
  delete_cartItems (same_cart userId productId).

Definition clearCart (userId : string) : M unit :=
  delete_cartItems (fun c => (CartItem.userId c =? userId)%string).

(** *** Single products *)



Definition getBrandByName (name : string) : M (option Brand.t) :=
  rows <- select_from brands (fun b => (Brand.name b =? name)%string) ;;
  ret (hd_error rows).

(** *** The cart with its products *)

Module CartItemWithProduct.
Record t := mk {
  cartItem : CartItem.t;
  product : ProductWithRelations.t
}.
End CartItemWithProduct.





(** *** Users *)

(** [typeof users.$inferInsert]; [Partial<User>] has the same shape. *)
Module UpsertUser.
Record t := mk {
  id : option string;
  username : field string;
  password : field string;
  email : field string;
  firstName : field string;
  lastName : field string;
  profileImageUrl : field string;
  stripeCustomerId : field string;
  stripeSubscriptionId : field string;
  isAdmin : field bool;
  adminRole : field string;
  createdAt : field timestamp;
  updatedAt : field timestamp
}.
End UpsertUser.

Module UserWithPermissions.
Record t := mk {
  user : User.t;
  adminPermissions : list AdminPermission.t
}.
End UserWithPermissions.

Definition user_of_values (now : timestamp) (uuid : nat -> string)
  (v : UpsertUser.t) : User.t :=
  User.mk (match UpsertUser.id v with
           | Some i => i
           | None => uuid 0%nat
           end)
    (insert_col None (UpsertUser.username v))
    (insert_col None (UpsertUser.password v))
    (insert_col None (UpsertUser.email v))
    (insert_col None (UpsertUser.firstName v))
    (insert_col None (UpsertUser.lastName v))
    (insert_col None (UpsertUser.profileImageUrl v))
    (insert_col None (UpsertUser.stripeCustomerId v))
    (insert_col None (UpsertUser.stripeSubscriptionId v))
    (insert_col (Some false) (UpsertUser.isAdmin v))
    (insert_col None (UpsertUser.adminRole v))
    (insert_col (Some now) (UpsertUser.createdAt v))
    (insert_col (Some now) (UpsertUser.updatedAt v)).

(** A [unique()] column that admits NULL: only stored values can clash. *)
Definition taken (col : User.t -> option string) (v : option string)
  (l : list User.t) : bool :=
  match v with
  | Some x => existsb (fun u => eq_nullable (col u) x) l
  | None => false
  end.

Definition insert_users (v : UpsertUser.t) : M (list User.t) :=
  statement (fun now uuid d =>
    let row := user_of_values now uuid v in
    if mem (User.id row) (map User.id (users d))
    then inl (UniqueViolation "users_pkey")
    else if taken User.username (User.username row) (users d)
    then inl (UniqueViolation "users_username_unique")
    else if taken User.email (User.email row) (users d)
    then inl (UniqueViolation "users_email_unique")
    else inr (with_users d (users d ++ [row]), [row])).

(** [{ ...userData, updatedAt }] handed to [onConflictDoUpdate]. *)
Definition apply_upsert_set (v : UpsertUser.t) (now : timestamp) (u : User.t)
  : User.t :=
  User.mk (set_req (UpsertUser.id v) (User.id u))
    (set_col (UpsertUser.username v) (User.username u))
    (set_col (UpsertUser.password v) (User.password u))
    (set_col (UpsertUser.email v) (User.email u))
    (set_col (UpsertUser.firstName v) (User.firstName u))
    (set_col (UpsertUser.lastName v) (User.lastName u))
    (set_col (UpsertUser.profileImageUrl v) (User.profileImageUrl u))
    (set_col (UpsertUser.stripeCustomerId v) (User.stripeCustomerId u))
    (set_col (UpsertUser.stripeSubscriptionId v) (User.stripeSubscriptionId u))
    (set_col (UpsertUser.isAdmin v) (User.isAdmin u))
    (set_col (UpsertUser.adminRole v) (User.adminRole u))
    (set_col (UpsertUser.createdAt v) (User.createdAt u))
    (Some now).

(** [INSERT ... ON CONFLICT (id) DO UPDATE SET ...]: a row of the same id
    is rewritten in place, otherwise the row is inserted; the other unique
    columns are checked against the other rows in both cases. *)
Definition upsert_users (v : UpsertUser.t) (set_now : timestamp) : M (list User.t) :=
  statement (fun now uuid d =>
    let row := user_of_values now uuid v in
    let same u := (User.id u =? User.id row)%string in
    if mem (User.id row) (map User.id (users d))
    then
      let others := filter (fun u => negb (same u)) (users d) in
      let rows := returning (apply_upsert_set v set_now) same (users d) in
      if existsb (fun u => taken User.username (User.username u) others) rows
      then inl (UniqueViolation "users_username_unique")
      else if existsb (fun u => taken User.email (User.email u) others) rows
      then inl (UniqueViolation "users_email_unique")
      else inr (with_users d (updated (apply_upsert_set v set_now) same (users d)),
                rows)
    else if taken User.username (User.username row) (users d)
    then inl (UniqueViolation "users_username_unique")
    else if taken User.email (User.email row) (users d)
    then inl (UniqueViolation "users_email_unique")
    else inr (with_users d (users d ++ [row]), [row])).

Definition getUser (id : string) : M (option User.t) :=
  rows <- select_from users (fun u => (User.id u =? id)%string) ;;
  ret (hd_error rows).

Definition upsertUser (userData : UpsertUser.t) : M (option User.t) :=
  now <- Date_now ;;
  rows <- upsert_users userData now ;;
  ret (hd_error rows).

Definition getUserById (id : string) : M (option User.t) :=
  rows <- select_from users (fun u => (User.id u =? id)%string) ;;
  ret (hd_error rows).

Definition getUserByUsername (username : string) : M (option User.t) :=
  rows <- select_from users (fun u => eq_nullable (User.username u) username) ;;
  ret (hd_error rows).

Definition getUserByEmail (email : string) : M (option User.t) :=
  rows <- select_from users (fun u => eq_nullable (User.email u) email) ;;
  ret (hd_error rows).

(** [x || undefined] on an optional text, [x || false] on an optional flag. *)
Definition or_undefined (x : option string) : option string :=
  match x with
  | Some s => if (s =? EmptyString)%string then None else Some s
  | None => None
  end.

Definition or_false (x : field bool) : bool :=
  match x with
  | Value b => b
  | _ => false
  end.

Definition createUser (userData : UpsertUser.t) : M (option User.t) :=
  now <- Date_now ;;
  rows <- insert_users
            (UpsertUser.mk (or_undefined (UpsertUser.id userData))
               (UpsertUser.username userData)
               (UpsertUser.password userData)
               (UpsertUser.email userData)
               (UpsertUser.firstName userData)
               (UpsertUser.lastName userData)
               (UpsertUser.profileImageUrl userData)
               Undefined Undefined
               (Value (or_false (UpsertUser.isAdmin userData)))
               (UpsertUser.adminRole userData)
               (Value now) (Value now)) ;;
  ret (hd_error rows).

(** [findFirst] on [users] with its [adminPermissions] relation: one
    statement. *)
Definition getUserWithPermissions (id : string) : M (option UserWithPermissions.t) :=
  rows <- select_rows (fun d =>
    map (fun u =>
           UserWithPermissions.mk u
             (filter (fun r => eq_nullable (AdminPermission.userId r) (User.id u))
                (adminPermissions d)))
      (filter (fun u => (User.id u =? id)%string) (users d))) ;;
  ret (hd_error rows).

(** ** [routes.ts]: the guards of the admin routes and the password routes *)

Module Routes.

(** A user row as the handlers send it, the [password] property removed. *)
Module UserWithoutPassword.
Record t := mk {
  id : string;
  username : option string;
  email : option string;
  firstName : option string;
  lastName : option string;
  profileImageUrl : option string;
  stripeCustomerId : option string;
  stripeSubscriptionId : option string;
  isAdmin : option bool;
  adminRole : option string;
  createdAt : option timestamp;
  updatedAt : option timestamp
}.
End UserWithoutPassword.

Definition without_password (u : User.t) : UserWithoutPassword.t :=
  UserWithoutPassword.mk (User.id u) (User.username u) (User.email u)
    (User.firstName u) (User.lastName u) (User.profileImageUrl u)
    (User.stripeCustomerId u) (User.stripeSubscriptionId u)
    (User.isAdmin u) (User.adminRole u) (User.createdAt u) (User.updatedAt u).

Inductive Body : Type :=
| ErrorJson (error : string)
| MessageJson (message : string)
| MessageUserJson (message : string) (user : UserWithoutPassword.t).

Record Reply := mkReply {
  status : nat;
  body : Body
}.

(** [req.user]: the claims of either kind of session, and the id that the
    password session copies from the user row. *)
Module ReqUser.
Record t := mk {
  claims_sub : option string;
  id : option string
}.
End ReqUser.

Module Req.
Record t := mk {
  user : option ReqUser.t;
  adminUser : option UserWithPermissions.t
}.
End Req.

(** A middleware either answers or calls [next()]. *)
Inductive Step : Type :=
| Next (req : Req.t)
| Respond (reply : Reply).

(** An id that is [undefined] reaches the engine as NULL, which no row
    equals. *)
Definition user_of (userId : option string) : M (option UserWithPermissions.t) :=
  match userId with
  | Some id => getUserWithPermissions id
  | None =>
      rows <- select_rows (fun _ => @nil UserWithPermissions.t) ;;
      ret (hd_error rows)
  end.

Definition isAdmin (req : Req.t) : M Step :=
  match Req.user req with
  | None => ret (Respond (mkReply 401 (ErrorJson "Not authenticated")))
  | Some u =>
      let userId :=
        match or_undefined (ReqUser.claims_sub u) with
        | Some sub => Some sub
        | None => ReqUser.id u
        end in
      user <- user_of userId ;;
      match user with
      | Some found =>
          if eq_nullable_bool (User.isAdmin (UserWithPermissions.user found)) true
          then ret (Next (Req.mk (Req.user req) (Some found)))
          else ret (Respond (mkReply 403 (ErrorJson "Admin access required")))
      | None => ret (Respond (mkReply 403 (ErrorJson "Admin access required")))
      end
  end.

Definition checkAdminPermission (permission : string) (req : Req.t) : M Step :=
  match Req.adminUser req with
  | None => ret (Respond (mkReply 403 (ErrorJson "Admin access required")))
  | Some adminUser =>
      hasPermission <- hasAdminPermission
                         (User.id (UserWithPermissions.user adminUser)) permission ;;
      if negb hasPermission
      then ret (Respond (mkReply 403
                  (ErrorJson ("Permission '" ++ permission ++ "' required")%string)))
      else ret (Next req)
  end.

(** [app.METHOD(path, m1, m2, ...)]: the next middleware runs when the one
    before called [next()]. *)
Definition and_then (m : M Step) (k : Req.t -> M Step) : M Step :=
  step <- m ;;
  match step with
  | Next req => k req
  | Respond reply => ret (Respond reply)
  end.

(** [try { ... } catch (error) { ... }] *)
Definition try_catch {A} (body : M A) (handler : Error -> M A) : M A :=
  fun env w =>
    match body env w with
    | (w', Err e) => handler e env w'
    | done => done
    end.

Module Credentials.
Record t := mk {
  username : option string;
  email : option string;
  password : option string
}.
End Credentials.

Section Passwords.
(** [bcrypt.hash] and [bcrypt.compare] of the [bcryptjs] package. *)
Variable bcrypt_hash : string -> Z -> string.
Variable bcrypt_compare : string -> string -> bool.

(** [POST /api/auth/login]; the second component is [req.session.userId]
    when the handler is done. *)
Definition login (body : Credentials.t) (session : option string)
  : M (Reply * option string) :=
  try_catch
    (match or_undefined (Credentials.username body),
           or_undefined (Credentials.password body) with
     | Some username, Some password =>
         found <- getUserByUsername username ;;
         match found with
         | Some user =>
             match or_undefined (User.password user) with
             | Some hash =>
                 if bcrypt_compare password hash
                 then ret (mkReply 200
                             (MessageUserJson "Login successful" (without_password user)),
                           Some (User.id user))
                 else ret (mkReply 401 (MessageJson "Invalid credentials"), session)
             | None => ret (mkReply 401 (MessageJson "Invalid credentials"), session)
             end
         | None => ret (mkReply 401 (MessageJson "Invalid credentials"), session)
         end
     | _, _ =>
         ret (mkReply 400 (MessageJson "Username and password are required"), session)
     end)
    (fun _ => ret (mkReply 500 (MessageJson "Internal server error"), session)).

(** [POST /api/auth/register] *)
Definition register (body : Credentials.t) (session : option string)
  : M (Reply * option string) :=
  try_catch
    (match or_undefined (Credentials.username body),
           or_undefined (Credentials.email body),
           or_undefined (Credentials.password body) with
     | Some username, Some email, Some password =>
         existingUser <- getUserByUsername username ;;
         match existingUser with
         | Some _ =>
             ret (mkReply 400 (MessageJson "Username already exists"), session)
         | None =>
             existingEmail <- getUserByEmail email ;;
             match existingEmail with
             | Some _ =>
                 ret (mkReply 400 (MessageJson "Email already exists"), session)
             | None =>
                 let hashedPassword := bcrypt_hash password 10 in
                 created <- createUser
                   (UpsertUser.mk None (Value username) (Value hashedPassword)
                      (Value email) Undefined Undefined Undefined Undefined
                      Undefined (Value false) Undefined Undefined Undefined) ;;
                 match created with
                 | Some newUser =>
                     ret (mkReply 200
                            (MessageUserJson "Registration successful"
                               (without_password newUser)),
                          Some (User.id newUser))
                 | None => throw (TypeError "newUser is undefined")
                 end
             end
         end
     | _, _, _ => ret (mkReply 400 (MessageJson "All fields are required"), session)
     end)
    (fun _ => ret (mkReply 500 (MessageJson "Internal server error"), session)).

End Passwords.

End Routes.

(** The rule the cart code maintains by checking before it inserts: at most
    one row for a user and a product. *)
Definition cart_unique (d : Db) : Prop :=
  forall u p, (count_where (same_cart u p) (cartItems d) <= 1)%nat.

(** A user row with another [updatedAt]. *)
Definition touch (t : timestamp) (u : User.t) : User.t :=
  User.mk (User.id u) (User.username u) (User.password u) (User.email u)
    (User.firstName u) (User.lastName u) (User.profileImageUrl u)
    (User.stripeCustomerId u) (User.stripeSubscriptionId u) (User.isAdmin u)
    (User.adminRole u) (User.createdAt u) (Some t).


(** ** Prescriptions *)

Module Prescription.
Record t := mk {
  id : string;
  userId : option string;
  patientName : string;
  doctorName : string;
  doctorContact : string;
  prescriptionDate : timestamp;
  medications : option string;
  imageUrls : option (list string);
  status : option string;
  reviewNotes : option string;
  reviewedBy : option string;
  reviewedAt : option timestamp;
  createdAt : option timestamp;
  updatedAt : option timestamp
}.
End Prescription.

Module InsertPrescription.
Record t := mk {
  userId : field string;
  patientName : string;
  doctorName : string;
  doctorContact : string;
  prescriptionDate : timestamp;
  medications : field string;
  imageUrls : field (list string);
  status : field string;
  reviewNotes : field string;
  reviewedBy : field string;
  reviewedAt : field timestamp
}.
End InsertPrescription.

(** What a relational query with [user: true, reviewer: true] yields: each
    relation is a row or null. *)
Module PrescriptionWithUser.
Record t := mk {
  prescription : Prescription.t;
  user : option User.t;
  reviewer : option User.t
}.
End PrescriptionWithUser.

Module PrescriptionSet.
Record t := mk {
  status : field string;
  reviewNotes : field string;
  reviewedBy : field string;
  reviewedAt : field timestamp;
  updatedAt : field timestamp
}.
End PrescriptionSet.

(** The ninth table, [prescriptions], is kept beside the eight of [Db]; the
    functions on it read [users] and write no other table. *)
Record Store := mkStore {
  world : World;
  prescriptions : list Prescription.t
}.

Definition PM (A : Type) : Type := Env -> Store -> Store * Result A.

Definition pret {A} (a : A) : PM A := fun _ s => (s, Ok a).

Definition pbind {A B} (m : PM A) (k : A -> PM B) : PM B :=
  fun env s =>
    match m env s with
    | (s', Ok a) => k a env s'
    | (s', Err e) => (s', Err e)
    end.

(** One statement on [prescriptions]: it either fails and changes nothing,
    or commits. *)
Definition pstatement {A}
  (run : timestamp -> (nat -> string) -> Db -> list Prescription.t
         -> Error + list Prescription.t * A) : PM A :=
  fun env s =>
    let w := world s in
    match run (time_at env (tick w)) (uuid_at env (tick w)) (db w) (prescriptions s) with
    | inl e => (mkStore (mkWorld (db w) (S (tick w))) (prescriptions s), Err e)
    | inr (l, a) => (mkStore (mkWorld (db w) (S (tick w))) l, Ok a)
    end.


Definition insert_prescriptions (v : InsertPrescription.t) : PM (list Prescription.t) :=
  pstatement (fun now uuid d l =>
    let row := Prescription.mk (uuid 0%nat)
                 (insert_col None (InsertPrescription.userId v))
                 (InsertPrescription.patientName v)
                 (InsertPrescription.doctorName v)
                 (InsertPrescription.doctorContact v)
                 (InsertPrescription.prescriptionDate v)
                 (insert_col None (InsertPrescription.medications v))
                 (insert_col None (InsertPrescription.imageUrls v))
                 (insert_col (Some "pending") (InsertPrescription.status v))
                 (insert_col None (InsertPrescription.reviewNotes v))
                 (insert_col None (InsertPrescription.reviewedBy v))
                 (insert_col None (InsertPrescription.reviewedAt v))
                 (Some now) (Some now) in
    if mem (Prescription.id row) (map Prescription.id l)
    then inl (UniqueViolation "prescriptions_pkey")
    else if negb (mem_opt (Prescription.userId row) (map User.id (users d)))
    then inl (ForeignKeyViolation "prescriptions_user_id_users_id_fk")
    else if negb (mem_opt (Prescription.reviewedBy row) (map User.id (users d)))
    then inl (ForeignKeyViolation "prescriptions_reviewed_by_users_id_fk")
    else inr (l ++ [row], [row])).



(** A [one] relation to [users]: the row the column names, or null. *)
Definition one_user (d : Db) (col : option string) : option User.t :=
  match col with
  | None => None
  | Some v => find (fun u => (User.id u =? v)%string) (users d)
  end.

Definition with_user_and_reviewer (d : Db) (p : Prescription.t)
  : PrescriptionWithUser.t :=
  PrescriptionWithUser.mk p (one_user d (Prescription.userId p))
    (one_user d (Prescription.reviewedBy p)).

(** [db.query.prescriptions.findMany] with both relations, newest first. *)
Definition findMany_prescriptions (where_ : Prescription.t -> bool)
  : PM (list PrescriptionWithUser.t) :=
  pstatement (fun _ _ d l =>
    inr (l, map (with_user_and_reviewer d)
              (orderBy_desc Prescription.createdAt (filter where_ l)))).

Definition findFirst_prescriptions (where_ : Prescription.t -> bool)
  : PM (option PrescriptionWithUser.t) :=
  pstatement (fun _ _ d l =>
    inr (l, hd_error (map (with_user_and_reviewer d) (filter where_ l)))).

(** [r => r.user] *)
Definition has_user (r : PrescriptionWithUser.t) : bool :=
  match PrescriptionWithUser.user r with
  | Some _ => true
  | None => false
  end.

Definition createPrescription (prescription : InsertPrescription.t)
  : PM (option Prescription.t) :=
  pbind (insert_prescriptions prescription) (fun rows =>
  pret (hd_error rows)).

Definition getPrescriptions (userId : option string)
  : PM (list PrescriptionWithUser.t) :=
  match userId with
  | Some u =>
      if truthy userId
      then
        pbind (findMany_prescriptions
                 (fun p => eq_nullable (Prescription.userId p) u)) (fun results =>
        pret (filter has_user results))
      else
        pbind (findMany_prescriptions every) (fun results =>
        pret (filter has_user results))
  | None =>
      pbind (findMany_prescriptions every) (fun results =>
      pret (filter has_user results))
  end.

Definition getPrescription (id : string) : PM (option PrescriptionWithUser.t) :=
  pbind (findFirst_prescriptions
           (fun p => (Prescription.id p =? id)%string)) (fun result =>
  match result with
  | None => pret None
  | Some r => if has_user r then pret (Some r) else pret None
  end).


(** The store after one statement that wrote no row. *)
Definition ticked (s : Store) : Store :=
  mkStore (mkWorld (db (world s)) (S (tick (world s)))) (prescriptions s).

(** ** More rows for the examples *)



Definition edit_products_row : AdminPermission.t :=
  AdminPermission.mk "ap-1" (Some "alice") "edit_products" (Some 80).

Definition view_prescriptions_row : AdminPermission.t :=
  AdminPermission.mk "ap-2" (Some "alice") "view_prescriptions" (Some 81).

Definition admin_world : World :=
  mkWorld (with_adminPermissions sample_db
             [edit_products_row; view_prescriptions_row]) 0.

Definition bob : UpsertUser.t :=
  UpsertUser.mk None (Value "bob") (Value "$2b$10$secret") (Value "b@x.com")
    Undefined Undefined Undefined Undefined Undefined Undefined Undefined
    Undefined Undefined.

Definition alice_again : UpsertUser.t :=
  UpsertUser.mk None (Value "alice") Undefined (Value "other@x.com")
    Undefined Undefined Undefined Undefined Undefined Undefined Undefined
    Undefined Undefined.

Definition carol : UpsertUser.t :=
  UpsertUser.mk (Some "carol") Undefined Undefined (Value "c@x.com")
    (Value "Carol") Undefined Undefined Undefined Undefined Undefined Undefined
    Undefined Undefined.

(** Stand-ins for [bcrypt.hash] and [bcrypt.compare] in the examples. *)
Definition sample_hash (password : string) (rounds : Z) : string :=
  ("$2b$" ++ Number_toString rounds ++ "$" ++ password)%string.

Definition sample_compare (password hash : string) : bool :=
  (hash =? sample_hash password 10)%string.

Definition bob_fields : Routes.Credentials.t :=
  Routes.Credentials.mk (Some "bob") (Some "b@x.com") (Some "secret").


Definition alice_request : Routes.Req.t :=
  Routes.Req.mk (Some (Routes.ReqUser.mk None (Some "alice"))) None.

Definition alice_prescription : InsertPrescription.t :=
  InsertPrescription.mk (Value "alice") "Alice A." "Dr. Mensah" "0200000000"
    1690000000000 (Value "Amoxicillin 500mg") Undefined Undefined Undefined
    Undefined Undefined.

Definition walk_in_prescription : InsertPrescription.t :=
  InsertPrescription.mk Undefined "Kofi B." "Dr. Owusu" "0240000000"
    1690000000001 Undefined Undefined Undefined Undefined Undefined Undefined.

Definition stored_prescription : Prescription.t :=
  Prescription.mk "rx-1" (Some "alice") "Alice A." "Dr. Mensah" "0200000000"
    1690000000000 None None (Some "pending") (Some "call the doctor") None None
    (Some 90) (Some 90).

Definition sample_store : Store := mkStore sample_world [stored_prescription].

(** * Properties *)

(** ** Lists, keys and statements *)

Lemma mem_In x l : mem x l = true <-> In x l.
Proof.
  unfold mem. rewrite existsb_exists. split.
  - intros [y [Hy Heq]]. apply String.eqb_eq in Heq. now subst.
  - intros H. exists x. split; [assumption | apply String.eqb_refl].
Qed.

Lemma mem_false x l : mem x l = false <-> ~ In x l.
Proof.
  rewrite <- mem_In. destruct (mem x l); split; intro H; congruence.
Qed.

Lemma existsb_false_forall {A} (p : A -> bool) l :
  existsb p l = false <-> (forall x, In x l -> p x = false).
Proof.
  induction l as [|a l IH]; simpl.
  - split; [intros _ x [] | reflexivity].
  - rewrite orb_false_iff, IH. split.
    + intros [Ha Hl] x [<-|Hx]; auto.
    + intros H. split; [apply H; now left | intros x Hx; apply H; now right].
Qed.

Lemma filter_none {A} (p : A -> bool) l :
  existsb p l = false -> filter p l = [].
Proof.
  induction l as [|a l IH]; simpl; [reflexivity|].
  intros H. apply orb_false_iff in H as [Ha Hl]. rewrite Ha. auto.
Qed.

Lemma filter_nil_existsb {A} (p : A -> bool) l :
  filter p l = [] -> existsb p l = false.
Proof.
  induction l as [|a l IH]; simpl; [reflexivity|].
  destruct (p a); [discriminate | auto].
Qed.

Lemma updated_none {A} (f : A -> A) (p : A -> bool) l :
  existsb p l = false -> updated f p l = l.
Proof.
  unfold updated. induction l as [|a l IH]; simpl; [reflexivity|].
  intros H. apply orb_false_iff in H as [Ha Hl]. rewrite Ha. f_equal. auto.
Qed.


Lemma updated_app {A} (f : A -> A) (p : A -> bool) l1 l2 :
  updated f p (l1 ++ l2) = updated f p l1 ++ updated f p l2.
Proof. unfold updated. apply map_app. Qed.

Lemma updated_length {A} (f : A -> A) (p : A -> bool) l :
  List.length (updated f p l) = List.length l.
Proof. unfold updated. apply length_map. Qed.

Lemma filter_updated {A} (f : A -> A) (p q : A -> bool) l :
  (forall x, q (f x) = q x) ->
  filter q (updated f p l) = updated f p (filter q l).
Proof.
  intros Hq. unfold updated. induction l as [|a l IH]; simpl; [reflexivity|].
  destruct (p a) eqn:Hp.
  - rewrite Hq. destruct (q a); simpl; rewrite ?Hp, IH; reflexivity.
  - destruct (q a); simpl; rewrite ?Hp, IH; reflexivity.
Qed.

(** The identifiers of the rows with a given key are those of the rows that
    a fresh identifier does not meet. *)
Lemma fresh_id_no_row {R} (ident : R -> string) x (l : list R) :
  mem x (map ident l) = false ->
  existsb (fun c => (ident c =? x)%string) l = false.
Proof.
  intros H. apply existsb_false_forall. intros c Hc.
  apply String.eqb_neq. intros Heq. apply mem_false in H. apply H.
  rewrite <- Heq. now apply in_map.
Qed.

(** ** C1: adding to the cart *)



(** ** C4: replacing a cart quantity *)

Lemma updateCartItem_run env w u p q :
  updateCartItem u p q env w =
  (mkWorld
     (with_cartItems (db w)
        (updated
           (apply_CartItemSet (CartItemSet.mk (Some q) (Value (time_at env (tick w)))))
           (same_cart u p) (cartItems (db w))))
     (S (tick w)),
   Ok (hd_error
         (returning
            (apply_CartItemSet (CartItemSet.mk (Some q) (Value (time_at env (tick w)))))
            (same_cart u p) (cartItems (db w))))).
Proof. reflexivity. Qed.

Lemma same_cart_apply s u p c :
  same_cart u p (apply_CartItemSet s c) = same_cart u p c.
Proof. reflexivity. Qed.

Lemma existsb_updated {A} (f : A -> A) (p q : A -> bool) l :
  (forall x, q (f x) = q x) ->
  existsb q (updated f p l) = existsb q l.
Proof.
  intros Hq. unfold updated. induction l as [|a l IH]; simpl; [reflexivity|].
  rewrite IH. destruct (p a); now rewrite ?Hq.
Qed.

(** A call of [addToCart] that returns leaves a row for its pair. *)
Lemma addToCart_leaves_row env w u p q w1 r :
  addToCart u p q env w = (w1, Ok r) ->
  existsb (same_cart u p) (cartItems (db w1)) = true.
Proof.
  unfold addToCart, bind, select_from, update_cartItems, insert_cartItems,
    statement, ret, Date_now. simpl.
  destruct (filter (same_cart u p) (cartItems (db w))) as [|x l] eqn:Hf.
  - simpl.
    destruct (mem _ (map CartItem.id _)); simpl; [discriminate|].
    destruct (mem u _); simpl; [|discriminate].
    destruct (mem p _); simpl; [|discriminate].
    intros H. injection H as <- _. simpl.
    rewrite existsb_app. simpl. unfold same_cart at 2. simpl.
    rewrite !String.eqb_refl. simpl. apply orb_true_r.
  - intros H. injection H as <- _. simpl.
    rewrite existsb_updated by apply same_cart_apply.
    destruct (existsb (same_cart u p) (cartItems (db w))) eqn:He; [reflexivity|].
    apply filter_none in He. congruence.
Qed.

Lemma In_updated {A} (f : A -> A) (p : A -> bool) l y :
  In y (updated f p l) ->
  exists x, In x l /\ y = (if p x then f x else x).
Proof.
  unfold updated. intros H. apply in_map_iff in H as [x [Hx Hin]].
  exists x. now split.
Qed.

(** C4.  After an [addToCart(u, p, q0)] that returned, [updateCartItem(u, p, q)]
    returns a row of quantity q; a row for (u, p) exists afterwards, every
    row for (u, p) has quantity exactly q (q0 is not added to it), no row is
    inserted or removed, and the rows of other pairs are the ones that were
    there.  With q0 = 3 and q = 7 the quantity is 7. *)
Theorem updateCartItem_replaces (env : Env) (w : World) (u p : string) (q0 q : Z)
  (w1 : World) (r1 : option CartItem.t) :
  addToCart u p q0 env w = (w1, Ok r1) ->
  exists w2 r2,
    updateCartItem u p q env w1 = (w2, Ok (Some r2)) /\
    CartItem.quantity r2 = q /\
    existsb (same_cart u p) (cartItems (db w2)) = true /\
    (forall c, In c (cartItems (db w2)) -> same_cart u p c = true ->
               CartItem.quantity c = q) /\
    List.length (cartItems (db w2)) = List.length (cartItems (db w1)) /\
    filter (fun c => negb (same_cart u p c)) (cartItems (db w2)) =
    filter (fun c => negb (same_cart u p c)) (cartItems (db w1)).
Proof.
  intros Hadd. apply addToCart_leaves_row in Hadd.
  rewrite updateCartItem_run.
  set (f := apply_CartItemSet _).
  destruct (returning f (same_cart u p) (cartItems (db w1))) as [|r2 l] eqn:Hr.
  - unfold returning in Hr. apply map_eq_nil in Hr.
    apply filter_nil_existsb in Hr. congruence.
  - exists (mkWorld (with_cartItems (db w1)
                       (updated f (same_cart u p) (cartItems (db w1))))
                    (S (tick w1))), r2.
    split; [reflexivity|]. simpl. repeat split.
    + assert (Hin : In r2 (returning f (same_cart u p) (cartItems (db w1))))
        by (rewrite Hr; now left).
      unfold returning in Hin. apply in_map_iff in Hin as [x [<- _]].
      reflexivity.
    + now rewrite existsb_updated by (intros x; reflexivity).
    + intros c Hc Hs. apply In_updated in Hc as [x [Hx ->]].
      destruct (same_cart u p x) eqn:Hsx; [reflexivity|].
      congruence.
    + apply updated_length.
    + rewrite filter_updated by (intros x; reflexivity).
      unfold updated. rewrite <- (map_id (filter _ (cartItems (db w1)))) at 2.
      apply map_ext_in. intros a Ha. apply filter_In in Ha as [_ Ha].
      now destruct (same_cart u p a).
Qed.

Lemma updateCartItem_replaces_witness :
  exists w2 r2,
    updateCartItem "alice" "p-1" 7 sample_env
      (fst (addToCart "alice" "p-1" 3 sample_env sample_world))
    = (w2, Ok (Some r2)) /\
    CartItem.quantity r2 = 7.
Proof.
  destruct (updateCartItem_replaces sample_env sample_world "alice" "p-1" 3 7
              (fst (addToCart "alice" "p-1" 3 sample_env sample_world))
              (hd_error (cartItems (db (fst (addToCart "alice" "p-1" 3 sample_env sample_world)))))
              eq_refl)
    as [w2 [r2 [H1 [H2 _]]]].
  exists w2, r2. split; assumption.
Defined.

(** ** C6: admin permissions *)

Lemma hd_error_filter {A} (p : A -> bool) l :
  match hd_error (filter p l) with
  | Some _ => true
  | None => false
  end = existsb p l.
Proof.
  induction l as [|a l IH]; simpl; [reflexivity|].
  destruct (p a); simpl; [reflexivity | exact IH].
Qed.

Lemma hasAdminPermission_run env w u s :
  hasAdminPermission u s env w =
  (mkWorld (db w) (S (tick w)),
   Ok (existsb (same_permission u s) (adminPermissions (db w)))).
Proof.
  unfold hasAdminPermission, bind, select_from, statement, ret. simpl.
  now rewrite hd_error_filter.
Qed.

Lemma same_permission_spec u s r :
  same_permission u s r = true <->
  AdminPermission.userId r = Some u /\ AdminPermission.permission r = s.
Proof.
  unfold same_permission, eq_nullable. rewrite andb_true_iff, String.eqb_eq.
  destruct (AdminPermission.userId r) as [v|].
  - rewrite String.eqb_eq. split; intros [H1 H2]; split; congruence.
  - split; intros [H1 H2]; discriminate.
Qed.

Lemma existsb_filter_negb {A} (p : A -> bool) l :
  existsb p (filter (fun r => negb (p r)) l) = false.
Proof.
  apply existsb_false_forall. intros x Hx. apply filter_In in Hx as [_ Hx].
  now destruct (p x).
Qed.

(** C6.  [hasAdminPermission(u, s)] changes no table and answers true exactly
    when a row of [admin_permissions] has user u and permission s.  It
    answers true right after an [addAdminPermission(u, s)] that returned,
    which is the case whenever u is a user and the drawn uuid is fresh;
    [removeAdminPermission(u, s)] always returns and the answer right after it
    is false. *)
Theorem hasAdminPermission_add_remove (env : Env) (w : World) (u s : string) :
  (exists b,
      hasAdminPermission u s env w = (mkWorld (db w) (S (tick w)), Ok b) /\
      (b = true <->
       exists r, In r (adminPermissions (db w)) /\
                 AdminPermission.userId r = Some u /\
                 AdminPermission.permission r = s)) /\
  (forall w1 r, addAdminPermission u s env w = (w1, Ok r) ->
                snd (hasAdminPermission u s env w1) = Ok true) /\
  (mem u (map User.id (users (db w))) = true ->
   mem (uuid_at env (tick w) 0%nat)
       (map AdminPermission.id (adminPermissions (db w))) = false ->
   exists w1 r, addAdminPermission u s env w = (w1, Ok (Some r)) /\
                AdminPermission.userId r = Some u /\
                AdminPermission.permission r = s) /\
  (exists w2, removeAdminPermission u s env w = (w2, Ok tt) /\
              snd (hasAdminPermission u s env w2) = Ok false).
Proof.
  repeat split.
  - eexists. split; [apply hasAdminPermission_run|].
    rewrite existsb_exists. split.
    + intros [r [Hr Hs]]. exists r. split; [assumption|].
      now apply same_permission_spec.
    + intros [r [Hr Hs]]. exists r. split; [assumption|].
      now apply same_permission_spec.
  - intros w1 r. rewrite hasAdminPermission_run. simpl.
    unfold addAdminPermission, bind, insert_adminPermissions, statement, ret.
    simpl.
    destruct (mem _ (map AdminPermission.id _)); simpl; [discriminate|].
    destruct (mem u _); simpl; [|discriminate].
    intros H. injection H as <- _. simpl. f_equal.
    rewrite existsb_app. simpl. unfold same_permission at 2. simpl.
    rewrite !String.eqb_refl. simpl. apply orb_true_r.
  - intros Hu Hfresh.
    unfold addAdminPermission, bind, insert_adminPermissions, statement, ret.
    simpl. rewrite Hfresh, Hu. simpl.
    eexists _, _. repeat split.
  - eexists. split; [reflexivity|].
    rewrite hasAdminPermission_run. simpl.
    now rewrite existsb_filter_negb.
Qed.

Lemma hasAdminPermission_add_remove_witness :
  exists w1 r,
    addAdminPermission "alice" "edit_products" sample_env sample_world
    = (w1, Ok (Some r)) /\
    snd (hasAdminPermission "alice" "edit_products" sample_env sample_world)
    = Ok false /\
    snd (hasAdminPermission "alice" "edit_products" sample_env w1) = Ok true.
Proof.
  destruct (hasAdminPermission_add_remove sample_env sample_world
              "alice" "edit_products") as [_ [Hafter [Hadd _]]].
  destruct (Hadd eq_refl eq_refl) as [w1 [r [H _]]].
  exists w1, r. split; [exact H|]. split; [reflexivity|].
  exact (Hafter w1 (Some r) H).
Defined.

(** ** C8: [setUserAdmin] *)

(** C8 as stated fails: alice's stored role is still there after
    [setUserAdmin("alice", false)] called without a role. *)
Lemma setUserAdmin_without_role_counterexample :
  exists w' u',
    setUserAdmin "alice" false None sample_env sample_world = (w', Ok (Some u')) /\
    users (db w') = [u'] /\
    User.adminRole alice = Some "product_manager" /\
    User.adminRole u' = Some "product_manager" /\
    User.adminRole u' <> None /\
    User.isAdmin u' = Some false.
Proof.
  eexists _, _. repeat split. discriminate.
Qed.

Lemma Forall2_updated {A} (f : A -> A) (p : A -> bool) (R : A -> A -> Prop) l :
  (forall x, In x l -> R x (if p x then f x else x)) ->
  Forall2 R l (updated f p l).
Proof.
  unfold updated. induction l as [|a l IH]; intros H; simpl; constructor.
  - apply H. now left.
  - apply IH. intros x Hx. apply H. now right.
Qed.

Lemma filter_updated_returning {A} (f : A -> A) (p : A -> bool) l :
  (forall x, p (f x) = p x) ->
  filter p (updated f p l) = returning f p l.
Proof.
  intros Hp. unfold updated, returning.
  induction l as [|a l IH]; simpl; [reflexivity|].
  destruct (p a) eqn:Ha; simpl.
  - now rewrite Hp, Ha, IH.
  - now rewrite Ha, IH.
Qed.

(** C8, amended.  [setUserAdmin(id, isAdmin, role?)] always returns; it
    touches no table but [users], whose rows stay in place, and in it only
    the rows whose id is [id]: their admin flag becomes [isAdmin], their
    [updatedAt] the time of the call, and their [adminRole] becomes [role]
    when a role is given and keeps its stored value when the role is
    omitted; all their other columns are kept.  The result is the first row
    of that id after the update, or absent when there is none. *)
Theorem setUserAdmin_without_role_keeps_role (env : Env) (w : World) (id : string)
  (isAdmin : bool) (role : option string) :
  exists w' r,
    setUserAdmin id isAdmin role env w = (w', Ok r) /\
    db w' = with_users (db w) (users (db w')) /\
    Forall2 (fun u u' =>
               if (User.id u =? id)%string
               then User.isAdmin u' = Some isAdmin /\
                    User.updatedAt u' = Some (time_at env (tick w)) /\
                    User.adminRole u' = match role with
                                        | Some r => Some r
                                        | None => User.adminRole u
                                        end /\
                    User.id u' = User.id u /\
                    User.username u' = User.username u /\
                    User.password u' = User.password u /\
                    User.email u' = User.email u /\
                    User.firstName u' = User.firstName u /\
                    User.lastName u' = User.lastName u /\
                    User.profileImageUrl u' = User.profileImageUrl u /\
                    User.stripeCustomerId u' = User.stripeCustomerId u /\
                    User.stripeSubscriptionId u' = User.stripeSubscriptionId u /\
                    User.createdAt u' = User.createdAt u
               else u' = u)
      (users (db w)) (users (db w')) /\
    r = hd_error (filter (fun u => (User.id u =? id)%string) (users (db w'))).
Proof.
  unfold setUserAdmin, bind, Date_now, update_users, statement, ret.
  eexists _, _. split; [reflexivity|]. simpl. split; [reflexivity|]. split.
  - apply Forall2_updated. intros u _.
    destruct (User.id u =? id)%string; [|reflexivity].
    destruct role; simpl; repeat split.
  - now rewrite filter_updated_returning.
Qed.

(** ** C9: [updateOrderStatus] *)

(** C9.  [updateOrderStatus(id, status, paymentStatus?)] always returns; it
    touches no table but [orders], whose rows stay in place, and in it only
    the rows whose id is [id]: their [status] becomes the given status and
    their [updatedAt] the time of the call; their [paymentStatus] keeps its
    stored value when the argument is absent (or the empty text) and becomes
    the argument otherwise; all their other columns are kept.  The result is
    the first row of that id after the update, or absent when there is
    none. *)
Theorem updateOrderStatus_frame (env : Env) (w : World) (id status : string)
  (paymentStatus : option string) :
  exists w' r,
    updateOrderStatus id status paymentStatus env w = (w', Ok r) /\
    db w' = with_orders (db w) (orders (db w')) /\
    Forall2 (fun o o' =>
               if (Order.id o =? id)%string
               then Order.status o' = status /\
                    Order.updatedAt o' = Some (time_at env (tick w)) /\
                    Order.paymentStatus o' =
                    match paymentStatus with
                    | None => Order.paymentStatus o
                    | Some s => if (s =? EmptyString)%string
                                then Order.paymentStatus o
                                else Some s
                    end /\
                    Order.id o' = Order.id o /\
                    Order.userId o' = Order.userId o /\
                    Order.orderNumber o' = Order.orderNumber o /\
                    Order.totalAmount o' = Order.totalAmount o /\
                    Order.shippingAddress o' = Order.shippingAddress o /\
                    Order.billingAddress o' = Order.billingAddress o /\
                    Order.stripePaymentIntentId o' = Order.stripePaymentIntentId o /\
                    Order.createdAt o' = Order.createdAt o
               else o' = o)
      (orders (db w)) (orders (db w')) /\
    r = hd_error (filter (fun o => (Order.id o =? id)%string) (orders (db w'))).
Proof.
  unfold updateOrderStatus, bind, Date_now, update_orders, statement, ret.
  eexists _, _. split; [reflexivity|]. simpl. split; [reflexivity|]. split.
  - apply Forall2_updated. intros o _.
    destruct (Order.id o =? id)%string; [|reflexivity].
    destruct paymentStatus as [s|]; simpl; [|repeat split].
    destruct (s =? EmptyString)%string; simpl; repeat split.
  - now rewrite filter_updated_returning.
Qed.

(** ** C10: updating a row that does not exist *)

Lemma with_cartItems_same d : with_cartItems d (cartItems d) = d.
Proof. now destruct d. Qed.






(** ** C3: the product listing *)

Section OrderBy.
Context {A : Type} (key : A -> option timestamp).

Lemma desc_total a b : desc a b = false -> desc b a = true.
Proof.
  destruct a as [x|], b as [y|]; simpl; try reflexivity; try discriminate.
  intros H. apply Z.leb_gt in H. apply Z.leb_le. lia.
Qed.

Lemma desc_trans a b c : desc a b = true -> desc b c = true -> desc a c = true.
Proof.
  destruct a as [x|], b as [y|], c as [z|]; simpl; try reflexivity;
    try discriminate.
  rewrite !Z.leb_le. lia.
Qed.

Lemma place_perm x l : Permutation (place key x l) (x :: l).
Proof.
  induction l as [|y l IH]; simpl; [reflexivity|].
  destruct (desc (key x) (key y)); [reflexivity|].
  rewrite IH. apply perm_swap.
Qed.

Lemma orderBy_desc_perm l : Permutation (orderBy_desc key l) l.
Proof.
  induction l as [|x l IH]; simpl; [reflexivity|].
  rewrite place_perm. now constructor.
Qed.

Lemma place_sorted x l :
  StronglySorted (newer_first key) l -> StronglySorted (newer_first key) (place key x l).
Proof.
  induction 1 as [|y l Hs IH Hy]; simpl.
  - repeat constructor.
  - destruct (desc (key x) (key y)) eqn:Hxy.
    + constructor; [now constructor|].
      constructor; [exact Hxy|].
      eapply Forall_impl; [|exact Hy].
      intros z Hz. unfold newer_first in *. eapply desc_trans; eassumption.
    + constructor; [exact IH|].
      eapply Permutation_Forall; [symmetry; apply place_perm|].
      constructor; [|exact Hy].
      now apply desc_total.
Qed.

Lemma orderBy_desc_sorted l : StronglySorted (newer_first key) (orderBy_desc key l).
Proof.
  induction l as [|x l IH]; simpl; [constructor | now apply place_sorted].
Qed.

End OrderBy.

Lemma In_left_join {A B} (on : A -> B -> bool) l r a ob :
  In (a, ob) (left_join on l r) ->
  In a l /\
  match ob with
  | Some b => In b r /\ on a b = true
  | None => forall b, In b r -> on a b = false
  end.
Proof.
  unfold left_join. rewrite in_flat_map. intros [a' [Ha' Hin]].
  destruct (filter (on a') r) as [|m ms] eqn:Hf.
  - destruct Hin as [Heq|[]]. injection Heq as <- <-.
    split; [assumption|].
    apply existsb_false_forall. now apply filter_nil_existsb.
  - rewrite <- Hf in Hin. apply in_map_iff in Hin as [b [Heq Hb]].
    injection Heq as <- <-. apply filter_In in Hb. now split.
Qed.

Lemma filter_key_unique {B} (key : B -> string) (c : option string) r :
  NoDup (map key r) ->
  (List.length (filter (fun b => eq_nullable c (key b)) r) <= 1)%nat.
Proof.
  destruct c as [c|]; simpl.
  2:{ intros _. induction r; simpl; auto. }
  induction r as [|b r IH]; simpl; intros Hnd; [lia|].
  inversion Hnd as [|? ? Hnotin Hnd']; subst.
  destruct (c =? key b)%string eqn:Heq; [|auto].
  apply String.eqb_eq in Heq. subst c. simpl.
  rewrite filter_none; [simpl; lia|].
  apply existsb_false_forall. intros x Hx. apply String.eqb_neq.
  intros Heq. apply Hnotin. rewrite Heq. now apply in_map.
Qed.

Lemma left_join_fst {A B} (on : A -> B -> bool) l r :
  (forall a, (List.length (filter (on a) r) <= 1)%nat) ->
  map fst (left_join on l r) = l.
Proof.
  intros Hone. unfold left_join. induction l as [|a l IH]; [reflexivity|].
  cbn [flat_map]. rewrite map_app, IH. specialize (Hone a).
  destruct (filter (on a) r) as [|m [|m' ms]]; simpl in *; try reflexivity.
  lia.
Qed.

Lemma filter_map_comm {A B} (g : A -> B) (p : B -> bool) l :
  filter p (map g l) = map g (filter (fun x => p (g x)) l).
Proof.
  induction l as [|a l IH]; simpl; [reflexivity|].
  destruct (p (g a)); simpl; now rewrite IH.
Qed.

Lemma getProducts_run env w filters :
  getProducts filters env w =
  (mkWorld (db w) (S (tick w)),
   Ok (map with_relations
         (orderBy_desc (fun row => Product.createdAt (fst (fst row)))
            (filter (fun row => active (fst (fst row))) (products_join (db w)))))).
Proof. reflexivity. Qed.

Lemma products_join_products d :
  NoDup (map Category.id (categories d)) ->
  NoDup (map Brand.id (brands d)) ->
  map (fun row => fst (fst row)) (products_join d) = products d.
Proof.
  intros Hc Hb. unfold products_join.
  rewrite <- (map_map fst fst).
  rewrite left_join_fst by (intros a; now apply filter_key_unique).
  apply left_join_fst. intros a. now apply filter_key_unique.
Qed.

Lemma active_spec p : active p = true <-> Product.isActive p = Some true.
Proof.
  unfold active, eq_nullable_bool.
  destruct (Product.isActive p) as [[|]|]; simpl; split; congruence.
Qed.

Lemma eq_nullable_spec col v : eq_nullable col v = true <-> col = Some v.
Proof.
  unfold eq_nullable. destruct col as [c|]; [|split; discriminate].
  rewrite String.eqb_eq. split; congruence.
Qed.

Lemma eq_nullable_false col v : eq_nullable col v = false <-> col <> Some v.
Proof.
  rewrite <- eq_nullable_spec. destruct (eq_nullable col v); split; congruence.
Qed.

Lemma left_join_covers {A B} (on : A -> B -> bool) l r a :
  In a l -> exists ob, In (a, ob) (left_join on l r).
Proof.
  intros Ha. unfold left_join.
  destruct (filter (on a) r) as [|m ms] eqn:Hf.
  - exists None. apply in_flat_map. exists a. split; [assumption|].
    rewrite Hf. now left.
  - exists (Some m). apply in_flat_map. exists a. split; [assumption|].
    rewrite Hf. now left.
Qed.

Lemma products_join_covers d p :
  In p (products d) -> exists oc ob, In (p, oc, ob) (products_join d).
Proof.
  intros Hp. unfold products_join.
  destruct (left_join_covers
              (fun p c => eq_nullable (Product.categoryId p) (Category.id c))
              (products d) (categories d) p Hp) as [oc Hoc].
  exists oc. eapply left_join_covers in Hoc. exact Hoc.
Qed.

(** What a row of the listing carries next to its product. *)
Lemma products_join_enriched d p oc ob :
  In (p, oc, ob) (products_join d) ->
  In p (products d) /\
  match oc with
  | Some c => In c (categories d) /\ Product.categoryId p = Some (Category.id c)
  | None => forall c, In c (categories d) ->
                      Product.categoryId p <> Some (Category.id c)
  end /\
  match ob with
  | Some b => In b (brands d) /\ Product.brandId p = Some (Brand.id b)
  | None => forall b, In b (brands d) -> Product.brandId p <> Some (Brand.id b)
  end.
Proof.
  unfold products_join. intros H.
  apply In_left_join in H as [H Hb]. apply In_left_join in H as [Hp Hc].
  split; [assumption|]. split.
  - destruct oc as [c|].
    + destruct Hc as [Hc1 Hc2]. split; [assumption|]. now apply eq_nullable_spec.
    + intros c Hin. apply eq_nullable_false. now apply Hc.
  - destruct ob as [b|]; simpl in Hb.
    + destruct Hb as [Hb1 Hb2]. split; [assumption|]. now apply eq_nullable_spec.
    + intros b Hin. apply eq_nullable_false. now apply Hb.
Qed.

Lemma createProduct_row env w product w1 row :
  createProduct product env w = (w1, Ok (Some row)) ->
  Product.isActive row = insert_col (Some true) (InsertProduct.isActive product) /\
  products (db w1) = products (db w) ++ [row].
Proof.
  unfold createProduct, bind, insert_products, statement, ret. simpl.
  destruct (mem _ (map Product.id _)); simpl; [discriminate|].
  destruct (mem _ (map Product.slug _)); simpl; [discriminate|].
  destruct (mem_opt _ (map Category.id _)); simpl; [|discriminate].
  destruct (mem_opt _ (map Brand.id _)); simpl; [|discriminate].
  intros H. injection H as <- <-. split; reflexivity.
Qed.

Lemma sorted_map {A B} (key : A -> option timestamp) (key' : B -> option timestamp)
  (g : A -> B) l :
  (forall x, key' (g x) = key x) ->
  StronglySorted (newer_first key) l ->
  StronglySorted (newer_first key') (map g l).
Proof.
  intros Hk. induction 1 as [|x l Hs IH Hx]; simpl; constructor; [exact IH|].
  apply Forall_forall. intros y Hy. apply in_map_iff in Hy as [x' [<- Hx']].
  rewrite Forall_forall in Hx. unfold newer_first. rewrite !Hk. now apply Hx.
Qed.

(** C3.  Whatever the [filters] argument is, [getProducts] changes no table
    and returns the same list.  Every product of that list has its active
    flag true and every product whose flag is true is in it; the list is in
    descending order of [createdAt] (rows without one first); the category
    (brand) of an entry is a row of [categories] ([brands]) whose id is the
    product's foreign key, and is absent when no row has that id, in
    particular when the foreign key is null.  When ids are unique in
    [categories] and [brands], the products of the list are exactly the
    active products, each once.  A product that [createProduct] has just
    stored with [isActive] false is not in any later listing. *)
Theorem getProducts_active_newest_first (env : Env) (w : World)
  (filters : option Filters.t) :
  exists results,
    getProducts filters env w = (mkWorld (db w) (S (tick w)), Ok results) /\
    (forall filters', getProducts filters' env w = getProducts filters env w) /\
    Forall (fun r => Product.isActive (ProductWithRelations.product r) = Some true)
      results /\
    (forall p, In p (products (db w)) -> Product.isActive p = Some true ->
               In p (map ProductWithRelations.product results)) /\
    StronglySorted
      (newer_first (fun r => Product.createdAt (ProductWithRelations.product r)))
      results /\
    Forall (fun r =>
              let p := ProductWithRelations.product r in
              match ProductWithRelations.category r with
              | Some c => In c (categories (db w)) /\
                          Product.categoryId p = Some (Category.id c)
              | None => forall c, In c (categories (db w)) ->
                                  Product.categoryId p <> Some (Category.id c)
              end /\
              match ProductWithRelations.brand r with
              | Some b => In b (brands (db w)) /\
                          Product.brandId p = Some (Brand.id b)
              | None => forall b, In b (brands (db w)) ->
                                  Product.brandId p <> Some (Brand.id b)
              end) results /\
    (NoDup (map Category.id (categories (db w))) ->
     NoDup (map Brand.id (brands (db w))) ->
     Permutation (map ProductWithRelations.product results)
       (filter active (products (db w)))) /\
    (forall product w0 row,
        createProduct product env w0 = (w, Ok (Some row)) ->
        InsertProduct.isActive product = Value false ->
        ~ In row (map ProductWithRelations.product results)).
Proof.
  eexists. split; [apply getProducts_run|].
  set (key := fun row : Product.t * option Category.t * option Brand.t =>
                Product.createdAt (fst (fst row))).
  set (rows := filter _ (products_join (db w))).
  assert (Hin : forall row, In row (orderBy_desc key rows) <->
                            In row (products_join (db w)) /\
                            active (fst (fst row)) = true).
  { intros row. split; intros H.
    - apply (Permutation_in _ (orderBy_desc_perm key rows)) in H.
      now apply filter_In in H.
    - apply (Permutation_in _ (Permutation_sym (orderBy_desc_perm key rows))).
      now apply filter_In. }
  assert (Hactive : Forall (fun r => Product.isActive (ProductWithRelations.product r)
                                     = Some true)
                      (map with_relations (orderBy_desc key rows))).
  { apply Forall_forall. intros r Hr. apply in_map_iff in Hr as [row [<- Hrow]].
    apply Hin in Hrow as [_ Hrow]. now apply active_spec. }
  split; [reflexivity|]. split; [exact Hactive|]. repeat split.
  - intros p Hp Hact. rewrite map_map. simpl.
    destruct (products_join_covers (db w) p Hp) as [oc [ob Hrow]].
    apply in_map_iff. exists (p, oc, ob). split; [reflexivity|].
    apply Hin. split; [assumption|]. now apply active_spec.
  - apply (sorted_map key); [reflexivity | apply orderBy_desc_sorted].
  - apply Forall_forall. intros r Hr. apply in_map_iff in Hr as [row [<- Hrow]].
    apply Hin in Hrow as [Hrow _]. destruct row as [[p oc] ob].
    apply products_join_enriched in Hrow as [_ [Hc Hb]]. simpl. now split.
  - intros Hc Hb. rewrite map_map. simpl.
    rewrite (Permutation_map _ (orderBy_desc_perm key rows)).
    unfold rows.
    rewrite <- (filter_map_comm (fun row => fst (fst row)) active).
    now rewrite products_join_products.
  - intros product w0 row Hcreate Hfalse Hrow.
    apply createProduct_row in Hcreate as [Hflag _].
    rewrite Hfalse in Hflag. simpl in Hflag.
    rewrite Forall_forall in Hactive.
    apply in_map_iff in Hrow as [r [<- Hr]].
    specialize (Hactive r Hr). congruence.
Qed.

Lemma getProducts_active_newest_first_witness :
  exists results,
    getProducts None sample_env sample_world = (mkWorld sample_db 1, Ok results) /\
    Permutation (map ProductWithRelations.product results) [aspirin; vitamin_d3] /\
    exists w1 row results1,
      createProduct inactive_syrup sample_env sample_world = (w1, Ok (Some row)) /\
      getProducts None sample_env w1 = (mkWorld (db w1) (S (tick w1)), Ok results1) /\
      ~ In row (map ProductWithRelations.product results1).
Proof.
  destruct (getProducts_active_newest_first sample_env sample_world None)
    as [results [Hrun [_ [_ [_ [_ [_ [Hperm _]]]]]]]].
  exists results. split; [exact Hrun|]. split.
  - apply Hperm; simpl; repeat constructor; simpl; tauto.
  - destruct (getProducts_active_newest_first sample_env
                (fst (createProduct inactive_syrup sample_env sample_world)) None)
      as [results1 [Hrun1 [_ [_ [_ [_ [_ [_ Hnew]]]]]]]].
    eexists _, _, results1. split; [reflexivity|]. split; [exact Hrun1|].
    apply (Hnew inactive_syrup sample_world); reflexivity.
Defined.

(** ** C5: orders without items *)

Lemma In_orders_join d row :
  In row (orders_join d) ->
  In (OrderRow.order row) (orders d) /\
  match OrderRow.orderItem row with
  | Some i => In i (orderItems d) /\ OrderItem.orderId i = Order.id (OrderRow.order row)
  | None => OrderRow.product row = None
  end.
Proof.
  unfold orders_join. intros H. apply in_map_iff in H as [[[o oi] op] [<- H]].
  apply In_left_join in H as [H Hp]. apply In_left_join in H as [Ho Hi].
  simpl. split; [assumption|].
  destruct oi as [i|].
  - destruct Hi as [Hi Heq]. split; [assumption|].
    apply String.eqb_eq in Heq. now symmetry.
  - destruct op as [p|]; [|reflexivity]. simpl in Hp. destruct Hp; discriminate.
Qed.

Lemma orders_join_covers d o :
  In o (orders d) -> exists row, In row (orders_join d) /\ OrderRow.order row = o.
Proof.
  intros Ho. unfold orders_join.
  destruct (left_join_covers
              (fun o i => (Order.id o =? OrderItem.orderId i)%string)
              (orders d) (orderItems d) o Ho) as [oi Hoi].
  eapply left_join_covers in Hoi. destruct Hoi as [op Hop].
  eexists. split; [apply in_map; exact Hop|]. reflexivity.
Qed.

(** The rows of an order that no item references carry no item. *)
Lemma orders_join_no_item d row :
  In row (orders_join d) ->
  existsb (fun i => (OrderItem.orderId i =? Order.id (OrderRow.order row))%string)
    (orderItems d) = false ->
  paired row = [].
Proof.
  intros Hrow Hnone. apply In_orders_join in Hrow as [_ Hi].
  unfold paired. destruct (OrderRow.orderItem row) as [i|]; [|reflexivity].
  destruct Hi as [Hi Heq].
  rewrite existsb_false_forall in Hnone. specialize (Hnone i Hi).
  rewrite Heq, String.eqb_refl in Hnone. discriminate.
Qed.

Lemma getOrder_run env w id :
  getOrder id env w =
  (mkWorld (db w) (S (tick w)),
   Ok (match filter (fun row => (Order.id (OrderRow.order row) =? id)%string)
               (orders_join (db w)) with
       | [] => None
       | first :: _ =>
           Some (OrderWithItems.mk (OrderRow.order first)
                   (flat_map paired
                      (filter (fun row => (Order.id (OrderRow.order row) =? id)%string)
                         (orders_join (db w)))))
       end)).
Proof.
  unfold getOrder, bind, select_rows, statement, ret. simpl.
  now destruct (filter _ (orders_join (db w))).
Qed.

Lemma flat_map_nil {A B} (f : A -> list B) l :
  (forall x, In x l -> f x = []) -> flat_map f l = [].
Proof.
  induction l as [|a l IH]; simpl; intros H; [reflexivity|].
  rewrite H by now left. simpl. apply IH. intros x Hx. apply H. now right.
Qed.

Lemma unique_id_same_order l (o o' : Order.t) :
  NoDup (map Order.id l) -> In o l -> In o' l -> Order.id o' = Order.id o -> o' = o.
Proof.
  induction l as [|a l IH]; simpl; intros Hnd Ho Ho' Heq; [contradiction|].
  inversion Hnd as [|? ? Hnotin Hnd']; subst.
  destruct Ho as [->|Ho], Ho' as [->|Ho']; auto.
  - exfalso. apply Hnotin. rewrite <- Heq. now apply in_map.
  - exfalso. apply Hnotin. rewrite Heq. now apply in_map.
Qed.

(** *** The grouping loop of [getOrders] *)

Lemma has_key_entry k g : has_key k g = false <-> entry_of k g = None.
Proof.
  unfold has_key, entry_of. induction g as [|e g IH]; simpl; [tauto|].
  destruct (fst e =? k)%string; simpl; [split; discriminate | exact IH].
Qed.

Lemma entry_of_app k g e :
  entry_of k (g ++ [e]) =
  match entry_of k g with
  | Some x => Some x
  | None => if (fst e =? k)%string then Some e else None
  end.
Proof.
  unfold entry_of. induction g as [|a g IH]; simpl; [reflexivity|].
  destruct (fst a =? k)%string; [reflexivity | exact IH].
Qed.

Lemma entry_of_push_other k k' x g :
  k' <> k -> entry_of k (push_item k' x g) = entry_of k g.
Proof.
  intros Hne. unfold entry_of, push_item.
  induction g as [|e g IH]; simpl; [reflexivity|].
  destruct (fst e =? k')%string eqn:Hk'; simpl.
  - apply String.eqb_eq in Hk'. rewrite Hk'.
    apply String.eqb_neq in Hne. rewrite Hne. exact IH.
  - destruct (fst e =? k)%string; [reflexivity | exact IH].
Qed.

Lemma has_key_push k k' x g : has_key k (push_item k' x g) = has_key k g.
Proof.
  unfold has_key, push_item. induction g as [|e g IH]; simpl; [reflexivity|].
  rewrite IH. now destruct (fst e =? k')%string.
Qed.

Lemma has_key_app k g e : has_key k (g ++ [e]) = has_key k g || (fst e =? k)%string.
Proof.
  unfold has_key. rewrite existsb_app. simpl. now rewrite orb_false_r.
Qed.

Lemma group_row_entry k g row :
  (Order.id (OrderRow.order row) = k -> paired row = []) ->
  entry_of k (group_row g row) =
  match entry_of k g with
  | Some e => Some e
  | None =>
      if (Order.id (OrderRow.order row) =? k)%string
      then Some (k, OrderWithItems.mk (OrderRow.order row) [])
      else None
  end.
Proof.
  intros Hp. unfold group_row.
  destruct (Order.id (OrderRow.order row) =? k)%string eqn:Hk.
  - apply String.eqb_eq in Hk. specialize (Hp Hk). unfold paired in Hp.
    rewrite Hk.
    assert (Hg : entry_of k (if negb (has_key k g)
                             then g ++ [(k, OrderWithItems.mk (OrderRow.order row) [])]
                             else g)
                 = match entry_of k g with
                   | Some e => Some e
                   | None => Some (k, OrderWithItems.mk (OrderRow.order row) [])
                   end).
    { destruct (has_key k g) eqn:Hh; simpl.
      - destruct (entry_of k g) eqn:He; [reflexivity|].
        apply has_key_entry in He. congruence.
      - apply has_key_entry in Hh. rewrite entry_of_app, Hh. simpl.
        now rewrite String.eqb_refl. }
    destruct (OrderRow.orderItem row), (OrderRow.product row);
      try discriminate; exact Hg.
  - apply String.eqb_neq in Hk.
    assert (Hg : entry_of k (if negb (has_key (Order.id (OrderRow.order row)) g)
                             then g ++ [(Order.id (OrderRow.order row),
                                         OrderWithItems.mk (OrderRow.order row) [])]
                             else g)
                 = entry_of k g).
    { destruct (has_key _ g); simpl; [reflexivity|].
      rewrite entry_of_app. simpl. apply String.eqb_neq in Hk. rewrite Hk.
      now destruct (entry_of k g). }
    destruct (OrderRow.orderItem row), (OrderRow.product row);
      rewrite ?entry_of_push_other by assumption; rewrite Hg;
      now destruct (entry_of k g).
Qed.

Lemma group_rows_entry k rows : forall g,
  (forall row, In row rows -> Order.id (OrderRow.order row) = k -> paired row = []) ->
  entry_of k (fold_left group_row rows g) =
  match entry_of k g with
  | Some e => Some e
  | None =>
      match find (fun row => (Order.id (OrderRow.order row) =? k)%string) rows with
      | Some row => Some (k, OrderWithItems.mk (OrderRow.order row) [])
      | None => None
      end
  end.
Proof.
  induction rows as [|row rows IH]; intros g Hp; simpl.
  - now destruct (entry_of k g).
  - rewrite IH by (intros r Hr; apply Hp; now right).
    rewrite group_row_entry by (apply Hp; now left).
    destruct (entry_of k g); [reflexivity|].
    now destruct (Order.id (OrderRow.order row) =? k)%string.
Qed.

Lemma has_key_group_row k g row :
  has_key k (group_row g row) =
  has_key k g || (Order.id (OrderRow.order row) =? k)%string.
Proof.
  unfold group_row.
  assert (Hg : has_key k (if negb (has_key (Order.id (OrderRow.order row)) g)
                          then g ++ [(Order.id (OrderRow.order row),
                                      OrderWithItems.mk (OrderRow.order row) [])]
                          else g)
               = has_key k g || (Order.id (OrderRow.order row) =? k)%string).
  { destruct (has_key (Order.id (OrderRow.order row)) g) eqn:Hh; simpl.
    - destruct (Order.id (OrderRow.order row) =? k)%string eqn:Hk.
      + apply String.eqb_eq in Hk. rewrite <- Hk, Hh. reflexivity.
      + now rewrite orb_false_r.
    - now rewrite has_key_app. }
  destruct (OrderRow.orderItem row), (OrderRow.product row);
    rewrite ?has_key_push; exact Hg.
Qed.

Lemma has_key_group_rows k rows : forall g,
  has_key k (fold_left group_row rows g) =
  has_key k g ||
  existsb (fun row => (Order.id (OrderRow.order row) =? k)%string) rows.
Proof.
  induction rows as [|row rows IH]; intros g; simpl.
  - now rewrite orb_false_r.
  - now rewrite IH, has_key_group_row, orb_assoc.
Qed.

Lemma keyed_push k x g : keyed g -> keyed (push_item k x g).
Proof.
  unfold keyed, push_item. intros Hg e He.
  apply in_map_iff in He as [e0 [<- He0]]. specialize (Hg e0 He0).
  now destruct (fst e0 =? k)%string.
Qed.

Lemma keyed_group_row g row : keyed g -> keyed (group_row g row).
Proof.
  intros Hg. unfold group_row.
  assert (Hg1 : keyed (if negb (has_key (Order.id (OrderRow.order row)) g)
                       then g ++ [(Order.id (OrderRow.order row),
                                   OrderWithItems.mk (OrderRow.order row) [])]
                       else g)).
  { destruct (has_key _ g); simpl; [exact Hg|].
    intros e He. apply in_app_or in He as [He|[<-|[]]]; [now apply Hg | reflexivity]. }
  destruct (OrderRow.orderItem row), (OrderRow.product row);
    try apply keyed_push; exact Hg1.
Qed.

Lemma keyed_group_rows rows : forall g, keyed g -> keyed (fold_left group_row rows g).
Proof.
  induction rows as [|row rows IH]; intros g Hg; simpl; [exact Hg|].
  apply IH. now apply keyed_group_row.
Qed.

Lemma entry_of_In k g e : entry_of k g = Some e -> In e g /\ fst e = k.
Proof.
  unfold entry_of. intros H. apply find_some in H as [H1 H2].
  apply String.eqb_eq in H2. now split.
Qed.

Lemma getOrders_run env w userId :
  getOrders userId env w =
  (mkWorld (db w) (S (tick w)),
   Ok (map snd
         (fold_left group_row
            (orderBy_desc (fun row => Order.createdAt (OrderRow.order row))
               (filter (fun row => (Order.userId (OrderRow.order row) =? userId)%string)
                  (orders_join (db w))))
            []))).
Proof. reflexivity. Qed.

Lemma In_user_rows d userId row :
  In row (orderBy_desc (fun row => Order.createdAt (OrderRow.order row))
            (filter (fun row => (Order.userId (OrderRow.order row) =? userId)%string)
               (orders_join d))) <->
  In row (orders_join d) /\ Order.userId (OrderRow.order row) = userId.
Proof.
  split; intros H.
  - apply (Permutation_in _ (orderBy_desc_perm _ _)) in H.
    apply filter_In in H as [H1 H2]. apply String.eqb_eq in H2. now split.
  - apply (Permutation_in _ (Permutation_sym (orderBy_desc_perm _ _))).
    apply filter_In. destruct H as [H1 H2]. split; [assumption|].
    now apply String.eqb_eq.
Qed.

(** C5.  An order row that no item references is found by [getOrder] with
    an empty item list, and [getOrders] of its user lists it with an empty
    item list (the order reported is a row of that id, the row itself when
    ids are unique).  In general [getOrder(id)] answers not-found only when
    no order has that id, and [getOrders(u)] has an entry for every order of
    u, whatever the items are; neither call changes a table. *)
Theorem order_without_items_is_kept (env : Env) (w : World) :
  (forall o,
      In o (orders (db w)) ->
      existsb (fun i => (OrderItem.orderId i =? Order.id o)%string)
        (orderItems (db w)) = false ->
      exists o',
        getOrder (Order.id o) env w =
        (mkWorld (db w) (S (tick w)), Ok (Some (OrderWithItems.mk o' []))) /\
        In o' (orders (db w)) /\ Order.id o' = Order.id o /\
        (NoDup (map Order.id (orders (db w))) -> o' = o)) /\
  (forall o,
      In o (orders (db w)) ->
      existsb (fun i => (OrderItem.orderId i =? Order.id o)%string)
        (orderItems (db w)) = false ->
      exists results o',
        getOrders (Order.userId o) env w =
        (mkWorld (db w) (S (tick w)), Ok results) /\
        In (OrderWithItems.mk o' []) results /\
        In o' (orders (db w)) /\ Order.id o' = Order.id o /\
        (NoDup (map Order.id (orders (db w))) -> o' = o)) /\
  (forall id,
      getOrder id env w = (mkWorld (db w) (S (tick w)), Ok None) <->
      forall o, In o (orders (db w)) -> Order.id o <> id) /\
  (forall o,
      In o (orders (db w)) ->
      exists results e,
        getOrders (Order.userId o) env w =
        (mkWorld (db w) (S (tick w)), Ok results) /\
        In e results /\
        Order.id (OrderWithItems.order e) = Order.id o).
Proof.
  repeat split.
  - intros o Ho Hnone. rewrite getOrder_run.
    destruct (orders_join_covers (db w) o Ho) as [row [Hrow Horder]].
    set (rows := filter _ (orders_join (db w))).
    assert (Hin : In row rows).
    { apply filter_In. split; [assumption|]. rewrite Horder. apply String.eqb_refl. }
    assert (Hnil : flat_map paired rows = []).
    { apply flat_map_nil. intros r Hr. apply filter_In in Hr as [Hr Hid].
      apply String.eqb_eq in Hid. apply (orders_join_no_item (db w)); [assumption|].
      now rewrite Hid. }
    rewrite Hnil. destruct rows as [|first rest] eqn:Hrows; [contradiction|].
    assert (Hfirst : In first rows) by (rewrite Hrows; now left).
    apply filter_In in Hfirst as [Hfirst Hid]. apply String.eqb_eq in Hid.
    apply In_orders_join in Hfirst as [Hfirst _].
    exists (OrderRow.order first). repeat split; try assumption.
    intros Hnd. eapply unique_id_same_order; eassumption.
  - intros o Ho Hnone. rewrite getOrders_run.
    set (rows := orderBy_desc _ _).
    destruct (orders_join_covers (db w) o Ho) as [row [Hrow Horder]].
    assert (Hin : In row rows).
    { apply In_user_rows. split; [assumption|]. now rewrite Horder. }
    pose proof (group_rows_entry (Order.id o) rows []) as Hentry.
    simpl in Hentry.
    destruct (find (fun r => (Order.id (OrderRow.order r) =? Order.id o)%string) rows)
      as [first|] eqn:Hfind.
    2:{ eapply find_none in Hfind; [|exact Hin].
        rewrite Horder, String.eqb_refl in Hfind. discriminate. }
    apply find_some in Hfind as [Hfirst Hid]. apply String.eqb_eq in Hid.
    apply In_user_rows in Hfirst as [Hfirst _].
    eexists _, (OrderRow.order first). split; [reflexivity|].
    split; [|split; [now apply In_orders_join in Hfirst|]].
    + apply in_map_iff.
      exists (Order.id o, OrderWithItems.mk (OrderRow.order first) []).
      split; [reflexivity|]. eapply entry_of_In. apply Hentry.
      intros r Hr Hrid. apply In_user_rows in Hr as [Hr _].
      apply (orders_join_no_item (db w)); [assumption|]. now rewrite Hrid.
    + split; [assumption|]. intros Hnd.
      apply In_orders_join in Hfirst as [Hfirst _].
      eapply unique_id_same_order; eassumption.
  - rewrite getOrder_run. intros H o Ho Hid.
    destruct (orders_join_covers (db w) o Ho) as [row [Hrow Horder]].
    destruct (filter _ (orders_join (db w))) as [|first rest] eqn:Hf; [|discriminate].
    assert (Hin : In row []); [|contradiction].
    rewrite <- Hf. apply filter_In. split; [assumption|].
    rewrite Horder, Hid. apply String.eqb_refl.
  - intros H. rewrite getOrder_run.
    destruct (filter _ (orders_join (db w))) as [|first rest] eqn:Hf; [reflexivity|].
    assert (Hin : In first (first :: rest)) by now left.
    rewrite <- Hf in Hin. apply filter_In in Hin as [Hin Hid].
    apply String.eqb_eq in Hid. apply In_orders_join in Hin as [Hin _].
    now apply H in Hin.
  - intros o Ho. rewrite getOrders_run.
    set (rows := orderBy_desc _ _).
    destruct (orders_join_covers (db w) o Ho) as [row [Hrow Horder]].
    assert (Hin : In row rows).
    { apply In_user_rows. split; [assumption|]. now rewrite Horder. }
    pose proof (has_key_group_rows (Order.id o) rows []) as Hkey.
    simpl in Hkey.
    assert (Hex : existsb (fun r => (Order.id (OrderRow.order r) =? Order.id o)%string)
                    rows = true).
    { apply existsb_exists. exists row. split; [assumption|].
      rewrite Horder. apply String.eqb_refl. }
    rewrite Hex in Hkey. unfold has_key in Hkey.
    apply existsb_exists in Hkey as [e [He Hk]]. apply String.eqb_eq in Hk.
    eexists _, (snd e). split; [reflexivity|]. split; [now apply in_map|].
    rewrite <- Hk. symmetry. apply (keyed_group_rows rows []); [|exact He].
    intros x [].
Qed.

Lemma order_without_items_is_kept_witness :
  getOrder "o-1" sample_env sample_world
  = (mkWorld sample_db 1, Ok (Some (OrderWithItems.mk empty_order []))) /\
  exists results,
    getOrders "alice" sample_env sample_world = (mkWorld sample_db 1, Ok results) /\
    In (OrderWithItems.mk empty_order []) results.
Proof.
  destruct (order_without_items_is_kept sample_env sample_world)
    as [Hone [Hall _]].
  assert (Hin : In empty_order (orders (db sample_world))) by (now left).
  assert (Hnd : NoDup (map Order.id (orders (db sample_world)))).
  { simpl. repeat constructor; simpl; intuition discriminate. }
  split.
  - destruct (Hone empty_order Hin eq_refl) as [o' [Hrun [_ [_ Hsame]]]].
    rewrite <- (Hsame Hnd). exact Hrun.
  - destruct (Hall empty_order Hin eq_refl) as [results [o' [Hrun [Hres [_ [_ Hsame]]]]]].
    exists results. split; [exact Hrun|]. now rewrite <- (Hsame Hnd).
Defined.

(** ** C2: [createOrder] is two statements *)












(** ** C7: seeding twice *)

Lemma distinct_NoDup l : distinct l = true -> NoDup l.
Proof.
  induction l as [|x l IH]; simpl; intros H; constructor;
    apply andb_true_iff in H as [Hx Hl].
  - apply negb_true_iff in Hx. now apply mem_false.
  - now apply IH.
Qed.

Lemma createCategory_ok env w v w' r :
  createCategory v env w = (w', Ok r) ->
  exists row,
    r = Some row /\
    Category.slug row = InsertCategory.slug v /\
    Category.name row = InsertCategory.name v /\
    mem (InsertCategory.slug v) (map Category.slug (categories (db w))) = false /\
    db w' = with_categories (db w) (categories (db w) ++ [row]).
Proof.
  unfold createCategory, bind, insert_categories, statement, ret. simpl.
  destruct (mem _ (map Category.id _)); simpl; [discriminate|].
  destruct (mem _ (map Category.slug _)) eqn:Hslug; simpl; [discriminate|].
  intros H. injection H as <- <-. eexists.
  split; [reflexivity|]. split; [reflexivity|]. split; [reflexivity|].
  split; reflexivity.
Qed.

Lemma createCategory_duplicate env w v :
  mem (InsertCategory.slug v) (map Category.slug (categories (db w))) = true ->
  exists c,
    createCategory v env w = (mkWorld (db w) (S (tick w)), Err (UniqueViolation c)).
Proof.
  intros Hslug.
  unfold createCategory, bind, insert_categories, statement, ret. simpl.
  destruct (mem _ (map Category.id _)); simpl; [now eexists|].
  rewrite Hslug. now eexists.
Qed.

Lemma createBrand_categories env w v w' r :
  createBrand v env w = (w', r) -> categories (db w') = categories (db w).
Proof.
  unfold createBrand, bind, insert_brands, statement, ret. simpl.
  destruct (mem _ (map Brand.id _)); simpl; intros H; now injection H as <- _.
Qed.

Lemma createProduct_categories env w v w' r :
  createProduct v env w = (w', r) -> categories (db w') = categories (db w).
Proof.
  unfold createProduct, bind, insert_products, statement, ret. simpl.
  destruct (mem _ (map Product.id _)); simpl;
    [intros H; now injection H as <- _|].
  destruct (mem _ (map Product.slug _)); simpl;
    [intros H; now injection H as <- _|].
  destruct (mem_opt _ (map Category.id _)); simpl;
    [|intros H; now injection H as <- _].
  destruct (mem_opt _ (map Brand.id _)); simpl;
    intros H; now injection H as <- _.
Qed.

Lemma find_category_pure entries category env w :
  fst (find_category entries category env w) = w.
Proof.
  induction entries as [|[k [c|]] entries IH]; simpl; try reflexivity.
  destruct (Category.name c =? category)%string; [reflexivity | exact IH].
Qed.

Lemma seed_categories_ok env data : forall acc w w' acc',
  seed_categories data acc env w = (w', Ok acc') ->
  exists rows,
    categories (db w') = categories (db w) ++ rows /\
    map Category.slug rows = map InsertCategory.slug data /\
    map Category.name rows = map InsertCategory.name data /\
    (NoDup (map Category.slug (categories (db w))) ->
     NoDup (map Category.slug (categories (db w')))).
Proof.
  induction data as [|v data IH]; intros acc w w' acc' H.
  - injection H as <- _. exists []. rewrite app_nil_r. repeat split. tauto.
  - simpl in H. unfold bind in H.
    destruct (createCategory v env w) as [w1 [r|e]] eqn:Hc; [|discriminate].
    apply createCategory_ok in Hc as [row [_ [Hslug [Hname [Hfresh Hdb]]]]].
    apply IH in H as [rows [Hcats [Hslugs [Hnames Hnd]]]].
    rewrite Hdb in Hcats, Hnd. simpl in Hcats, Hnd.
    exists (row :: rows).
    split; [rewrite Hcats, <- app_assoc; reflexivity|].
    split; [simpl; now rewrite Hslug, Hslugs|].
    split; [simpl; now rewrite Hname, Hnames|].
    intros Hw. apply Hnd. rewrite map_app. simpl.
    apply mem_false in Hfresh.
    apply Permutation_NoDup
      with (l := Category.slug row :: map Category.slug (categories (db w))).
    + apply Permutation_cons_append.
    + constructor; [now rewrite Hslug | assumption].
Qed.

Lemma seed_brands_categories env names : forall acc w w' r,
  seed_brands names acc env w = (w', r) ->
  categories (db w') = categories (db w).
Proof.
  induction names as [|n names IH]; intros acc w w' r H.
  - now injection H as <- _.
  - simpl in H. unfold bind in H.
    destruct (createBrand _ env w) as [w1 [b|e]] eqn:Hb.
    + apply IH in H. rewrite H. eapply createBrand_categories; eassumption.
    + injection H as <- _. eapply createBrand_categories; eassumption.
Qed.

Lemma seed_products_categories env cats brands items : forall products processed w w' r,
  seed_products cats brands items products processed env w = (w', r) ->
  categories (db w') = categories (db w).
Proof.
  induction items as [|item items IH]; intros products processed w w' r H.
  - now injection H as <- _.
  - cbn [seed_products] in H.
    destruct (mem _ processed); [now apply IH in H|].
    unfold bind at 1 in H.
    pose proof (find_category_pure cats
                  (or_else (CatalogItem.Category item) "General Health") env w) as Hpure.
    destruct (find_category cats _ env w) as [w0 [found|e]]; simpl in Hpure; subst w0;
      [|now injection H as <- _].
    destruct (or_obj (Some found) _) as [categoryObj|];
      [|now injection H as <- _].
    destruct (or_obj (obj_get _ brands) _) as [brandObj|];
      [|now injection H as <- _].
    unfold bind, Math_random in H.
    cbn [storage_createProduct DatabaseStorage] in H.
    destruct (createProduct _ env w) as [w1 [created|e]] eqn:Hc.
    + apply IH in H. rewrite H. eapply createProduct_categories; eassumption.
    + injection H as <- _. eapply createProduct_categories; eassumption.
Qed.

(** A run of the seeding that returns has stored the seventeen categories. *)
Lemma seedAuthenticCatalog_ok env w catalogData w1 summary :
  seedAuthenticCatalog catalogData env w = (w1, Ok summary) ->
  exists rows,
    categories (db w1) = categories (db w) ++ rows /\
    map Category.slug rows = map InsertCategory.slug categoriesData /\
    map Category.name rows = map InsertCategory.name categoriesData /\
    (NoDup (map Category.slug (categories (db w))) ->
     NoDup (map Category.slug (categories (db w1)))).
Proof.
  unfold seedAuthenticCatalog, bind. intros H.
  destruct (seed_categories categoriesData [] env w) as [wc [cats|e]] eqn:Hc;
    [|discriminate].
  destruct (seed_brands _ [] env wc) as [wb [brands|e]] eqn:Hb; [|discriminate].
  destruct (seed_products cats brands catalogData [] [] env wb)
    as [wp [products|e]] eqn:Hp; [|discriminate].
  injection H as <- _.
  apply seed_categories_ok in Hc as [rows [Hcats [Hslugs [Hnames Hnd]]]].
  apply seed_brands_categories in Hb. apply seed_products_categories in Hp.
  exists rows. rewrite Hp, Hb. repeat split; assumption.
Qed.

(** C7 as stated fails: after a second run on the same catalog, with no
    clearing in between, [categories] still holds seventeen rows, with
    seventeen different slugs. *)
Lemma seedAuthenticCatalog_twice_counterexample :
  exists w1 summary w2,
    seedAuthenticCatalog sample_catalog sample_env (mkWorld empty_db 0)
    = (w1, Ok summary) /\
    seedAuthenticCatalog sample_catalog sample_env w1
    = (w2, Err (UniqueViolation "categories_slug_unique")) /\
    categories (db w2) = categories (db w1) /\
    List.length (categories (db w2)) = 17%nat /\
    NoDup (map Category.slug (categories (db w2))).
Proof.
  eexists _, _, _. split; [vm_compute; reflexivity|].
  split; [vm_compute; reflexivity|].
  split; [reflexivity|]. split; [reflexivity|].
  apply distinct_NoDup. vm_compute. reflexivity.
Qed.

(** C7, amended.  The seeding has no guard of its own: every run starts by
    creating the first category definition.  Once a run has returned, the
    seventeen definitions are rows of [categories], so a further run, on
    the same or on other catalog data and without clearing in between,
    fails at that first insertion with a uniqueness violation and leaves
    the database as it was: no category row is added, and slugs that were
    pairwise different before the first run are still so after the second. *)
Theorem seedAuthenticCatalog_second_run_fails (env : Env) (w : World)
  (catalogData catalogData' : list CatalogItem.t) (w1 : World)
  (summary : SeedSummary.t) :
  seedAuthenticCatalog catalogData env w = (w1, Ok summary) ->
  (exists rows,
      categories (db w1) = categories (db w) ++ rows /\
      map Category.slug rows = map InsertCategory.slug categoriesData) /\
  exists w2 c,
    seedAuthenticCatalog catalogData' env w1 = (w2, Err (UniqueViolation c)) /\
    db w2 = db w1 /\
    (NoDup (map Category.slug (categories (db w))) ->
     NoDup (map Category.slug (categories (db w2)))).
Proof.
  intros Hfirst.
  apply seedAuthenticCatalog_ok in Hfirst as [rows [Hcats [Hslugs [_ Hnd]]]].
  split; [now exists rows|].
  destruct (createCategory_duplicate env w1
              (categoryData "Vitamins & Multivitamins" "vitamins-multivitamins"
                 "Essential vitamins and multivitamin supplements for daily health"))
    as [c Hdup].
  { apply mem_In. rewrite Hcats, map_app, Hslugs. apply in_or_app. right.
    now left. }
  exists (mkWorld (db w1) (S (tick w1))), c.
  split; [|split; [reflexivity | exact Hnd]].
  unfold seedAuthenticCatalog, bind. cbn [categoriesData seed_categories].
  unfold bind. cbn [storage_createCategory DatabaseStorage].
  now rewrite Hdup.
Qed.

Lemma seedAuthenticCatalog_second_run_fails_witness :
  exists w1 summary w2 c,
    seedAuthenticCatalog sample_catalog sample_env (mkWorld empty_db 0)
    = (w1, Ok summary) /\
    seedAuthenticCatalog sample_catalog sample_env w1
    = (w2, Err (UniqueViolation c)) /\
    db w2 = db w1.
Proof.
  assert (Hfirst : seedAuthenticCatalog sample_catalog sample_env (mkWorld empty_db 0)
                   = (fst (seedAuthenticCatalog sample_catalog sample_env
                             (mkWorld empty_db 0)),
                      Ok (SeedSummary.mk 17 2 2))).
  { vm_compute. reflexivity. }
  destruct (seedAuthenticCatalog_second_run_fails sample_env (mkWorld empty_db 0)
              sample_catalog sample_catalog _ _ Hfirst)
    as [_ [w2 [c [Hsecond [Hdb _]]]]].
  eexists _, _, w2, c. split; [exact Hfirst|]. split; assumption.
Defined.

(** * Further properties of the storage layer *)

(** ** The cart *)

Lemma same_cart_spec u p c :
  same_cart u p c = true <-> CartItem.userId c = u /\ CartItem.productId c = p.
Proof.
  unfold same_cart. now rewrite andb_true_iff, !String.eqb_eq.
Qed.

(** What [addToCart] does to the database, whatever it answers. *)
Lemma addToCart_cases env w u p q w1 r :
  addToCart u p q env w = (w1, r) ->
  exists l,
    db w1 = with_cartItems (db w) l /\
    ((exists s x, In x (cartItems (db w)) /\ same_cart u p x = true /\
                  l = updated (apply_CartItemSet s)
                        (fun c => (CartItem.id c =? CartItem.id x)%string)
                        (cartItems (db w))) \/
     (existsb (same_cart u p) (cartItems (db w)) = false /\
      (l = cartItems (db w) \/
       exists row, same_cart u p row = true /\ CartItem.quantity row = q /\
                   l = cartItems (db w) ++ [row]))).
Proof.
  unfold addToCart, bind, select_from, update_cartItems, insert_cartItems,
    statement, ret, Date_now. simpl.
  destruct (filter (same_cart u p) (cartItems (db w))) as [|x rest] eqn:Hf.
  - simpl. apply filter_nil_existsb in Hf.
    destruct (mem _ (map CartItem.id _)); simpl.
    { intros H. injection H as <- _. eexists. split; [symmetry; apply with_cartItems_same|].
      right. split; [assumption | now left]. }
    destruct (mem u _); simpl.
    2:{ intros H. injection H as <- _. eexists.
        split; [symmetry; apply with_cartItems_same|].
        right. split; [assumption | now left]. }
    destruct (mem p _); simpl.
    2:{ intros H. injection H as <- _. eexists.
        split; [symmetry; apply with_cartItems_same|].
        right. split; [assumption | now left]. }
    intros H. injection H as <- _. eexists. split; [reflexivity|].
    right. split; [assumption|]. right. eexists. split; [|split].
    3: reflexivity.
    + unfold same_cart. simpl. now rewrite !String.eqb_refl.
    + reflexivity.
  - intros H. injection H as <- _. eexists. split; [reflexivity|].
    left. assert (Hx : In x (filter (same_cart u p) (cartItems (db w))))
      by (rewrite Hf; now left).
    apply filter_In in Hx as [Hx Hs]. eexists _, x. repeat split; assumption.
Qed.

Lemma count_where_updated s (where_ : CartItem.t -> bool) u p l :
  count_where (same_cart u p) (updated (apply_CartItemSet s) where_ l) =
  count_where (same_cart u p) l.
Proof.
  unfold count_where.
  rewrite filter_updated by (intros x; reflexivity). apply updated_length.
Qed.

Lemma count_where_filter {A} (p q : A -> bool) l :
  (count_where p (filter q l) <= count_where p l)%nat.
Proof.
  unfold count_where. induction l as [|a l IH]; simpl; [lia|].
  destruct (q a); simpl; destruct (p a); simpl; lia.
Qed.

(** X1.  The cart operations keep the rule of one row for a user and a
    product: when it holds before [addToCart] (whatever it answers),
    [updateCartItem], [removeFromCart] or [clearCart], it holds after. *)
Theorem cart_operations_keep_one_row_per_pair (env : Env) (w : World) :
  cart_unique (db w) ->
  (forall u p q, cart_unique (db (fst (addToCart u p q env w)))) /\
  (forall u p q, cart_unique (db (fst (updateCartItem u p q env w)))) /\
  (forall u p, cart_unique (db (fst (removeFromCart u p env w)))) /\
  (forall u, cart_unique (db (fst (clearCart u env w)))).
Proof.
  intros Hw. repeat split.
  - intros u p q u' p'.
    destruct (addToCart u p q env w) as [w1 r] eqn:Hrun. simpl.
    apply addToCart_cases in Hrun as [l [-> Hl]]. simpl.
    destruct Hl as [[s [x [_ [_ ->]]]] | [Hnone [->|[row [Hrow [_ ->]]]]]].
    + rewrite count_where_updated. apply Hw.
    + apply Hw.
    + unfold count_where. rewrite filter_app, length_app. simpl.
      destruct (same_cart u' p' row) eqn:Hs; simpl; [|rewrite Nat.add_0_r; apply Hw].
      apply same_cart_spec in Hs as [Hu Hp]. apply same_cart_spec in Hrow as [Hu' Hp'].
      rewrite <- Hu, <- Hp, Hu', Hp', (filter_none _ _ Hnone). simpl. lia.
  - intros u p q u' p'. rewrite updateCartItem_run. simpl.
    rewrite count_where_updated. apply Hw.
  - intros u p u' p'. simpl.
    etransitivity; [apply count_where_filter | apply Hw].
  - intros u u' p'. simpl.
    etransitivity; [apply count_where_filter | apply Hw].
Qed.

Lemma cart_operations_keep_one_row_per_pair_witness :
  cart_unique (db (fst (addToCart "alice" "p-1" 2 sample_env sample_world))) /\
  cart_unique (db (fst (clearCart "alice" sample_env sample_world))).
Proof.
  assert (H : cart_unique (db sample_world)) by (intros u p; unfold count_where; simpl; lia).
  destruct (cart_operations_keep_one_row_per_pair sample_env sample_world H)
    as [Hadd [_ [_ Hclear]]].
  split; [apply Hadd | apply Hclear].
Defined.

Lemma filter_negb_app_row {A} (p : A -> bool) l row :
  existsb p l = false -> p row = true ->
  filter (fun c => negb (p c)) (l ++ [row]) = l.
Proof.
  intros Hl Hrow. rewrite filter_app. simpl. rewrite Hrow. simpl.
  rewrite app_nil_r. rewrite existsb_false_forall in Hl.
  induction l as [|a l IH]; simpl; [reflexivity|].
  rewrite (Hl a) by now left. simpl. f_equal. apply IH.
  intros x Hx. apply Hl. now right.
Qed.

Lemma filter_negb_updated s u p (q : CartItem.t -> bool) l :
  filter (fun c => negb (same_cart u p c)) (updated (apply_CartItemSet s) q l) =
  updated (apply_CartItemSet s) q (filter (fun c => negb (same_cart u p c)) l).
Proof. apply filter_updated. intros x. reflexivity. Qed.

Lemma unique_key_same {R} (key : R -> string) (l : list R) x y :
  NoDup (map key l) -> In x l -> In y l -> key y = key x -> y = x.
Proof.
  induction l as [|a l IH]; simpl; intros Hnd Hx Hy Heq; [contradiction|].
  inversion Hnd as [|? ? Hnotin Hnd']; subst.
  destruct Hx as [->|Hx], Hy as [->|Hy]; auto.
  - exfalso. apply Hnotin. rewrite <- Heq. now apply in_map.
  - exfalso. apply Hnotin. rewrite Heq. now apply in_map.
Qed.

Lemma filter_all {A} (p : A -> bool) l :
  (forall x, In x l -> p x = true) -> filter p l = l.
Proof.
  induction l as [|a l IH]; simpl; intros H; [reflexivity|].
  rewrite H by now left. f_equal. apply IH. intros x Hx. apply H. now right.
Qed.

(** X2.  [removeFromCart(u, p)] after an [addToCart(u, p, q)] that returned
    does not fail and leaves in the cart the rows that were there before
    the two calls except those of the pair (u, p), unchanged and in their
    order; no other table has changed.  So the two calls together restore
    the database when the pair had no row.  Ids are unique in [cart_items]. *)
Theorem removeFromCart_after_addToCart (env : Env) (w : World) (u p : string)
  (q : Z) (w1 : World) (r : option CartItem.t) :
  NoDup (map CartItem.id (cartItems (db w))) ->
  addToCart u p q env w = (w1, Ok r) ->
  exists w2,
    removeFromCart u p env w1 = (w2, Ok tt) /\
    db w2 = with_cartItems (db w)
              (filter (fun c => negb (same_cart u p c)) (cartItems (db w))) /\
    (existsb (same_cart u p) (cartItems (db w)) = false -> db w2 = db w).
Proof.
  intros Hnd Hadd. apply addToCart_cases in Hadd as [l [Hdb Hl]].
  eexists. split; [reflexivity|]. simpl. rewrite Hdb. simpl.
  assert (Hrest : filter (fun c => negb (same_cart u p c)) l
                  = filter (fun c => negb (same_cart u p c)) (cartItems (db w))).
  { destruct Hl as [[s [x [Hx [Hs ->]]]] | [Hnone [->|[row [Hrow [_ ->]]]]]].
    - rewrite filter_negb_updated. apply updated_none.
      apply existsb_false_forall. intros y Hy. apply filter_In in Hy as [Hy Hns].
      apply String.eqb_neq. intros Heq.
      rewrite (unique_key_same CartItem.id _ x y Hnd Hx Hy Heq), Hs in Hns.
      discriminate.
    - reflexivity.
    - rewrite (filter_negb_app_row _ _ _ Hnone Hrow). symmetry.
      apply filter_all. intros x Hx. rewrite existsb_false_forall in Hnone.
      now rewrite (Hnone x Hx). }
  rewrite Hrest. split; [now destruct (db w)|].
  intros Hnone. rewrite filter_all; [now destruct (db w)|].
  intros x Hx. rewrite existsb_false_forall in Hnone. now rewrite (Hnone x Hx).
Qed.

Lemma removeFromCart_after_addToCart_witness :
  exists w1 r w2,
    addToCart "alice" "p-1" 2 sample_env sample_world = (w1, Ok r) /\
    removeFromCart "alice" "p-1" sample_env w1 = (w2, Ok tt) /\
    db w2 = db sample_world.
Proof.
  eexists _, _. 
  edestruct (removeFromCart_after_addToCart sample_env sample_world "alice" "p-1" 2)
    as [w2 [Hrun [_ Hsame]]];
    [constructor | vm_compute; reflexivity |].
  exists w2. split; [reflexivity|]. split; [exact Hrun|]. apply Hsame. reflexivity.
Defined.











(** ** Products *)






(** ** Deleting *)

Lemma filter_not_every {R} (l : list R) : filter (fun r => negb (every r)) l = [].
Proof. induction l; simpl; auto. Qed.

Lemma filter_false {R} (l : list R) : filter (fun _ => false) l = [].
Proof. induction l; simpl; auto. Qed.

Lemma filter_every {R} (l : list R) : filter every l = l.
Proof. induction l; simpl; congruence. Qed.

(** X5.  [clearAllData] never fails: whatever the database holds, it
    empties [order_items], [orders], [cart_items], [products], [categories]
    and [brands] and leaves [users] and [admin_permissions] as they were.
    The single bulk deletions are not so: [deleteAllProducts] fails, and
    changes nothing, while a cart row or an order item names a stored
    product, and [deleteAllCategories] ([deleteAllBrands]) while a product
    names a stored category (brand). *)
Theorem clearAllData_empties_the_catalog (env : Env) (w : World) :
  (exists w',
      clearAllData env w = (w', Ok tt) /\
      db w' = mkDb (users (db w)) (adminPermissions (db w)) [] [] [] [] [] []) /\
  (forall p,
      In p (products (db w)) ->
      existsb (fun c => (CartItem.productId c =? Product.id p)%string)
        (cartItems (db w)) = true \/
      existsb (fun i => (OrderItem.productId i =? Product.id p)%string)
        (orderItems (db w)) = true ->
      exists k, deleteAllProducts env w
                = (mkWorld (db w) (S (tick w)), Err (ForeignKeyViolation k))) /\
  (forall p c,
      In p (products (db w)) -> In c (categories (db w)) ->
      Product.categoryId p = Some (Category.id c) ->
      exists k, deleteAllCategories env w
                = (mkWorld (db w) (S (tick w)), Err (ForeignKeyViolation k))) /\
  (forall p b,
      In p (products (db w)) -> In b (brands (db w)) ->
      Product.brandId p = Some (Brand.id b) ->
      exists k, deleteAllBrands env w
                = (mkWorld (db w) (S (tick w)), Err (ForeignKeyViolation k))).
Proof.
  split; [|split; [|split]].
  - unfold clearAllData, bind, delete_orderItems, delete_orders, delete_cartItems,
      delete_products, delete_categories, delete_brands, statement.
    simpl. rewrite ?filter_not_every, ?filter_false. simpl.
    rewrite ?filter_not_every, ?filter_false. simpl.
    eexists. split; [reflexivity|]. simpl. now rewrite ?filter_not_every, ?filter_false.
  - intros p Hp Href.
    assert (Hgone : In (Product.id p) (map Product.id (filter every (products (db w)))))
      by (rewrite filter_every; now apply in_map).
    unfold deleteAllProducts, delete_products, statement.
    destruct (existsb (fun c => mem (CartItem.productId c) _) (cartItems (db w)))
      eqn:Hcart; [now eexists|].
    destruct (existsb (fun i => mem (OrderItem.productId i) _) (orderItems (db w)))
      eqn:Hitem; [now eexists|].
    exfalso. destruct Href as [Href|Href]; apply existsb_exists in Href as [x [Hx Heq]];
      apply String.eqb_eq in Heq.
    + rewrite existsb_false_forall in Hcart. specialize (Hcart x Hx).
      apply mem_false in Hcart. apply Hcart. now rewrite Heq.
    + rewrite existsb_false_forall in Hitem. specialize (Hitem x Hx).
      apply mem_false in Hitem. apply Hitem. now rewrite Heq.
  - intros p c Hp Hc Href.
    unfold deleteAllCategories, delete_categories, statement.
    destruct (existsb _ (products (db w))) eqn:He; [now eexists|].
    exfalso. rewrite existsb_false_forall in He. specialize (He p Hp).
    rewrite Href in He. simpl in He. apply mem_false in He. apply He.
    rewrite filter_every. now apply in_map.
  - intros p b Hp Hb Href.
    unfold deleteAllBrands, delete_brands, statement.
    destruct (existsb _ (products (db w))) eqn:He; [now eexists|].
    exfalso. rewrite existsb_false_forall in He. specialize (He p Hp).
    rewrite Href in He. simpl in He. apply mem_false in He. apply He.
    rewrite filter_every. now apply in_map.
Qed.

Lemma clearAllData_empties_the_catalog_witness :
  (exists k, deleteAllProducts sample_env sample_world
             = (mkWorld sample_db 1, Err (ForeignKeyViolation k))) /\
  (exists k, deleteAllCategories sample_env sample_world
             = (mkWorld sample_db 1, Err (ForeignKeyViolation k))) /\
  (exists k, deleteAllBrands sample_env sample_world
             = (mkWorld sample_db 1, Err (ForeignKeyViolation k))).
Proof.
  destruct (clearAllData_empties_the_catalog sample_env sample_world)
    as [_ [Hproducts [Hcategories Hbrands]]].
  split; [|split].
  - apply (Hproducts aspirin); [now left | right; reflexivity].
  - apply (Hcategories aspirin pain_relief); [now left | now left | reflexivity].
  - apply (Hbrands aspirin bayer); [now left | now left | reflexivity].
Defined.




(** ** Users *)

Lemma createUser_ok env w userData w1 r :
  createUser userData env w = (w1, Ok r) ->
  exists row,
    r = Some row /\
    db w1 = with_users (db w) (users (db w) ++ [row]) /\
    row = User.mk (User.id row)
            (insert_col None (UpsertUser.username userData))
            (insert_col None (UpsertUser.password userData))
            (insert_col None (UpsertUser.email userData))
            (insert_col None (UpsertUser.firstName userData))
            (insert_col None (UpsertUser.lastName userData))
            (insert_col None (UpsertUser.profileImageUrl userData))
            None None
            (Some (or_false (UpsertUser.isAdmin userData)))
            (insert_col None (UpsertUser.adminRole userData))
            (Some (time_at env (tick w))) (Some (time_at env (tick w))) /\
    User.id row = match or_undefined (UpsertUser.id userData) with
                  | Some i => i
                  | None => uuid_at env (tick w) 0%nat
                  end /\
    mem (User.id row) (map User.id (users (db w))) = false /\
    taken User.username (User.username row) (users (db w)) = false /\
    taken User.email (User.email row) (users (db w)) = false.
Proof.
  unfold createUser, bind, Date_now, insert_users, statement, ret. simpl.
  destruct (mem _ (map User.id _)) eqn:Hid; simpl; [discriminate|].
  destruct (taken User.username _ _) eqn:Hname; simpl; [discriminate|].
  destruct (taken User.email _ _) eqn:Hmail; simpl; [discriminate|].
  intros H. injection H as <- <-. eexists.
  split; [reflexivity|]. split; [reflexivity|]. simpl. now repeat split.
Qed.

Lemma select_appended {R} (p : R -> bool) l row :
  existsb p l = false -> p row = true ->
  hd_error (filter p (l ++ [row])) = Some row.
Proof.
  intros Hl Hrow. rewrite filter_app, (filter_none _ _ Hl). simpl. now rewrite Hrow.
Qed.

(** X7.  A user that [createUser] has just stored is found again by
    [getUser], [getUserById] and, when it was given a username or an email,
    by [getUserByUsername] and [getUserByEmail]: each answers with the
    stored row.  That row has the admin flag of the input, false when the
    input has none, no payment references, and both timestamps at the time
    of the call. *)
Theorem createUser_then_lookup (env : Env) (w w1 : World) (userData : UpsertUser.t)
  (row : User.t) :
  createUser userData env w = (w1, Ok (Some row)) ->
  User.isAdmin row = Some (or_false (UpsertUser.isAdmin userData)) /\
  User.stripeCustomerId row = None /\ User.stripeSubscriptionId row = None /\
  User.createdAt row = Some (time_at env (tick w)) /\
  User.updatedAt row = Some (time_at env (tick w)) /\
  getUser (User.id row) env w1 = (mkWorld (db w1) (S (tick w1)), Ok (Some row)) /\
  getUserById (User.id row) env w1 = (mkWorld (db w1) (S (tick w1)), Ok (Some row)) /\
  (forall n, UpsertUser.username userData = Value n ->
             getUserByUsername n env w1
             = (mkWorld (db w1) (S (tick w1)), Ok (Some row))) /\
  (forall e, UpsertUser.email userData = Value e ->
             getUserByEmail e env w1
             = (mkWorld (db w1) (S (tick w1)), Ok (Some row))).
Proof.
  intros Hcreate.
  apply createUser_ok in Hcreate
    as [row' [Hrow [Hdb [Hfields [_ [Hid [Hname Hmail]]]]]]].
  injection Hrow as <-.
  assert (Husers : users (db w1) = users (db w) ++ [row]) by now rewrite Hdb.
  split; [now rewrite Hfields|]. split; [now rewrite Hfields|].
  split; [now rewrite Hfields|]. split; [now rewrite Hfields|].
  split; [now rewrite Hfields|].
  assert (Hbyid : hd_error (filter (fun u => (User.id u =? User.id row)%string)
                              (users (db w1))) = Some row).
  { rewrite Husers. apply select_appended; [|apply String.eqb_refl].
    now apply fresh_id_no_row. }
  split; [|split; [|split]].
  - unfold getUser, bind, select_from, statement, ret. simpl. now rewrite Hbyid.
  - unfold getUserById, bind, select_from, statement, ret. simpl. now rewrite Hbyid.
  - intros n Hn.
    assert (Hu : User.username row = Some n) by (rewrite Hfields, Hn; reflexivity).
    rewrite Hu in Hname.
    unfold getUserByUsername, bind, select_from, statement, ret. simpl.
    rewrite Husers, select_appended; [reflexivity | exact Hname |].
    rewrite Hu. simpl. apply String.eqb_refl.
  - intros e He.
    assert (Hu : User.email row = Some e) by (rewrite Hfields, He; reflexivity).
    rewrite Hu in Hmail.
    unfold getUserByEmail, bind, select_from, statement, ret. simpl.
    rewrite Husers, select_appended; [reflexivity | exact Hmail |].
    rewrite Hu. simpl. apply String.eqb_refl.
Qed.

(** X8.  [createUser] does not store a second row under a username or an
    email that a row already has: the call fails with a uniqueness
    violation and the database is unchanged. *)
Theorem createUser_rejects_duplicates (env : Env) (w : World) (userData : UpsertUser.t)
  (u : User.t) :
  In u (users (db w)) ->
  (exists n, UpsertUser.username userData = Value n /\ User.username u = Some n) \/
  (exists e, UpsertUser.email userData = Value e /\ User.email u = Some e) ->
  exists k,
    createUser userData env w = (mkWorld (db w) (S (tick w)), Err (UniqueViolation k)).
Proof.
  intros Hu Hdup.
  unfold createUser, bind, Date_now, insert_users, statement, ret. simpl.
  destruct (mem _ (map User.id _)); simpl; [now eexists|].
  destruct (taken User.username _ _) eqn:Hname; simpl; [now eexists|].
  destruct (taken User.email _ _) eqn:Hmail; simpl; [now eexists|].
  exfalso. destruct Hdup as [[n [Hn Hun]]|[e [He Hue]]].
  - rewrite Hn in Hname. simpl in Hname.
    rewrite existsb_false_forall in Hname. specialize (Hname u Hu).
    rewrite Hun in Hname. simpl in Hname. rewrite String.eqb_refl in Hname.
    discriminate.
  - rewrite He in Hmail. simpl in Hmail.
    rewrite existsb_false_forall in Hmail. specialize (Hmail u Hu).
    rewrite Hue in Hmail. simpl in Hmail. rewrite String.eqb_refl in Hmail.
    discriminate.
Qed.

Lemma set_col_insert_col {A} (f : field A) dflt :
  set_col f (insert_col dflt f) = insert_col dflt f.
Proof. now destruct f. Qed.

Lemma set_col_twice {A} (f : field A) old :
  set_col f (set_col f old) = set_col f old.
Proof. now destruct f. Qed.

Lemma upsert_set_after_insert d t now uuid i :
  UpsertUser.id d = Some i ->
  apply_upsert_set d t (user_of_values now uuid d) = touch t (user_of_values now uuid d).
Proof.
  intros Hi. unfold apply_upsert_set, touch, user_of_values. simpl.
  rewrite Hi, !set_col_insert_col. reflexivity.
Qed.

Lemma upsert_set_twice d t t0 u i :
  UpsertUser.id d = Some i ->
  apply_upsert_set d t (apply_upsert_set d t0 u) = touch t (apply_upsert_set d t0 u).
Proof.
  intros Hi. unfold apply_upsert_set, touch. simpl.
  rewrite Hi, !set_col_twice. reflexivity.
Qed.

Lemma upsert_set_id d t u i :
  UpsertUser.id d = Some i -> User.id (apply_upsert_set d t u) = i.
Proof. intros Hi. unfold apply_upsert_set. simpl. now rewrite Hi. Qed.

(** The two ways [upsertUser] can return. *)
Lemma upsertUser_cases env w d i w1 r :
  UpsertUser.id d = Some i ->
  upsertUser d env w = (w1, Ok r) ->
  let f := apply_upsert_set d (time_at env (tick w)) in
  let same u := (User.id u =? i)%string in
  let others := filter (fun u => negb (same u)) (users (db w)) in
  tick w1 = S (tick w) /\
  ((mem i (map User.id (users (db w))) = true /\
    db w1 = with_users (db w) (updated f same (users (db w))) /\
    r = hd_error (returning f same (users (db w))) /\
    existsb (fun u => taken User.username (User.username u) others)
      (returning f same (users (db w))) = false /\
    existsb (fun u => taken User.email (User.email u) others)
      (returning f same (users (db w))) = false) \/
   (mem i (map User.id (users (db w))) = false /\
    let row := user_of_values (time_at env (tick w)) (uuid_at env (tick w)) d in
    db w1 = with_users (db w) (users (db w) ++ [row]) /\
    r = Some row /\
    taken User.username (User.username row) (users (db w)) = false /\
    taken User.email (User.email row) (users (db w)) = false)).
Proof.
  intros Hi. unfold upsertUser, bind, Date_now, upsert_users, statement, ret.
  cbn [user_of_values User.id]. rewrite Hi. cbn beta iota zeta.
  destruct (mem i (map User.id (users (db w)))) eqn:Hmem.
  - destruct (existsb (fun u => taken User.username _ _) _) eqn:Hn; [discriminate|].
    destruct (existsb (fun u => taken User.email _ _) _) eqn:He; [discriminate|].
    intros H. injection H as <- <-. split; [reflexivity|]. left.
    repeat split; assumption.
  - destruct (taken User.username _ _) eqn:Hn; [discriminate|].
    destruct (taken User.email _ _) eqn:He; [discriminate|].
    intros H. injection H as <- <-. split; [reflexivity|]. right.
    repeat split; assumption.
Qed.

Lemma upsertUser_update env w d i :
  UpsertUser.id d = Some i ->
  let f := apply_upsert_set d (time_at env (tick w)) in
  let same u := (User.id u =? i)%string in
  let others := filter (fun u => negb (same u)) (users (db w)) in
  mem i (map User.id (users (db w))) = true ->
  existsb (fun u => taken User.username (User.username u) others)
    (returning f same (users (db w))) = false ->
  existsb (fun u => taken User.email (User.email u) others)
    (returning f same (users (db w))) = false ->
  upsertUser d env w =
  (mkWorld (with_users (db w) (updated f same (users (db w)))) (S (tick w)),
   Ok (hd_error (returning f same (users (db w))))).
Proof.
  intros Hi f same others Hmem Hn He.
  unfold upsertUser, bind, Date_now, upsert_users, statement, ret.
  cbn [user_of_values User.id]. rewrite Hi. cbn beta iota zeta.
  rewrite Hmem.
  match goal with
  | |- context [if ?c then inl (UniqueViolation "users_username_unique") else _] =>
      change c with (existsb (fun u => taken User.username (User.username u) others)
                       (returning f same (users (db w))))
  end.
  rewrite Hn.
  match goal with
  | |- context [if ?c then inl (UniqueViolation "users_email_unique") else _] =>
      change c with (existsb (fun u => taken User.email (User.email u) others)
                       (returning f same (users (db w))))
  end.
  now rewrite He.
Qed.

Lemma filter_updated_kept {A} (f : A -> A) (p : A -> bool) l :
  (forall x, p x = true -> p (f x) = true) ->
  filter p (updated f p l) = returning f p l /\
  filter (fun x => negb (p x)) (updated f p l) = filter (fun x => negb (p x)) l.
Proof.
  intros Hp. unfold updated, returning.
  induction l as [|a l [IH1 IH2]]; simpl; [now split|].
  destruct (p a) eqn:Ha; simpl.
  - rewrite (Hp a Ha). simpl. now rewrite IH1, IH2.
  - rewrite Ha. simpl. now rewrite IH1, IH2.
Qed.

Lemma existsb_map_ext {A B} (g : B -> bool) (g' : A -> bool) (h : A -> B) l :
  (forall x, g (h x) = g' x) -> existsb g (map h l) = existsb g' l.
Proof.
  intros H. induction l as [|a l IH]; simpl; [reflexivity|]. now rewrite H, IH.
Qed.

(** X9.  [upsertUser] with a given id is idempotent up to the time stamp.
    A first call that returns either rewrites the rows of that id in place
    or, when there is none, adds one row.  A second call with the same data
    then succeeds as well, adds no row, and changes nothing but [updatedAt]
    in the rows of that id; it answers with the row the first call
    answered, [updatedAt] apart. *)
Theorem upsertUser_twice (env : Env) (w w1 : World) (userData : UpsertUser.t)
  (i : string) (r1 : option User.t) :
  UpsertUser.id userData = Some i ->
  upsertUser userData env w = (w1, Ok r1) ->
  List.length (users (db w1)) =
  (if mem i (map User.id (users (db w)))
   then List.length (users (db w))
   else S (List.length (users (db w)))) /\
  exists w2,
    upsertUser userData env w1 =
    (w2, Ok (option_map (touch (time_at env (tick w1))) r1)) /\
    db w2 = with_users (db w1)
              (map (fun u => if (User.id u =? i)%string
                             then touch (time_at env (tick w1)) u
                             else u)
                 (users (db w1))).
Proof.
  intros Hi Hfirst.
  pose proof (upsertUser_cases env w userData i w1 r1 Hi Hfirst) as [Htick Hcases].
  cbn zeta in Hcases.
  set (same := fun u => (User.id u =? i)%string) in *.
  set (f := apply_upsert_set userData (time_at env (tick w))) in *.
  set (f2 := apply_upsert_set userData (time_at env (tick w1))).
  assert (Hsame : forall t x, same x = true -> same (apply_upsert_set userData t x) = true).
  { intros t x _. unfold same. rewrite (upsert_set_id _ _ _ _ Hi).
    apply String.eqb_refl. }
  destruct Hcases as [[Hmem [Hdb [Hr [Hn He]]]] | [Hmem [Hdb [Hr [Hn He]]]]].
  - (* the first call rewrote rows in place *)
    rewrite Hmem. split; [rewrite Hdb; apply updated_length|].
    assert (Husers : users (db w1) = updated f same (users (db w))) by now rewrite Hdb.
    destruct (filter_updated_kept f same (users (db w)) (Hsame _)) as [Hkept Hothers].
    assert (Hret : returning f2 same (users (db w1))
                   = map (touch (time_at env (tick w1))) (returning f same (users (db w)))).
    { unfold returning at 1. rewrite Husers, Hkept. unfold returning.
      rewrite !map_map. apply map_ext. intros u. unfold f2, f.
      now apply upsert_set_twice with (i := i). }
    eexists. split.
    + pose proof (upsertUser_update env w1 userData i Hi) as Hup.
      cbn zeta in Hup. fold same in Hup. fold f2 in Hup.
      rewrite Hup.
      * rewrite Hret, Hr. f_equal. f_equal.
        now destruct (returning f same (users (db w))).
      * apply mem_In. apply mem_In in Hmem. rewrite Husers.
        apply in_map_iff in Hmem as [u [Hu Hin]].
        apply in_map_iff. exists (if same u then f u else u). split.
        -- unfold same at 1. rewrite Hu, String.eqb_refl. unfold f.
           now apply upsert_set_id.
        -- unfold updated.
           exact (in_map (fun r => if same r then f r else r) _ _ Hin).
      * rewrite Hret, Husers, Hothers.
        now rewrite (existsb_map_ext _
                       (fun u => taken User.username (User.username u)
                                   (filter (fun x => negb (same x)) (users (db w))))).
      * rewrite Hret, Husers, Hothers.
        now rewrite (existsb_map_ext _
                       (fun u => taken User.email (User.email u)
                                   (filter (fun x => negb (same x)) (users (db w))))).
    + simpl. f_equal. rewrite Husers. unfold updated. rewrite !map_map.
      apply map_ext. intros u. destruct (same u) eqn:Hu.
      * pose proof (Hsame (time_at env (tick w)) u Hu) as Hfu. fold f in Hfu.
        rewrite Hfu. unfold same in Hfu. rewrite Hfu.
        unfold f2, f. now apply upsert_set_twice with (i := i).
      * rewrite Hu. unfold same in Hu. now rewrite Hu.
  - (* the first call inserted the row *)
    cbn zeta in Hdb, Hr, Hn, He.
    set (row := user_of_values (time_at env (tick w)) (uuid_at env (tick w)) userData) in *.
    rewrite Hmem.
    assert (Husers : users (db w1) = users (db w) ++ [row]) by now rewrite Hdb.
    split; [rewrite Husers, length_app; simpl; lia|].
    assert (Hold : existsb same (users (db w)) = false)
      by now apply fresh_id_no_row.
    assert (Hrow : same row = true).
    { unfold same, row, user_of_values. simpl. rewrite Hi. apply String.eqb_refl. }
    assert (Hf2 : f2 row = touch (time_at env (tick w1)) row).
    { unfold f2, row. now apply upsert_set_after_insert with (i := i). }
    assert (Hret : returning f2 same (users (db w1))
                   = [touch (time_at env (tick w1)) row]).
    { unfold returning. rewrite Husers, filter_app, (filter_none _ _ Hold).
      simpl. rewrite Hrow. simpl. now rewrite Hf2. }
    assert (Hothers : filter (fun x => negb (same x)) (users (db w1)) = users (db w)).
    { rewrite Husers. now apply filter_negb_app_row. }
    eexists. split.
    + pose proof (upsertUser_update env w1 userData i Hi) as Hup.
      cbn zeta in Hup. fold same in Hup. fold f2 in Hup.
      rewrite Hup.
      * now rewrite Hret, Hr.
      * apply mem_In. rewrite Husers, map_app. apply in_or_app. right. left.
        unfold row, user_of_values. simpl. now rewrite Hi.
      * rewrite Hret, Hothers. cbn [existsb]. unfold touch. cbn [User.username].
        now rewrite Hn.
      * rewrite Hret, Hothers. cbn [existsb]. unfold touch. cbn [User.email].
        now rewrite He.
    + simpl. f_equal. rewrite Husers, updated_app, map_app.
      rewrite (updated_none _ _ _ Hold). f_equal.
      * rewrite <- (map_id (users (db w))) at 1. apply map_ext_in.
        intros u Hu. rewrite existsb_false_forall in Hold.
        specialize (Hold u Hu). unfold same in Hold. now rewrite Hold.
      * unfold updated. cbn [map]. rewrite Hrow, Hf2.
        unfold same in Hrow. now rewrite Hrow.
Qed.

(** ** Administrators *)

Lemma getUserWithPermissions_run env w id :
  getUserWithPermissions id env w =
  (mkWorld (db w) (S (tick w)),
   Ok (option_map
         (fun u =>
            UserWithPermissions.mk u
              (filter (fun r => eq_nullable (AdminPermission.userId r) (User.id u))
                 (adminPermissions (db w))))
         (hd_error (filter (fun u => (User.id u =? id)%string) (users (db w)))))).
Proof.
  unfold getUserWithPermissions, bind, select_rows, statement, ret. simpl.
  now destruct (filter _ (users (db w))).
Qed.

Lemma hd_error_filter_In {A} (p : A -> bool) l x :
  hd_error (filter p l) = Some x -> In x l /\ p x = true.
Proof.
  intros H. apply filter_In. destruct (filter p l) as [|y r]; [discriminate|].
  injection H as ->. now left.
Qed.

(** X10.  [getUserWithPermissions(id)] changes no table; it answers absent
    exactly when no user has that id, and otherwise with a user row of that
    id together with exactly the permission rows of that user.  The list
    agrees with [hasAdminPermission]: the user holds a permission by the one
    exactly when it is in the other. *)
Theorem getUserWithPermissions_lists_the_permissions (env : Env) (w : World)
  (id : string) :
  exists r,
    getUserWithPermissions id env w = (mkWorld (db w) (S (tick w)), Ok r) /\
    (r = None <-> mem id (map User.id (users (db w))) = false) /\
    (forall x, r = Some x ->
       In (UserWithPermissions.user x) (users (db w)) /\
       User.id (UserWithPermissions.user x) = id /\
       (forall p, In p (UserWithPermissions.adminPermissions x) <->
                  In p (adminPermissions (db w)) /\
                  AdminPermission.userId p = Some id) /\
       (forall s,
           hasAdminPermission id s env w =
           (mkWorld (db w) (S (tick w)),
            Ok (existsb (fun p => (AdminPermission.permission p =? s)%string)
                  (UserWithPermissions.adminPermissions x))))).
Proof.
  eexists. split; [apply getUserWithPermissions_run|].
  destruct (hd_error (filter (fun u => (User.id u =? id)%string) (users (db w))))
    as [u|] eqn:Hhd; simpl.
  - apply hd_error_filter_In in Hhd as [Hu Hid]. apply String.eqb_eq in Hid.
    split.
    + split; [discriminate|]. intros Hmem. apply mem_false in Hmem.
      exfalso. apply Hmem. rewrite <- Hid. now apply in_map.
    + intros x Hx. injection Hx as <-. simpl. rewrite Hid.
      split; [assumption|]. split; [reflexivity|]. split.
      * intros p. rewrite filter_In, eq_nullable_spec. reflexivity.
      * intros s. rewrite hasAdminPermission_run. f_equal. f_equal.
        induction (adminPermissions (db w)) as [|p l IH]; simpl; [reflexivity|].
        unfold same_permission at 1.
        destruct (eq_nullable (AdminPermission.userId p) id); simpl;
          now rewrite IH.
  - split; [|intros x Hx; discriminate].
    split; [|reflexivity]. intros _.
    destruct (filter _ (users (db w))) as [|u l] eqn:Hf; [|discriminate].
    apply filter_nil_existsb in Hf. apply mem_false. intros Hin.
    apply in_map_iff in Hin as [u [Hid Hu]].
    rewrite existsb_false_forall in Hf. specialize (Hf u Hu).
    rewrite Hid, String.eqb_refl in Hf. discriminate.
Qed.

(** ** The guards of the admin routes *)

Import Routes.

Lemma isAdmin_run env w req u :
  Req.user req = Some u ->
  let userId := match or_undefined (ReqUser.claims_sub u) with
                | Some sub => Some sub
                | None => ReqUser.id u
                end in
  let found := match userId with
               | Some id =>
                   hd_error (filter (fun x => (User.id x =? id)%string) (users (db w)))
               | None => None
               end in
  isAdmin req env w =
  (mkWorld (db w) (S (tick w)),
   Ok (match found with
       | Some row =>
           if eq_nullable_bool (User.isAdmin row) true
           then Next
                  (Req.mk (Some u)
                     (Some (UserWithPermissions.mk row
                              (filter (fun r => eq_nullable (AdminPermission.userId r)
                                                  (User.id row))
                                 (adminPermissions (db w))))))
           else Respond (mkReply 403 (ErrorJson "Admin access required"))
       | None => Respond (mkReply 403 (ErrorJson "Admin access required"))
       end)).
Proof.
  intros Hu. unfold isAdmin. rewrite Hu. cbn zeta.
  destruct (match or_undefined (ReqUser.claims_sub u) with
            | Some sub => Some sub
            | None => ReqUser.id u
            end) as [id|]; unfold user_of, bind.
  - rewrite getUserWithPermissions_run.
    destruct (hd_error (filter _ (users (db w)))) as [row|]; simpl; [|reflexivity].
    now destruct (eq_nullable_bool (User.isAdmin row) true).
  - reflexivity.
Qed.

Lemma eq_nullable_bool_true col : eq_nullable_bool col true = true <-> col = Some true.
Proof. destruct col as [[|]|]; simpl; split; congruence. Qed.

(** X11.  The two guards of an admin route, [isAdmin] followed by
    [checkAdminPermission(permission)], never fail and change no table.
    They call [next()] only for a request whose user id is that of a stored
    user with the admin flag true who holds a row for [permission], and they
    do call it for such a request; every other request is answered 401 when
    it carries no user and 403 otherwise. *)
Theorem admin_guards_let_only_permitted_admins_through (env : Env) (w : World)
  (req : Req.t) (permission : string) :
  (exists w' step,
      and_then (isAdmin req) (checkAdminPermission permission) env w = (w', Ok step) /\
      db w' = db w /\
      match step with
      | Next req' =>
          exists u row,
            Req.user req = Some u /\ Req.user req' = Some u /\
            option_map UserWithPermissions.user (Req.adminUser req') = Some row /\
            In row (users (db w)) /\ User.isAdmin row = Some true /\
            match or_undefined (ReqUser.claims_sub u) with
            | Some sub => Some sub
            | None => ReqUser.id u
            end = Some (User.id row) /\
            exists p, In p (adminPermissions (db w)) /\
                      AdminPermission.userId p = Some (User.id row) /\
                      AdminPermission.permission p = permission
      | Respond reply =>
          match Req.user req with
          | None => reply = mkReply 401 (ErrorJson "Not authenticated")
          | Some _ => status reply = 403%nat
          end
      end) /\
  (forall u row,
      Req.user req = Some u ->
      match or_undefined (ReqUser.claims_sub u) with
      | Some sub => Some sub
      | None => ReqUser.id u
      end = Some (User.id row) ->
      hd_error (filter (fun x => (User.id x =? User.id row)%string) (users (db w)))
      = Some row ->
      User.isAdmin row = Some true ->
      existsb (same_permission (User.id row) permission) (adminPermissions (db w)) = true ->
      exists w' req',
        and_then (isAdmin req) (checkAdminPermission permission) env w
        = (w', Ok (Next req'))).
Proof.
  split.
  - unfold and_then, bind. destruct (Req.user req) as [u|] eqn:Hu; rewrite <- ?Hu.
    2:{ unfold isAdmin. rewrite Hu. eexists _, _. split; [reflexivity|].
        split; reflexivity. }
    rewrite (isAdmin_run env w req u Hu). cbn zeta.
    destruct (match or_undefined (ReqUser.claims_sub u) with
              | Some sub => Some sub
              | None => ReqUser.id u
              end) as [id|] eqn:Hid.
    2:{ eexists _, _. split; [reflexivity|]. split; reflexivity. }
    destruct (hd_error (filter _ (users (db w)))) as [row|] eqn:Hrow.
    2:{ eexists _, _. split; [reflexivity|]. split; reflexivity. }
    destruct (eq_nullable_bool (User.isAdmin row) true) eqn:Hadmin.
    2:{ eexists _, _. split; [reflexivity|]. split; reflexivity. }
    unfold checkAdminPermission. cbn [Req.adminUser UserWithPermissions.user].
    unfold bind. rewrite hasAdminPermission_run. cbn [db tick].
    apply hd_error_filter_In in Hrow as [Hin Heq]. apply String.eqb_eq in Heq.
    destruct (existsb (same_permission (User.id row) permission)
                (adminPermissions (db w))) eqn:Hperm; simpl.
    + eexists _, _. split; [reflexivity|]. split; [reflexivity|].
      exists u, row. simpl. repeat split; try assumption.
      * now apply eq_nullable_bool_true.
      * now rewrite Heq.
      * apply existsb_exists in Hperm as [p [Hp Hs]].
        apply same_permission_spec in Hs as [Hs1 Hs2]. now exists p.
    + eexists _, _. split; [reflexivity|]. split; reflexivity.
  - intros u row Hu Hid Hrow Hadmin Hperm.
    unfold and_then, bind. rewrite (isAdmin_run env w req u Hu). cbn zeta.
    rewrite Hid, Hrow. apply eq_nullable_bool_true in Hadmin. rewrite Hadmin.
    unfold checkAdminPermission. cbn [Req.adminUser UserWithPermissions.user].
    unfold bind. rewrite hasAdminPermission_run. cbn [db tick]. rewrite Hperm.
    simpl. now eexists _, _.
Qed.

(** ** Registration and login *)

Lemma getUserByUsername_run env w n :
  getUserByUsername n env w =
  (mkWorld (db w) (S (tick w)),
   Ok (hd_error (filter (fun u => eq_nullable (User.username u) n) (users (db w))))).
Proof. reflexivity. Qed.

Lemma getUserByEmail_run env w e :
  getUserByEmail e env w =
  (mkWorld (db w) (S (tick w)),
   Ok (hd_error (filter (fun u => eq_nullable (User.email u) e) (users (db w))))).
Proof. reflexivity. Qed.

Lemma createUser_err env w userData w' e :
  createUser userData env w = (w', Err e) -> db w' = db w.
Proof.
  unfold createUser, bind, Date_now, insert_users, statement, ret. simpl.
  destruct (mem _ (map User.id _)); simpl; [intros H; now injection H as <- _|].
  destruct (taken User.username _ _); simpl; [intros H; now injection H as <- _|].
  destruct (taken User.email _ _); simpl; [intros H; now injection H as <- _|].
  discriminate.
Qed.

Lemma hd_error_filter_none {A} (p : A -> bool) l :
  hd_error (filter p l) = None -> existsb p l = false.
Proof.
  intros H. apply filter_nil_existsb. now destruct (filter p l).
Qed.

(** X12.  [POST /api/auth/register] always answers, with 200, 400 or 500.
    Unless it answers 200 it leaves the database and the session as they
    were.  When it answers 200, the three fields were present, no stored
    user had the username or the email, exactly one user row has been
    added, with that username and email, the hash of the password in place
    of the password and the admin flag false; the session holds the new
    row's id and the reply carries the new row without its password. *)
Theorem register_outcomes (bcrypt_hash : string -> Z -> string) (env : Env)
  (w : World) (fields : Credentials.t) (session : option string) :
  exists w' reply session',
    register bcrypt_hash fields session env w = (w', Ok (reply, session')) /\
    (status reply = 200 \/ status reply = 400 \/ status reply = 500)%nat /\
    (status reply <> 200%nat -> db w' = db w /\ session' = session) /\
    (status reply = 200%nat ->
     exists username email password row,
       or_undefined (Credentials.username fields) = Some username /\
       or_undefined (Credentials.email fields) = Some email /\
       or_undefined (Credentials.password fields) = Some password /\
       existsb (fun u => eq_nullable (User.username u) username) (users (db w)) = false /\
       existsb (fun u => eq_nullable (User.email u) email) (users (db w)) = false /\
       db w' = with_users (db w) (users (db w) ++ [row]) /\
       User.username row = Some username /\
       User.email row = Some email /\
       User.password row = Some (bcrypt_hash password 10) /\
       User.isAdmin row = Some false /\
       session' = Some (User.id row) /\
       body reply = MessageUserJson "Registration successful" (without_password row)).
Proof.
  unfold register, try_catch.
  destruct (or_undefined (Credentials.username fields)) as [username|];
    [|eexists _, _, _; split; [reflexivity|]; simpl;
      split; [tauto|]; split; [now split | discriminate]].
  destruct (or_undefined (Credentials.email fields)) as [email|];
    [|eexists _, _, _; split; [reflexivity|]; simpl;
      split; [tauto|]; split; [now split | discriminate]].
  destruct (or_undefined (Credentials.password fields)) as [password|];
    [|eexists _, _, _; split; [reflexivity|]; simpl;
      split; [tauto|]; split; [now split | discriminate]].
  unfold bind at 1. rewrite getUserByUsername_run.
  destruct (hd_error (filter _ (users (db w)))) as [existing|] eqn:Hname;
    [eexists _, _, _; split; [reflexivity|]; simpl;
     split; [tauto|]; split; [now split | discriminate]|].
  unfold bind at 1. rewrite getUserByEmail_run. cbn [db tick].
  destruct (hd_error (filter (fun u => eq_nullable (User.email u) email) (users (db w))))
    as [existing|] eqn:Hmail;
    [eexists _, _, _; split; [reflexivity|]; simpl;
     split; [tauto|]; split; [now split | discriminate]|].
  unfold bind.
  destruct (createUser _ env _) as [w1 [[newUser|]|e]] eqn:Hcreate.
  - eexists _, _, _. split; [reflexivity|]. simpl.
    split; [tauto|]. split; [intros H; now elim H|]. intros _.
    apply createUser_ok in Hcreate as [row [Hrow [Hdb [Hfields _]]]].
    injection Hrow as <-. simpl in Hdb, Hfields.
    exists username, email, password, newUser.
    repeat split; try reflexivity; try (now apply hd_error_filter_none);
      try assumption; now rewrite Hfields.
  - apply createUser_ok in Hcreate as [row [Hrow _]]. discriminate.
  - eexists _, _, _. split; [reflexivity|]. simpl.
    split; [tauto|]. split; [|discriminate]. intros _.
    apply createUser_err in Hcreate. now split.
Qed.


(** X14.  Registering and then logging in with the same fields works: when
    the three fields are present, no stored user has the username or the
    email and the drawn uuid is fresh, registration answers 200 with the
    new user; and if [bcrypt.compare] accepts a password against its own
    non-empty [bcrypt.hash], a login with the same fields then answers 200
    for that same user, while a login with a password that [bcrypt.compare]
    rejects answers 401 and leaves the session alone. *)
Theorem register_then_login (bcrypt_hash : string -> Z -> string)
  (bcrypt_compare : string -> string -> bool) (env : Env) (w : World)
  (fields : Credentials.t) (session : option string)
  (username email password : string) :
  or_undefined (Credentials.username fields) = Some username ->
  or_undefined (Credentials.email fields) = Some email ->
  or_undefined (Credentials.password fields) = Some password ->
  existsb (fun u => eq_nullable (User.username u) username) (users (db w)) = false ->
  existsb (fun u => eq_nullable (User.email u) email) (users (db w)) = false ->
  mem (uuid_at env (S (S (tick w))) 0%nat) (map User.id (users (db w))) = false ->
  bcrypt_hash password 10 <> EmptyString ->
  bcrypt_compare password (bcrypt_hash password 10) = true ->
  exists w1 row,
    register bcrypt_hash fields session env w =
    (w1, Ok (mkReply 200
               (MessageUserJson "Registration successful" (without_password row)),
             Some (User.id row))) /\
    (forall session1, exists w2,
        login bcrypt_compare fields session1 env w1 =
        (w2, Ok (mkReply 200
                   (MessageUserJson "Login successful" (without_password row)),
                 Some (User.id row)))) /\
    (forall wrong session1,
        wrong <> EmptyString ->
        bcrypt_compare wrong (bcrypt_hash password 10) = false ->
        exists w2,
          login bcrypt_compare
            (Credentials.mk (Some username) None (Some wrong)) session1 env w1 =
          (w2, Ok (mkReply 401 (MessageJson "Invalid credentials"), session1))).
Proof.
  intros Hu He Hp Hname Hmail Hfresh Hhash Hcmp.
  assert (Hrow : forall w1,
             users (db w1) = users (db w) ++
               [User.mk (uuid_at env (S (S (tick w))) 0%nat) (Some username)
                  (Some (bcrypt_hash password 10)) (Some email) None None None
                  None None (Some false) None
                  (Some (time_at env (S (S (tick w)))))
                  (Some (time_at env (S (S (tick w)))))] ->
             hd_error (filter (fun u => eq_nullable (User.username u) username)
                         (users (db w1)))
             = Some (User.mk (uuid_at env (S (S (tick w))) 0%nat) (Some username)
                       (Some (bcrypt_hash password 10)) (Some email) None None None
                       None None (Some false) None
                       (Some (time_at env (S (S (tick w)))))
                       (Some (time_at env (S (S (tick w))))))).
  { intros w1 ->. apply select_appended; [assumption|]. simpl.
    apply String.eqb_refl. }
  assert (Hstored : or_undefined (Some (bcrypt_hash password 10))
                    = Some (bcrypt_hash password 10)).
  { simpl. destruct (bcrypt_hash password 10 =? EmptyString)%string eqn:Heq;
      [|reflexivity]. apply String.eqb_eq in Heq. contradiction. }
  eexists _, _. split; [|split].
  - unfold register, try_catch. rewrite Hu, He, Hp.
    unfold bind at 1. rewrite getUserByUsername_run, (filter_none _ _ Hname).
    cbn [hd_error]. unfold bind at 1. rewrite getUserByEmail_run.
    cbn [db tick hd_error].
    rewrite (filter_none _ _ Hmail). cbn [hd_error].
    unfold bind, createUser, bind, Date_now, insert_users, statement, ret.
    cbn [db tick user_of_values or_undefined UpsertUser.id User.id User.username
           User.email UpsertUser.username UpsertUser.email insert_col].
    rewrite Hfresh. cbn [taken]. rewrite Hname, Hmail. reflexivity.
  - intros session1. unfold login, try_catch. rewrite Hu, Hp.
    unfold bind. rewrite getUserByUsername_run. rewrite Hrow by reflexivity.
    cbn [User.password]. rewrite Hstored, Hcmp. now eexists.
  - intros wrong session1 Hwrong Hreject. unfold login, try_catch.
    cbn [Credentials.username Credentials.password].
    assert (Hw : or_undefined (Some wrong) = Some wrong).
    { simpl. destruct (wrong =? EmptyString)%string eqn:Heq; [|reflexivity].
      apply String.eqb_eq in Heq. contradiction. }
    assert (Hn : or_undefined (Some username) = Some username).
    { destruct (Credentials.username fields) as [n|]; [|discriminate].
      simpl in Hu. destruct (n =? EmptyString)%string eqn:Heq; [discriminate|].
      injection Hu as <-. simpl. now rewrite Heq. }
    rewrite Hn, Hw. unfold bind. rewrite getUserByUsername_run.
    rewrite Hrow by reflexivity.
    cbn [User.password]. rewrite Hstored, Hreject. now eexists.
Qed.

(** ** Orders *)











(** *** [getOrders]: the grouping of the joined rows *)





Lemma keys_push k x g : map fst (push_item k x g) = map fst g.
Proof.
  unfold push_item. rewrite map_map. apply map_ext. intros e.
  now destruct (fst e =? k)%string.
Qed.

Lemma keys_group_row g row :
  map fst (group_row g row) =
  if has_key (Order.id (OrderRow.order row)) g
  then map fst g
  else map fst g ++ [Order.id (OrderRow.order row)].
Proof.
  unfold group_row.
  destruct (OrderRow.orderItem row), (OrderRow.product row);
    rewrite ?keys_push; destruct (has_key _ g); simpl; rewrite ?map_app;
    reflexivity.
Qed.

Lemma has_key_In k g : has_key k g = true <-> In k (map fst g).
Proof.
  unfold has_key. rewrite existsb_exists, in_map_iff. split.
  - intros [e [He Hk]]. apply String.eqb_eq in Hk. now exists e.
  - intros [e [Hk He]]. exists e. split; [exact He|]. now apply String.eqb_eq.
Qed.

Lemma NoDup_app_one {A} (l : list A) x : NoDup l -> ~ In x l -> NoDup (l ++ [x]).
Proof.
  intros Hl Hx. apply NoDup_rev in Hl. rewrite <- (rev_involutive (l ++ [x])).
  apply NoDup_rev. rewrite rev_app_distr. simpl. constructor; [|exact Hl].
  now rewrite <- in_rev.
Qed.

Lemma keys_group_rows rows : forall g,
  NoDup (map fst g) -> NoDup (map fst (fold_left group_row rows g)).
Proof.
  induction rows as [|row rows IH]; intros g Hg; simpl; [exact Hg|].
  apply IH. rewrite keys_group_row.
  destruct (has_key (Order.id (OrderRow.order row)) g) eqn:Hh; [exact Hg|].
  apply NoDup_app_one; [exact Hg|]. intros Hin. apply has_key_In in Hin. congruence.
Qed.


Lemma keyed_nil : keyed [].
Proof. intros e []. Qed.

(** *** A stable [ORDER BY] *)






Lemma StronglySorted_app_one {A} (R : A -> A -> Prop) l x :
  StronglySorted R l -> Forall (fun a => R a x) l -> StronglySorted R (l ++ [x]).
Proof.
  induction 1 as [|a l Hs IH Ha]; intros Hx; simpl.
  - repeat constructor.
  - inversion Hx as [|? ? Hax Hlx]; subst. constructor; [now apply IH|].
    apply Forall_app. split; [exact Ha | now constructor].
Qed.

Lemma times_group_row g row :
  map (fun e => Order.createdAt (OrderWithItems.order (snd e))) (group_row g row) =
  if has_key (Order.id (OrderRow.order row)) g
  then map (fun e => Order.createdAt (OrderWithItems.order (snd e))) g
  else map (fun e => Order.createdAt (OrderWithItems.order (snd e))) g
       ++ [Order.createdAt (OrderRow.order row)].
Proof.
  assert (Hpush : forall k x g',
    map (fun e => Order.createdAt (OrderWithItems.order (snd e))) (push_item k x g')
    = map (fun e => Order.createdAt (OrderWithItems.order (snd e))) g').
  { intros k x g'. unfold push_item. rewrite map_map. apply map_ext. intros e.
    now destruct (fst e =? k)%string. }
  unfold group_row.
  destruct (OrderRow.orderItem row), (OrderRow.product row);
    rewrite ?Hpush; destruct (has_key _ g); simpl; rewrite ?map_app;
    reflexivity.
Qed.

Lemma times_group_rows rows : forall g,
  StronglySorted (newer_first (fun row => Order.createdAt (OrderRow.order row))) rows ->
  StronglySorted (newer_first (fun t => t))
    (map (fun e => Order.createdAt (OrderWithItems.order (snd e))) g) ->
  (forall t row,
     In t (map (fun e => Order.createdAt (OrderWithItems.order (snd e))) g) ->
     In row rows -> desc t (Order.createdAt (OrderRow.order row)) = true) ->
  StronglySorted (newer_first (fun t => t))
    (map (fun e => Order.createdAt (OrderWithItems.order (snd e)))
       (fold_left group_row rows g)).
Proof.
  induction rows as [|row rows IH]; intros g Hrows Hg Hbefore; simpl; [exact Hg|].
  inversion Hrows as [|? ? Hrows' Hrow]; subst.
  apply IH; [exact Hrows' | |].
  - rewrite times_group_row. destruct (has_key _ g); [exact Hg|].
    apply StronglySorted_app_one; [exact Hg|].
    apply Forall_forall. intros t Ht. apply Hbefore; [exact Ht | now left].
  - intros t r Ht Hr. rewrite times_group_row in Ht.
    assert (Hor : In t (map (fun e => Order.createdAt (OrderWithItems.order (snd e))) g)
                  \/ t = Order.createdAt (OrderRow.order row)).
    { destruct (has_key _ g); [now left|].
      apply in_app_or in Ht as [Ht|[Ht|[]]]; [now left | now right]. }
    destruct Hor as [Hold| ->].
    + apply Hbefore; [exact Hold | now right].
    + rewrite Forall_forall in Hrow. exact (Hrow r Hr).
Qed.

Lemma sorted_of_map {A B} (key : A -> option timestamp) (key' : B -> option timestamp)
  (g : A -> B) l :
  (forall x, key' (g x) = key x) ->
  StronglySorted (newer_first key') (map g l) ->
  StronglySorted (newer_first key) l.
Proof.
  intros Hk. induction l as [|x l IH]; simpl; intros H; [constructor|].
  inversion H as [|? ? Hs Hx]; subst. constructor; [now apply IH|].
  apply Forall_forall. intros y Hy. rewrite Forall_forall in Hx.
  specialize (Hx (g y) (in_map g _ _ Hy)). unfold newer_first in *.
  now rewrite !Hk in Hx.
Qed.

(** X17.  [getOrders] never fails and never changes the database; its list
    holds each order id at most once and is in the order of the query:
    newest [createdAt] first, an order without [createdAt] before the
    dated ones. *)
Theorem getOrders_distinct_newest_first env w userId :
  exists result,
    getOrders userId env w = (mkWorld (db w) (S (tick w)), Ok result) /\
    NoDup (map (fun e => Order.id (OrderWithItems.order e)) result) /\
    StronglySorted
      (newer_first (fun e => Order.createdAt (OrderWithItems.order e))) result.
Proof.
  rewrite getOrders_run. eexists. split; [reflexivity|].
  set (rows := orderBy_desc (fun row => Order.createdAt (OrderRow.order row))
                 (filter (fun row => (Order.userId (OrderRow.order row) =? userId)%string)
                    (orders_join (db w)))).
  split.
  - rewrite map_map.
    rewrite (map_ext_in _ fst).
    + apply keys_group_rows. constructor.
    + intros e He. symmetry. exact (keyed_group_rows rows [] keyed_nil e He).
  - apply (sorted_of_map _ (fun t => t)
             (fun e => Order.createdAt (OrderWithItems.order e))).
    + reflexivity.
    + rewrite map_map. apply times_group_rows.
      * apply orderBy_desc_sorted.
      * constructor.
      * intros t row [].
Qed.

(** ** Admin permissions *)

Lemma existsb_filter_other {A} (p q : A -> bool) l :
  (forall x, p x = true -> q x = false) ->
  existsb p (filter (fun r => negb (q r)) l) = existsb p l.
Proof.
  intros H. induction l as [|a l IH]; simpl; [reflexivity|].
  destruct (q a) eqn:Hq; simpl.
  - destruct (p a) eqn:Hp; [|exact IH]. rewrite (H a Hp) in Hq. discriminate.
  - now rewrite IH.
Qed.

(** X18.  Granting or revoking the permission s of user u changes the answer
    of [hasAdminPermission] for no other pair of user and permission; a grant
    that fails stores nothing. *)
Theorem admin_permission_changes_are_local (env : Env) (w : World)
  (u s u' s' : string) :
  u' <> u \/ s' <> s ->
  (forall w1 r, addAdminPermission u s env w = (w1, Ok r) ->
     snd (hasAdminPermission u' s' env w1) = snd (hasAdminPermission u' s' env w)) /\
  (forall w1 e, addAdminPermission u s env w = (w1, Err e) -> db w1 = db w) /\
  (forall w2 r, removeAdminPermission u s env w = (w2, r) ->
     snd (hasAdminPermission u' s' env w2) = snd (hasAdminPermission u' s' env w)).
Proof.
  intros Hother.
  assert (Hdiff : forall r, same_permission u' s' r = true ->
                            same_permission u s r = false).
  { intros r Hr. apply same_permission_spec in Hr as [Hu Hs].
    destruct (same_permission u s r) eqn:Hr'; [|reflexivity].
    apply same_permission_spec in Hr' as [Hu' Hs']. rewrite Hu in Hu'.
    injection Hu' as Hu'. destruct Hother; congruence. }
  split; [|split].
  - intros w1 r. rewrite !hasAdminPermission_run. simpl.
    unfold addAdminPermission, bind, insert_adminPermissions, statement, ret.
    simpl.
    destruct (mem _ (map AdminPermission.id _)); simpl; [discriminate|].
    destruct (mem u _); simpl; [|discriminate].
    intros H. injection H as <- _. simpl. f_equal.
    rewrite existsb_app. simpl. rewrite orb_false_r.
    destruct (same_permission u' s' _) eqn:Hnew; [|apply orb_false_r].
    apply Hdiff in Hnew. unfold same_permission in Hnew. simpl in Hnew.
    rewrite !String.eqb_refl in Hnew. discriminate.
  - intros w1 e.
    unfold addAdminPermission, bind, insert_adminPermissions, statement, ret.
    simpl.
    destruct (mem _ (map AdminPermission.id _)); simpl.
    + intros H. now injection H as <- _.
    + destruct (mem u _); simpl; [discriminate|].
      intros H. now injection H as <- _.
  - intros w2 r H. unfold removeAdminPermission, delete_adminPermissions, statement in H.
    injection H as <- _. rewrite !hasAdminPermission_run. simpl. f_equal.
    now apply existsb_filter_other.
Qed.

(** ** The slugs of the seeding *)

Lemma lower_char_not_upper c : is_upper (lower_char c) = false.
Proof. destruct c as [[] [] [] [] [] [] [] []]; reflexivity. Qed.













(** ** The dosage read off a product name *)


Lemma prefix_nil s : prefix EmptyString s = true.
Proof. now destruct s. Qed.












(** ** The summary of the seeding *)

Lemma keys_obj_set {A} (k : string) (v : A) (o : obj A) :
  map fst (obj_set k v o) =
  if existsb (fun e => (fst e =? k)%string) o
  then map fst o
  else map fst o ++ [k].
Proof.
  induction o as [|e o IH]; simpl; [reflexivity|].
  destruct (fst e =? k)%string eqn:Hk; simpl.
  - apply String.eqb_eq in Hk. now rewrite Hk.
  - rewrite IH. now destruct (existsb _ o).
Qed.

Lemma keys_obj_set_In {A} (k k' : string) (v : A) (o : obj A) :
  In k' (map fst (obj_set k v o)) <-> k' = k \/ In k' (map fst o).
Proof.
  rewrite keys_obj_set.
  destruct (existsb (fun e => (fst e =? k)%string) o) eqn:Hk.
  - split; [now right|]. intros [->|H]; [|exact H].
    apply existsb_exists in Hk as [e [He Hk]]. apply String.eqb_eq in Hk.
    rewrite <- Hk. now apply in_map.
  - rewrite in_app_iff. simpl. split.
    + intros [H|[<-|[]]]; [now right | now left].
    + intros [->|H]; [right; now left | now left].
Qed.

Lemma length_obj_set {A} (k : string) (v : A) (o : obj A) :
  List.length (obj_set k v o) =
  if mem k (map fst o) then List.length o else S (List.length o).
Proof.
  rewrite <- !(length_map fst), keys_obj_set.
  assert (Hm : existsb (fun e => (fst e =? k)%string) o = mem k (map fst o)).
  { destruct (mem k (map fst o)) eqn:Hm.
    - apply mem_In in Hm. apply in_map_iff in Hm as [e [Hk He]].
      apply existsb_exists. exists e. split; [exact He|]. now apply String.eqb_eq.
    - apply mem_false in Hm. apply existsb_false_forall. intros e He.
      apply String.eqb_neq. intros Hk. apply Hm. rewrite <- Hk. now apply in_map. }
  rewrite Hm. destruct (mem k (map fst o)); [reflexivity|].
  rewrite length_app. simpl. lia.
Qed.

Section SeedingSummary.
Context (storage : IStorage).

Lemma seed_categories_length env data : forall acc w w' acc',
  seed_categories (storage := storage) data acc env w = (w', Ok acc') ->
  NoDup (map InsertCategory.slug data) ->
  (forall k, In k (map InsertCategory.slug data) -> ~ In k (map fst acc)) ->
  List.length acc' = (List.length acc + List.length data)%nat.
Proof.
  induction data as [|v data IH]; intros acc w w' acc' H Hnd Hfresh.
  - injection H as _ <-. simpl. lia.
  - simpl in H. unfold bind in H.
    destruct (storage_createCategory v env w) as [w1 [r|e]]; [|discriminate].
    inversion Hnd as [|? ? Hnotin Hnd']; subst.
    apply IH in H; [|exact Hnd'|].
    + rewrite H, length_obj_set.
      assert (Hm : mem (InsertCategory.slug v) (map fst acc) = false).
      { apply mem_false, Hfresh. now left. }
      rewrite Hm. simpl. lia.
    + intros k Hk Hin. apply keys_obj_set_In in Hin as [->|Hin].
      * now apply Hnotin.
      * apply (Hfresh k); [now right | exact Hin].
Qed.

Lemma seed_brands_length env names : forall acc w w' acc',
  seed_brands (storage := storage) names acc env w = (w', Ok acc') ->
  (List.length acc' <= List.length acc + List.length names)%nat.
Proof.
  induction names as [|n names IH]; intros acc w w' acc' H.
  - injection H as _ <-. simpl. lia.
  - simpl in H. unfold bind in H.
    destruct (storage_createBrand _ env w) as [w1 [r|e]]; [|discriminate].
    apply IH in H. rewrite length_obj_set in H. simpl.
    destruct (mem _ (map fst acc)); lia.
Qed.

Lemma seed_products_length env cats brands items :
  forall products processed w w' products',
  seed_products (storage := storage) cats brands items products processed env w
  = (w', Ok products') ->
  List.length products' =
  (List.length products +
   List.length
     (Set_values
        (map (fun item =>
                (or_else (CatalogItem.ProductName item) "Unknown Product" ++ "-"
                 ++ or_else (CatalogItem.Brand item) "Generic" ++ "-"
                 ++ or_else (CatalogItem.Price item) "0")%string)
           items)
        processed))%nat.
Proof.
  induction items as [|item items IH]; intros products processed w w' products' H.
  - injection H as _ <-. simpl. lia.
  - cbn [seed_products] in H. cbn [map Set_values].
    destruct (mem _ processed); [now apply IH in H|].
    unfold bind at 1 in H.
    destruct (find_category cats _ env w) as [w0 [found|e]]; [|discriminate].
    destruct (or_obj (Some found) _) as [categoryObj|]; [|discriminate].
    destruct (or_obj (obj_get _ brands) _) as [brandObj|]; [|discriminate].
    unfold bind, Math_random in H.
    destruct (storage_createProduct _ env w0) as [w1 [created|e]]; [|discriminate].
    apply IH in H. rewrite H, length_app. simpl. lia.
Qed.

End SeedingSummary.

(** X21.  Whatever the storage behind it, a run of the seeding that returns
    reports seventeen categories, one product for each different key
    (name, brand, price) of the catalog, and at most one brand for each
    different brand name. *)
Theorem seedAuthenticCatalog_summary (storage : IStorage) (env : Env) (w w1 : World)
  (catalogData : list CatalogItem.t) (summary : SeedSummary.t) :
  seedAuthenticCatalog (storage := storage) catalogData env w = (w1, Ok summary) ->
  SeedSummary.categories summary = 17%nat /\
  (SeedSummary.brands summary <=
   List.length
     (Set_values
        (map (fun item => or_else (CatalogItem.Brand item) "Generic") catalogData)
        []))%nat /\
  SeedSummary.products summary =
  List.length
    (Set_values
       (map (fun item =>
               (or_else (CatalogItem.ProductName item) "Unknown Product" ++ "-"
                ++ or_else (CatalogItem.Brand item) "Generic" ++ "-"
                ++ or_else (CatalogItem.Price item) "0")%string)
          catalogData)
       []).
Proof.
  unfold seedAuthenticCatalog, bind. intros H.
  destruct (seed_categories categoriesData [] env w) as [wc [cats|e]] eqn:Hc;
    [|discriminate].
  destruct (seed_brands _ [] env wc) as [wb [brands|e]] eqn:Hb; [|discriminate].
  destruct (seed_products cats brands catalogData [] [] env wb)
    as [wp [products|e]] eqn:Hp; [|discriminate].
  injection H as _ <-. simpl.
  apply seed_categories_length in Hc.
  - apply seed_brands_length in Hb. apply seed_products_length in Hp.
    simpl in Hb, Hp. split; [exact Hc|]. split; [exact Hb | exact Hp].
  - apply distinct_NoDup. vm_compute. reflexivity.
  - intros k _ [].
Qed.

(** ** The rows of the seeding *)








(** ** The properties above on the sample database *)



Lemma createUser_then_lookup_witness :
  exists w1 row,
    createUser bob sample_env sample_world = (w1, Ok (Some row)) /\
    getUserByUsername "bob" sample_env w1
    = (mkWorld (db w1) (S (tick w1)), Ok (Some row)) /\
    getUserByEmail "b@x.com" sample_env w1
    = (mkWorld (db w1) (S (tick w1)), Ok (Some row)) /\
    User.isAdmin row = Some false.
Proof.
  eassert (Hrun : createUser bob sample_env sample_world = (_, Ok (Some _)))
    by (vm_compute; reflexivity).
  destruct (createUser_then_lookup _ _ _ _ _ Hrun)
    as [Hadmin [_ [_ [_ [_ [_ [_ [Hname Hmail]]]]]]]].
  eexists _, _. split; [exact Hrun|].
  split; [apply Hname; reflexivity|].
  split; [apply Hmail; reflexivity | exact Hadmin].
Defined.

Lemma createUser_rejects_duplicates_witness :
  exists k,
    createUser alice_again sample_env sample_world
    = (mkWorld sample_db 1, Err (UniqueViolation k)).
Proof.
  apply (createUser_rejects_duplicates sample_env sample_world alice_again alice).
  - now left.
  - left. exists "alice". split; reflexivity.
Defined.

Lemma upsertUser_twice_witness :
  exists w1 r1 w2,
    upsertUser carol sample_env sample_world = (w1, Ok r1) /\
    List.length (users (db w1)) = 2%nat /\
    upsertUser carol sample_env w1
    = (w2, Ok (option_map (touch (time_at sample_env (tick w1))) r1)) /\
    List.length (users (db w2)) = 2%nat.
Proof.
  eassert (Hfirst : upsertUser carol sample_env sample_world = (_, Ok _))
    by (vm_compute; reflexivity).
  destruct (upsertUser_twice sample_env sample_world _ carol "carol" _ eq_refl Hfirst)
    as [Hlen [w2 [Hrun Hdb]]].
  eexists _, _, w2. split; [exact Hfirst|]. split; [exact Hlen|].
  split; [exact Hrun|].
  rewrite Hdb. reflexivity.
Defined.

Lemma getUserWithPermissions_lists_the_permissions_witness :
  exists x,
    getUserWithPermissions "alice" sample_env admin_world
    = (mkWorld (db admin_world) 1, Ok (Some x)) /\
    UserWithPermissions.adminPermissions x
    = [edit_products_row; view_prescriptions_row] /\
    hasAdminPermission "alice" "edit_products" sample_env admin_world
    = (mkWorld (db admin_world) 1, Ok true).
Proof.
  destruct (getUserWithPermissions_lists_the_permissions sample_env admin_world "alice")
    as [r [Hrun [_ Hsome]]].
  destruct r as [x|]; [|vm_compute in Hrun; discriminate].
  exists x. split; [exact Hrun|].
  destruct (Hsome x eq_refl) as [_ [_ [_ Hhas]]].
  assert (Hx : UserWithPermissions.adminPermissions x
               = [edit_products_row; view_prescriptions_row]).
  { vm_compute in Hrun. injection Hrun as <-. reflexivity. }
  split; [exact Hx|]. rewrite (Hhas "edit_products"), Hx. reflexivity.
Defined.

Lemma admin_guards_let_only_permitted_admins_through_witness :
  (exists w' req',
      and_then (isAdmin alice_request) (checkAdminPermission "edit_products")
        sample_env admin_world = (w', Ok (Next req'))) /\
  (exists w' reply,
      and_then (isAdmin alice_request) (checkAdminPermission "edit_products")
        sample_env sample_world = (w', Ok (Respond reply)) /\
      status reply = 403%nat).
Proof.
  split.
  - destruct (admin_guards_let_only_permitted_admins_through sample_env admin_world
                alice_request "edit_products") as [_ Hthrough].
    apply (Hthrough (ReqUser.mk None (Some "alice")) alice); reflexivity.
  - destruct (admin_guards_let_only_permitted_admins_through sample_env sample_world
                alice_request "edit_products") as [[w' [step [Hrun [_ Hstep]]]] _].
    destruct step as [req'|reply]; [vm_compute in Hrun; discriminate|].
    exists w', reply. split; [exact Hrun | exact Hstep].
Defined.

Lemma register_outcomes_witness :
  exists w' reply row,
    register sample_hash bob_fields None sample_env sample_world
    = (w', Ok (reply, Some (User.id row))) /\
    status reply = 200%nat /\
    db w' = with_users sample_db [alice; row] /\
    User.password row = Some "$2b$10$secret".
Proof.
  destruct (register_outcomes sample_hash sample_env sample_world bob_fields None)
    as [w' [reply [session' [Hrun [_ [_ Hok]]]]]].
  assert (Hstatus : status reply = 200%nat).
  { vm_compute in Hrun. injection Hrun as _ <- _. reflexivity. }
  destruct (Hok Hstatus)
    as [username [email [password [row [_ [_ [Hp [_ [_ [Hdb [_ [_ [Hpw [_ [Hs _]]]]]]]]]]]]]]].
  exists w', reply, row. rewrite <- Hs. split; [exact Hrun|].
  split; [exact Hstatus|]. split; [exact Hdb|].
  rewrite Hpw. injection Hp as <-. reflexivity.
Defined.


Lemma register_then_login_witness :
  exists w1 row w2,
    register sample_hash bob_fields None sample_env sample_world
    = (w1, Ok (mkReply 200
                 (MessageUserJson "Registration successful" (without_password row)),
               Some (User.id row))) /\
    login sample_compare bob_fields None sample_env w1
    = (w2, Ok (mkReply 200
                 (MessageUserJson "Login successful" (without_password row)),
               Some (User.id row))).
Proof.
  destruct (register_then_login sample_hash sample_compare sample_env sample_world
              bob_fields None "bob" "b@x.com" "secret")
    as [w1 [row [Hreg [Hlogin _]]]];
    try reflexivity; [vm_compute; discriminate|].
  destruct (Hlogin None) as [w2 Hw2].
  exists w1, row, w2. split; [exact Hreg | exact Hw2].
Defined.



Lemma admin_permission_changes_are_local_witness :
  exists w2,
    removeAdminPermission "alice" "edit_products" sample_env admin_world = (w2, Ok tt) /\
    snd (hasAdminPermission "alice" "view_prescriptions" sample_env w2) = Ok true.
Proof.
  destruct (admin_permission_changes_are_local sample_env admin_world
              "alice" "edit_products" "alice" "view_prescriptions")
    as [_ [_ Hremove]]; [right; discriminate|].
  eexists. split; [reflexivity|].
  rewrite (Hremove _ _ eq_refl). reflexivity.
Defined.


Lemma seedAuthenticCatalog_summary_witness :
  exists w1 summary,
    seedAuthenticCatalog sample_catalog sample_env (mkWorld empty_db 0)
    = (w1, Ok summary) /\
    SeedSummary.categories summary = 17%nat /\
    SeedSummary.products summary = 2%nat.
Proof.
  eassert (Hrun : seedAuthenticCatalog sample_catalog sample_env (mkWorld empty_db 0)
                  = (_, Ok _)) by (vm_compute; reflexivity).
  destruct (seedAuthenticCatalog_summary DatabaseStorage _ _ _ _ _ Hrun)
    as [Hc [_ Hp]].
  eexists _, _. split; [exact Hrun|]. split; [exact Hc | exact Hp].
Defined.


(** ** Prescriptions *)

Lemma find_by_id u l :
  mem u (map User.id l) = true ->
  exists usr, find (fun x => (User.id x =? u)%string) l = Some usr /\
              In usr l /\ User.id usr = u.
Proof.
  intros H. apply mem_In in H. apply in_map_iff in H as [x [Hid Hx]].
  destruct (find (fun x => (User.id x =? u)%string) l) as [usr|] eqn:Hf.
  - exists usr. split; [reflexivity|]. apply find_some in Hf as [Hin Heq].
    split; [exact Hin|]. now apply String.eqb_eq.
  - apply find_none with (x := x) in Hf; [|exact Hx].
    rewrite Hid, String.eqb_refl in Hf. discriminate.
Qed.

Lemma one_user_some d col usr :
  one_user d col = Some usr -> In usr (users d) /\ col = Some (User.id usr).
Proof.
  destruct col as [v|]; simpl; [|discriminate]. intros H.
  apply find_some in H as [Hin Heq]. apply String.eqb_eq in Heq.
  split; [exact Hin | now rewrite Heq].
Qed.

Lemma createPrescription_ok env s v s1 r :
  createPrescription v env s = (s1, Ok r) ->
  exists row,
    r = Some row /\
    s1 = mkStore (mkWorld (db (world s)) (S (tick (world s))))
           (prescriptions s ++ [row]) /\
    Prescription.userId row = insert_col None (InsertPrescription.userId v) /\
    Prescription.status row
    = insert_col (Some "pending") (InsertPrescription.status v) /\
    mem (Prescription.id row) (map Prescription.id (prescriptions s)) = false /\
    mem_opt (Prescription.userId row) (map User.id (users (db (world s)))) = true.
Proof.
  unfold createPrescription, pbind, insert_prescriptions, pstatement, pret.
  cbn zeta. cbn [Prescription.id Prescription.userId Prescription.reviewedBy].
  destruct (mem _ (map Prescription.id _)) eqn:Hid; [discriminate|].
  destruct (mem_opt (insert_col None (InsertPrescription.userId v)) _) eqn:Hu;
    [|discriminate]. cbn [negb].
  destruct (mem_opt (insert_col None (InsertPrescription.reviewedBy v)) _) eqn:Hr;
    [|discriminate]. cbn [negb hd_error].
  intros H. injection H as <- <-. eexists. split; [reflexivity|].
  split; [reflexivity|]. split; [reflexivity|]. split; [reflexivity|].
  split; [exact Hid | exact Hu].
Qed.

(** X23.  A prescription that [createPrescription] has just stored gets the
    status "pending" unless one was given, and the other tables are as they
    were.  When it names a user, [getPrescription] finds it again, with
    that user; when it names none, [getPrescription] answers with nothing
    although the row is stored. *)
Theorem createPrescription_then_getPrescription (env : Env) (s s1 : Store)
  (v : InsertPrescription.t) (r : option Prescription.t) :
  createPrescription v env s = (s1, Ok r) ->
  exists row,
    r = Some row /\
    prescriptions s1 = prescriptions s ++ [row] /\
    db (world s1) = db (world s) /\
    Prescription.status row
    = insert_col (Some "pending") (InsertPrescription.status v) /\
    match Prescription.userId row with
    | Some u =>
        exists usr,
          In usr (users (db (world s))) /\ User.id usr = u /\
          getPrescription (Prescription.id row) env s1
          = (ticked s1,
             Ok (Some (PrescriptionWithUser.mk row (Some usr)
                         (one_user (db (world s)) (Prescription.reviewedBy row)))))
    | None =>
        getPrescription (Prescription.id row) env s1 = (ticked s1, Ok None)
    end.
Proof.
  intros Hcreate.
  apply createPrescription_ok in Hcreate
    as [row [-> [-> [Huser [Hstatus [Hfresh Hfk]]]]]].
  exists row. split; [reflexivity|]. split; [reflexivity|].
  split; [reflexivity|]. split; [exact Hstatus|].
  assert (Hfound :
    hd_error
      (map (with_user_and_reviewer (db (world s)))
         (filter (fun p => (Prescription.id p =? Prescription.id row)%string)
            (prescriptions s ++ [row])))
    = Some (with_user_and_reviewer (db (world s)) row)).
  { rewrite filter_app, (filter_none _ (prescriptions s)).
    - simpl. now rewrite String.eqb_refl.
    - now apply fresh_id_no_row. }
  unfold getPrescription, pbind, findFirst_prescriptions, pstatement, ticked.
  cbn [world prescriptions db tick]. rewrite Hfound.
  unfold has_user, with_user_and_reviewer. cbn [PrescriptionWithUser.user].
  destruct (Prescription.userId row) as [u|]; [|reflexivity].
  simpl in Hfk. destruct (find_by_id u _ Hfk) as [usr [Hfind [Hin Hid]]].
  exists usr. split; [exact Hin|]. split; [exact Hid|].
  cbn [one_user]. rewrite Hfind. reflexivity.
Qed.

Lemma createPrescription_then_getPrescription_witness :
  (exists s1 row usr reviewer,
      createPrescription alice_prescription sample_env sample_store
      = (s1, Ok (Some row)) /\
      getPrescription (Prescription.id row) sample_env s1
      = (ticked s1, Ok (Some (PrescriptionWithUser.mk row (Some usr) reviewer))) /\
      Prescription.status row = Some "pending") /\
  (exists s1 row,
      createPrescription walk_in_prescription sample_env sample_store
      = (s1, Ok (Some row)) /\
      getPrescription (Prescription.id row) sample_env s1 = (ticked s1, Ok None)).
Proof.
  split.
  - eassert (Hrun : createPrescription alice_prescription sample_env sample_store
                    = (_, Ok _)) by (vm_compute; reflexivity).
    destruct (createPrescription_then_getPrescription _ _ _ _ _ Hrun)
      as [row [Hr [_ [_ [Hstatus Hget]]]]].
    injection Hr as <-. destruct Hget as [usr [_ [_ Hget]]].
    eexists _, _, usr, _. split; [exact Hrun|]. split; [exact Hget | exact Hstatus].
  - eassert (Hrun : createPrescription walk_in_prescription sample_env sample_store
                    = (_, Ok _)) by (vm_compute; reflexivity).
    destruct (createPrescription_then_getPrescription _ _ _ _ _ Hrun)
      as [row [Hr [_ [_ [_ Hget]]]]].
    injection Hr as <-.
    eexists _, _. split; [exact Hrun | exact Hget].
Defined.

Lemma getPrescriptions_run env s userId :
  getPrescriptions userId env s =
  (ticked s,
   Ok (filter has_user
         (map (with_user_and_reviewer (db (world s)))
            (orderBy_desc Prescription.createdAt
               (filter
                  (fun p =>
                     match userId with
                     | Some u =>
                         if truthy userId
                         then eq_nullable (Prescription.userId p) u
                         else true
                     | None => true
                     end)
                  (prescriptions s)))))).
Proof.
  unfold getPrescriptions. destruct userId as [u|]; [|reflexivity].
  destruct (truthy (Some u)); reflexivity.
Qed.

Lemma StronglySorted_filter {A} (R : A -> A -> Prop) (p : A -> bool) l :
  StronglySorted R l -> StronglySorted R (filter p l).
Proof.
  induction 1 as [|a l Hs IH Ha]; simpl; [constructor|].
  destruct (p a); [|exact IH]. constructor; [exact IH|].
  apply Forall_forall. intros x Hx. apply filter_In in Hx as [Hx _].
  rewrite Forall_forall in Ha. now apply Ha.
Qed.

(** X24.  [getPrescriptions] never fails and writes nothing.  Every entry
    is a stored prescription together with the user row it names; with a
    non-empty user id only that user's prescriptions are listed, with an
    empty or absent one everybody's.  A stored prescription that passes this
    test is listed exactly when its user exists, so one that names no user
    is never listed.  The entries come newest first. *)
Theorem getPrescriptions_lists_those_with_a_user (env : Env) (s : Store)
  (userId : option string) :
  exists results,
    getPrescriptions userId env s = (ticked s, Ok results) /\
    (forall r, In r results ->
       In (PrescriptionWithUser.prescription r) (prescriptions s) /\
       (truthy userId = true ->
        Prescription.userId (PrescriptionWithUser.prescription r) = userId) /\
       exists usr,
         PrescriptionWithUser.user r = Some usr /\
         In usr (users (db (world s))) /\
         Prescription.userId (PrescriptionWithUser.prescription r)
         = Some (User.id usr)) /\
    (forall p, In p (prescriptions s) ->
       (truthy userId = true -> Prescription.userId p = userId) ->
       (In p (map PrescriptionWithUser.prescription results) <->
        exists u, Prescription.userId p = Some u /\
                  mem u (map User.id (users (db (world s)))) = true)) /\
    StronglySorted
      (newer_first
         (fun r => Prescription.createdAt (PrescriptionWithUser.prescription r)))
      results /\
    (truthy userId = false ->
     getPrescriptions userId env s = getPrescriptions None env s).
Proof.
  eexists. split; [apply getPrescriptions_run|].
  set (wanted := fun p : Prescription.t =>
                   match userId with
                   | Some u =>
                       if truthy userId
                       then eq_nullable (Prescription.userId p) u
                       else true
                   | None => true
                   end).
  assert (Hwanted : forall p, wanted p = true <->
                      (truthy userId = true -> Prescription.userId p = userId)).
  { intros p. unfold wanted. destruct userId as [u|]; [|simpl; split; [discriminate | reflexivity]].
    destruct (truthy (Some u)); [|split; [discriminate | reflexivity]].
    rewrite eq_nullable_spec. split; [intros H _; exact H | intros H; now apply H]. }
  assert (Hrows : forall p,
            In p (orderBy_desc Prescription.createdAt (filter wanted (prescriptions s)))
            <-> In p (prescriptions s) /\ wanted p = true).
  { intros p. rewrite <- filter_In. split; intros H.
    - exact (Permutation_in _ (orderBy_desc_perm _ _) H).
    - exact (Permutation_in _ (Permutation_sym (orderBy_desc_perm _ _)) H). }
  split; [|split; [|split]].
  - intros r Hr. apply filter_In in Hr as [Hr Huser].
    apply in_map_iff in Hr as [p [<- Hp]]. apply Hrows in Hp as [Hp Hw].
    cbn [PrescriptionWithUser.prescription with_user_and_reviewer].
    split; [exact Hp|]. split; [now apply Hwanted|].
    unfold has_user in Huser. cbn [with_user_and_reviewer PrescriptionWithUser.user] in *.
    destruct (one_user (db (world s)) (Prescription.userId p)) as [usr|] eqn:Hone;
      [|discriminate].
    exists usr. split; [reflexivity|]. now apply one_user_some.
  - intros p Hp Hw. rewrite in_map_iff. split.
    + intros [r [<- Hr]]. apply filter_In in Hr as [Hr Huser].
      apply in_map_iff in Hr as [p' [<- _]].
      unfold has_user in Huser.
      cbn [with_user_and_reviewer PrescriptionWithUser.user
           PrescriptionWithUser.prescription] in *.
      destruct (one_user (db (world s)) (Prescription.userId p')) as [usr|] eqn:Hone;
        [|discriminate].
      apply one_user_some in Hone as [Hin Hcol].
      exists (User.id usr). split; [exact Hcol|]. apply mem_In. now apply in_map.
    + intros [u [Hu Hmem]]. exists (with_user_and_reviewer (db (world s)) p).
      split; [reflexivity|]. apply filter_In. split.
      * apply in_map. apply Hrows. split; [exact Hp | now apply Hwanted].
      * unfold has_user, with_user_and_reviewer. cbn [PrescriptionWithUser.user].
        rewrite Hu. cbn [one_user].
        destruct (find_by_id u _ Hmem) as [usr [Hfind _]]. now rewrite Hfind.
  - apply StronglySorted_filter.
    apply (sorted_map Prescription.createdAt).
    + reflexivity.
    + apply orderBy_desc_sorted.
  - intros Hfalsy. unfold getPrescriptions.
    destruct userId as [u|]; [|reflexivity]. now rewrite Hfalsy.
Qed.

Lemma getPrescriptions_lists_those_with_a_user_witness :
  exists results,
    getPrescriptions (Some "alice") sample_env sample_store
    = (ticked sample_store, Ok results) /\
    In stored_prescription (map PrescriptionWithUser.prescription results) /\
    getPrescriptions (Some EmptyString) sample_env sample_store
    = getPrescriptions None sample_env sample_store.
Proof.
  destruct (getPrescriptions_lists_those_with_a_user sample_env sample_store
              (Some "alice")) as [results [Hrun [_ [Hlisted _]]]].
  destruct (getPrescriptions_lists_those_with_a_user sample_env sample_store
              (Some EmptyString)) as [_ [_ [_ [_ [_ Hempty]]]]].
  exists results. split; [exact Hrun|]. split; [|now apply Hempty].
  apply (Hlisted stored_prescription); [now left | reflexivity|].
  exists "alice". split; reflexivity.
Defined.


